(** * Polymarket trading bot: a shallow embedding and its verified properties

    The development follows the layout of the TypeScript sources:

    - [Num]           the number model shared by all components;
    - [PnL]           [class PnLTracker] ([src/utils/pnl_tracker.ts]);
    - [Eff]           state passing with exceptions, for the [async] methods;
    - [RateLimiter]   [class RateLimiter] ([src/utils/rate_limiter.ts]);
    - [BitcoinOracle] [class BitcoinOracle] ([oracle/bitcoin_oracle]);
    - [OrderBook]     [class OrderBookTracker] ([utils/order_book]);
    - [Venue]         the CLOB client and the balance checker, as interfaces;
    - [BasicBot]      [class AutoTradingBot], the first trading loop (gates:
                      cooldown, balance, edge);
    - [Bot]           [class AutoTradingBot], the enhanced trading loop (gates:
                      cooldown, oracle age, balance, order-book age, edge,
                      spread, liquidity, slippage; order monitor; P&L).

    The modules [NumFacts] to [BotFacts] hold the properties.

    Number model.  A finite JavaScript [number] is an exact rational ([Q]);
    rounding of IEEE doubles is not modelled, and equality of such numbers is
    [Qeq] ([==]).  Wall-clock instants and durations in milliseconds are
    integers ([Z]).  Where the source can produce a non-finite value
    ([Infinity], [NaN]: a division by zero, the extremum of an empty list) the
    result type is [number], which adds these values to [Q].  Log lines are
    output only and are not part of the state. *)

From Stdlib Require Import QArith Qminmax Qabs Lqa ZArith List Lia Bool.
From Stdlib Require Import Sorted Permutation.
From stdpp Require Import gmap strings pretty.
Import ListNotations.

(* ===================================================================== *)
(** ** Numbers *)
(* ===================================================================== *)

Module Num.

Local Open Scope Q_scope.

(** [a > b], [a >= b], [a < b], [a <= b] on finite numbers, as booleans. *)
Definition gtb (a b : Q) : bool := negb (Qle_bool a b).
Definition geb (a b : Q) : bool := Qle_bool b a.
Definition ltb (a b : Q) : bool := negb (Qle_bool b a).
Definition leb (a b : Q) : bool := Qle_bool a b.

(** A JavaScript number that may be non-finite. *)
Inductive number : Type :=
| Fin (q : Q)
| PosInf
| NegInf
| NaN.

Definition isNaN (x : number) : bool :=
  match x with NaN => true | _ => false end.

Definition isFinite (x : number) : bool :=
  match x with Fin _ => true | _ => false end.

(** [a / b] of two finite numbers: a zero divisor gives [NaN] or an
    infinity of the sign of [a]. *)
Definition div (a b : Q) : number :=
  if Qeq_bool b 0 then
    if Qeq_bool a 0 then NaN else if gtb a 0 then PosInf else NegInf
  else Fin (a / b).

(** [x * c] for a finite [c]. *)
Definition scale (x : number) (c : Q) : number :=
  match x with
  | Fin a => Fin (a * c)
  | PosInf => if Qeq_bool c 0 then NaN else if gtb c 0 then PosInf else NegInf
  | NegInf => if Qeq_bool c 0 then NaN else if gtb c 0 then NegInf else PosInf
  | NaN => NaN
  end.

(** [Math.max(...xs)] and [Math.min(...xs)]: the extremum of no argument
    is [-Infinity], respectively [Infinity]. *)
Definition mathMax (xs : list Q) : number :=
  match xs with
  | [] => NegInf
  | x :: rest => Fin (fold_left Qmax rest x)
  end.

Definition mathMin (xs : list Q) : number :=
  match xs with
  | [] => PosInf
  | x :: rest => Fin (fold_left Qmin rest x)
  end.

(** A length or an index, as a number. *)
Definition ofNat (n : nat) : Q := inject_Z (Z.of_nat n).

(** [xs.reduce((a, b) => a + b, 0)]. *)
Definition sumQ (xs : list Q) : Q := fold_left Qplus xs 0.
Definition sumZ (xs : list Z) : Z := fold_left Z.add xs 0%Z.

(** [x - c], [Math.abs(x)], [x / c] and [x > c] when [x] may be
    non-finite ([c] is finite); a zero divisor counts as [+0]. *)
Definition subq (x : number) (c : Q) : number :=
  match x with
  | Fin a => Fin (a - c)
  | other => other
  end.

Definition abs (x : number) : number :=
  match x with
  | Fin a => Fin (Qabs a)
  | PosInf | NegInf => PosInf
  | NaN => NaN
  end.

Definition divq (x : number) (c : Q) : number :=
  match x with
  | Fin a => div a c
  | PosInf => if ltb c 0 then NegInf else PosInf
  | NegInf => if ltb c 0 then PosInf else NegInf
  | NaN => NaN
  end.

Definition gtq (x : number) (c : Q) : bool :=
  match x with
  | Fin a => gtb a c
  | PosInf => true
  | NegInf | NaN => false
  end.

(** [xs.slice(start)]: a negative [start] counts from the end. *)
Definition slice {A} (start : Z) (xs : list A) : list A :=
  let len := Z.of_nat (length xs) in
  let k := if (start <? 0)%Z then Z.max (len + start) 0 else Z.min start len in
  skipn (Z.to_nat k) xs.

End Num.

(* ===================================================================== *)
(** ** PnLTracker ([src/utils/pnl_tracker.ts]) *)
(* ===================================================================== *)

Module PnL.

Import Num.
Local Open Scope Q_scope.

Inductive ExitReason : Type := take_profit | stop_loss | manual | timeout.

Record TradeResult : Type := {
  tradeId : string;
  tokenType : string;
  entryPrice : Q;
  exitPrice : Q;
  shares : Q;
  pnl : Q;
  pnlPercent : Q;
  exitReason : ExitReason;
  entryTime : Z;
  exitTime : Z;
  holdingTimeMs : Z
}.

Record TradingStats : Type := {
  totalTrades : nat;
  winningTrades : nat;
  losingTrades : nat;
  winRate : number;
  totalPnL : number;
  averagePnL : number;
  averageWin : number;
  averageLoss : number;
  profitFactor : number;
  statsMaxDrawdown : number;
  bestTrade : number;
  worstTrade : number;
  averageHoldingTimeMs : number
}.

(** The private fields of [class PnLTracker]. *)
Record PnLTracker : Type := {
  trades : list TradeResult;
  runningPnL : Q;
  peakPnL : Q;
  maxDrawdown : Q
}.

(** [new PnLTracker()]. *)
Definition newTracker : PnLTracker :=
  {| trades := []; runningPnL := 0; peakPnL := 0; maxDrawdown := 0 |}.

(** [recordTrade(result)]: push, add to the running sum, then track the
    peak and the largest peak-to-current distance. *)
Definition recordTrade (result : TradeResult) (t : PnLTracker) : PnLTracker :=
  let running := runningPnL t + pnl result in
  let peak := if gtb running (peakPnL t) then running else peakPnL t in
  let currentDrawdown := peak - running in
  let mdd := if gtb currentDrawdown (maxDrawdown t)
             then currentDrawdown else maxDrawdown t in
  {| trades := trades t ++ [result];
     runningPnL := running;
     peakPnL := peak;
     maxDrawdown := mdd |}.

(** Recording a sequence of results, oldest first. *)
Definition recordAll (rs : list TradeResult) (t : PnLTracker) : PnLTracker :=
  fold_left (fun acc r => recordTrade r acc) rs t.

Definition zeroStats : TradingStats :=
  {| totalTrades := 0; winningTrades := 0; losingTrades := 0;
     winRate := Fin 0; totalPnL := Fin 0; averagePnL := Fin 0;
     averageWin := Fin 0; averageLoss := Fin 0; profitFactor := Fin 0;
     statsMaxDrawdown := Fin 0; bestTrade := Fin 0; worstTrade := Fin 0;
     averageHoldingTimeMs := Fin 0 |}.

(** The statements of [getStats] after its emptiness guard. *)
Definition statsBody (t : PnLTracker) : TradingStats :=
  let winning := List.filter (fun r => gtb (pnl r) 0) (trades t) in
  let losing := List.filter (fun r => leb (pnl r) 0) (trades t) in
  let totalWins := sumQ (map pnl winning) in
  let totalLosses := Qabs (sumQ (map pnl losing)) in
  let pnls := map pnl (trades t) in
  let holdingTimes := map holdingTimeMs (trades t) in
  {| totalTrades := length (trades t);
     winningTrades := length winning;
     losingTrades := length losing;
     winRate := scale (div (ofNat (length winning)) (ofNat (length (trades t)))) 100;
     totalPnL := Fin (runningPnL t);
     averagePnL := div (runningPnL t) (ofNat (length (trades t)));
     averageWin := if (0 <? length winning)%nat
                   then div totalWins (ofNat (length winning)) else Fin 0;
     averageLoss := if (0 <? length losing)%nat
                    then div totalLosses (ofNat (length losing)) else Fin 0;
     profitFactor := if gtb totalLosses 0 then div totalWins totalLosses
                     else if gtb totalWins 0 then PosInf else Fin 0;
     statsMaxDrawdown := Fin (maxDrawdown t);
     bestTrade := mathMax pnls;
     worstTrade := mathMin pnls;
     averageHoldingTimeMs :=
       div (inject_Z (sumZ holdingTimes)) (ofNat (length holdingTimes)) |}.

(** [getStats()]. *)
Definition getStats (t : PnLTracker) : TradingStats :=
  if (length (trades t) =? 0)%nat then zeroStats else statsBody t.

(** No field of a statistics record that is computed by a division is
    [NaN]. *)
Definition noNaN (s : TradingStats) : Prop :=
  isNaN (winRate s) = false /\ isNaN (averagePnL s) = false /\
  isNaN (averageWin s) = false /\ isNaN (averageLoss s) = false /\
  isNaN (profitFactor s) = false /\ isNaN (averageHoldingTimeMs s) = false.

Definition getTotalPnL (t : PnLTracker) : Q := runningPnL t.
Definition getTradeCount (t : PnLTracker) : nat := length (trades t).

(** What [recordTrade] keeps true of the three running numbers. *)
Definition ledgerOk (t : PnLTracker) : Prop :=
  runningPnL t <= peakPnL t /\ 0 <= peakPnL t /\ 0 <= maxDrawdown t /\
  peakPnL t - runningPnL t <= maxDrawdown t.

(** [getRecentTrades(count = 10)]: [this.trades.slice(-count)]. *)
Definition getRecentTrades (count : Z) (t : PnLTracker) : list TradeResult :=
  slice (- count) (trades t).

(** A closed trade of one share bought at 0.5 with the given P&L, for examples. *)
Definition sampleResult (p : Q) : TradeResult :=
  {| tradeId := "trade_1"; tokenType := "UP"; entryPrice := 0.5;
     exitPrice := 0.5 + p; shares := 1; pnl := p; pnlPercent := p / 0.5 * 100;
     exitReason := if gtb p 0 then take_profit else stop_loss;
     entryTime := 0; exitTime := 1000; holdingTimeMs := 1000 |}.

End PnL.

(* ===================================================================== *)
(** ** Effects: state passing with exceptions *)
(* ===================================================================== *)

Module Eff.

(** An [async] method that reads and writes the fields of its object and
    may reject: a state transformer that returns the thrown value ([inl])
    or the result ([inr]). *)
Definition M (St E A : Type) : Type := St -> (E + A) * St.

Definition ret {St E A} (a : A) : M St E A := fun s => (inr a, s).

Definition bind {St E A B} (m : M St E A) (k : A -> M St E B) : M St E B :=
  fun s =>
    match m s with
    | (inl e, s') => (inl e, s')
    | (inr a, s') => k a s'
    end.

Definition throw {St E A} (e : E) : M St E A := fun s => (inl e, s).

(** [try { m } catch (e) { h e }]. *)
Definition tryCatch {St E A} (m : M St E A) (h : E -> M St E A) : M St E A :=
  fun s =>
    match m s with
    | (inl e, s') => h e s'
    | (inr a, s') => (inr a, s')
    end.

Definition gets {St E A} (f : St -> A) : M St E A := fun s => (inr (f s), s).

Definition modify {St E} (f : St -> St) : M St E unit := fun s => (inr tt, f s).

End Eff.

Declare Scope eff_scope.
Delimit Scope eff_scope with eff.
Notation "'let!' x ':=' m 'in' k" := (Eff.bind m (fun x => k))
  (at level 10, x name, m at level 100, k at level 200) : eff_scope.
Notation "'do!' m 'in' k" := (Eff.bind m (fun _ => k))
  (at level 10, m at level 100, k at level 200) : eff_scope.

(* ===================================================================== *)
(** ** RateLimiter ([src/utils/rate_limiter.ts]) *)
(* ===================================================================== *)

Module RateLimiter.

Local Open Scope Z_scope.

Record RateLimiterConfig : Type := {
  maxRetries : Z;
  baseDelayMs : Z;
  maxDelayMs : Z
}.

Definition DEFAULT_CONFIG : RateLimiterConfig :=
  {| maxRetries := 4; baseDelayMs := 1000; maxDelayMs := 16000 |}.

(** A thrown [Error]; [message] may be undefined. *)
Record Error : Type := { message : option string }.

(** [hay.includes(needle)]. *)
Fixpoint includes (needle hay : string) : bool :=
  String.prefix needle hay ||
  match hay with
  | EmptyString => false
  | String _ rest => includes needle rest
  end.

(** [error.message?.includes(needle)], read as a condition. *)
Definition messageIncludes (needle : string) (e : Error) : bool :=
  match message e with
  | Some m => includes needle m
  | None => false
  end.

Definition isRateLimit (e : Error) : bool :=
  messageIncludes "429" e ||
  messageIncludes "rate limit" e ||
  messageIncludes "too many requests" e.

(** What a run of the limiter does, in order: every [sleep], every call of
    the thunk with its outcome ([None]: resolved, [Some e]: rejected with
    [e]), and the console lines of the retry loop. *)
Inductive Event : Type :=
| EvSleep (ms : Z)
| EvAttempt (operationName : string) (outcome : option Error)
| EvWarnRetry (operationName : string) (attempt : Z) (delay : Z)
| EvErrorRateLimited (operationName : string).

(** The world a thunk runs in: the clock read by [Date.now()] and the state
    [S] of whatever the thunk talks to. *)
Record World (S : Type) : Type := mkWorld { now : Z; remote : S }.
Arguments mkWorld {S}.
Arguments now {S}.
Arguments remote {S}.

(** [fn: () => Promise<T>]. *)
Definition Thunk (S T : Type) : Type := World S -> (Error + T) * World S.

(** The mutable part of a [RateLimiter] together with the world. *)
Record State (S : Type) : Type := mkState {
  world : World S;
  lastCallTime : gmap string Z;
  trace : list Event
}.
Arguments mkState {S}.
Arguments world {S}.
Arguments lastCallTime {S}.
Arguments trace {S}.

Section Limiter.

Context {S : Type}.
Variable minIntervalMs : Z.
Variable config : RateLimiterConfig.

Definition emit (ev : Event) (st : State S) : State S :=
  mkState (world st) (lastCallTime st) (trace st ++ [ev]).

(** [sleep(ms)]: the timer fires after [ms] milliseconds (at once for a
    delay that is not positive). *)
Definition sleep (ms : Z) (st : State S) : State S :=
  emit (EvSleep ms)
    (mkState (mkWorld (now (world st) + Z.max 0 ms) (remote (world st)))
             (lastCallTime st) (trace st)).

(** [waitForSlot(key)]. *)
Definition waitForSlot (key : string) (st : State S) : State S :=
  let lastCall := default 0 (lastCallTime st !! key) in
  let elapsed := now (world st) - lastCall in
  let st1 := if elapsed <? minIntervalMs
             then sleep (minIntervalMs - elapsed) st else st in
  mkState (world st1) (<[key := now (world st1)]> (lastCallTime st1)) (trace st1).

(** The delay computed after a failed attempt. *)
Definition backoffDelay (attempt : Z) : Z :=
  Z.min (baseDelayMs config * 2 ^ attempt) (maxDelayMs config).

Definition exhaustedError (operationName : string) : Error :=
  {| message := Some (operationName +:+ " failed after "
                      +:+ pretty (maxRetries config + 1) +:+ " attempts") |}.

(** The [for] loop of [executeWithRetry] with [n] iterations left, that
    is [attempt + n = maxRetries + 1], followed by the final [throw]. *)
Fixpoint retryLoop {T : Type} (fn : Thunk S T) (operationName : string)
    (n : nat) (attempt : Z) (lastError : option Error) (st : State S)
    : (Error + T) * State S :=
  match n with
  | O => (inl (default (exhaustedError operationName) lastError), st)
  | Datatypes.S n' =>
      let st1 := waitForSlot operationName st in
      match fn (world st1) with
      | (inr v, w) =>
          (inr v, emit (EvAttempt operationName None)
                    (mkState w (lastCallTime st1) (trace st1)))
      | (inl error, w) =>
          let st2 := emit (EvAttempt operationName (Some error))
                       (mkState w (lastCallTime st1) (trace st1)) in
          let st3 :=
            if attempt <? maxRetries config then
              let delay := backoffDelay attempt in
              sleep delay (emit (EvWarnRetry operationName attempt delay) st2)
            else if isRateLimit error then
              emit (EvErrorRateLimited operationName) st2
            else st2 in
          retryLoop fn operationName n' (attempt + 1) (Some error) st3
      end
  end.

(** [executeWithRetry(fn, operationName)]. *)
Definition executeWithRetry {T : Type} (fn : Thunk S T) (operationName : string)
    : Eff.M (State S) Error T :=
  retryLoop fn operationName (Z.to_nat (maxRetries config + 1)) 0 None.

End Limiter.

(** Reading a trace. *)
Definition backoffDelays (tr : list Event) : list Z :=
  flat_map (fun ev => match ev with EvWarnRetry _ _ d => [d] | _ => [] end) tr.

Definition sleeps (tr : list Event) : list Z :=
  flat_map (fun ev => match ev with EvSleep d => [d] | _ => [] end) tr.

Definition attempts (tr : list Event) : list (option Error) :=
  flat_map (fun ev => match ev with EvAttempt _ o => [o] | _ => [] end) tr.

(** The attempt numbers [a, a+1, ..., a+k-1]. *)
Definition attemptsFrom (a : Z) (k : nat) : list Z :=
  map (fun i => a + Z.of_nat i) (seq 0 k).

(** The delays slept right after a retry warning. *)
Fixpoint backoffSleeps (tr : list Event) : list Z :=
  match tr with
  | [] => []
  | EvWarnRetry _ _ _ :: rest =>
      match rest with
      | EvSleep d :: _ => d :: backoffSleeps rest
      | _ => backoffSleeps rest
      end
  | _ :: rest => backoffSleeps rest
  end.

(** What a run of the retry loop with [n] iterations left, started at
    attempt number [attempt], adds to the trace, by its outcome [res]: the
    failed calls [errs] in order, then the resolved call if any; one delay
    per failure that a retry follows; the rejection is the last failure. *)
Definition loopShape {T : Type} (config : RateLimiterConfig) (operationName : string)
    (n : nat) (attempt : Z) (lastError : option Error)
    (res : Error + T) (evs : list Event) : Prop :=
  exists errs : list Error,
    match res with
    | inr _ =>
        attempts evs = map Some errs ++ [None] /\
        (length errs < n)%nat /\
        backoffDelays evs = map (backoffDelay config) (attemptsFrom attempt (length errs)) /\
        backoffSleeps evs = map (backoffDelay config) (attemptsFrom attempt (length errs))
    | inl e =>
        attempts evs = map Some errs /\
        length errs = n /\
        e = default (default (exhaustedError config operationName) lastError)
                    (last errs) /\
        backoffDelays evs = map (backoffDelay config) (attemptsFrom attempt (n - 1)) /\
        backoffSleeps evs = map (backoffDelay config) (attemptsFrom attempt (n - 1))
    end.

(** The thunk of the retry scenario: it counts its calls in the remote
    state, rejects the first [k] of them and resolves with the call count
    afterwards. *)
Definition failingThunk (k : nat) : Thunk nat nat :=
  fun w =>
    let calls := Datatypes.S (remote w) in
    if (calls <=? k)%nat
    then (inl {| message := Some "temporarily unavailable" |}, mkWorld (now w) calls)
    else (inr calls, mkWorld (now w) calls).

Definition initialState {S : Type} (t0 : Z) (r : S) : State S :=
  mkState (mkWorld t0 r) ∅ [].

(** A thunk that notes the value of [Date.now()] at each of its calls in a
    log kept beside the state of what it talks to. *)
Definition stamped {S T : Type} (fn : Thunk S T) : Thunk (list Z * S) T :=
  fun w =>
    let '(r, w') := fn (mkWorld (now w) (snd (remote w))) in
    (r, mkWorld (now w') (fst (remote w) ++ [now w], remote w')).

(** Times that follow [prev] and each other at a distance of at least [gap]. *)
Fixpoint spacedFrom (gap prev : Z) (ts : list Z) : Prop :=
  match ts with
  | [] => True
  | t :: rest => gap <= t - prev /\ spacedFrom gap t rest
  end.

End RateLimiter.

(* ===================================================================== *)
(** ** BitcoinOracle ([src/oracle/bitcoin_oracle.ts]) *)
(* ===================================================================== *)

Module BitcoinOracle.

Import Num.
Local Open Scope Q_scope.

Record PricePoint : Type := {
  price : Q;
  timestamp : Z;
  source : string
}.

Record OracleData : Type := {
  odCurrentPrice : Q;
  priceChange1m : Q;
  priceChange5m : Q;
  priceChange15m : Q;
  momentum : Q;
  volatility : Q;
  probUp : Q;
  probDown : Q;
  confidence : Q;
  odTimestamp : Z;
  sources : list string
}.

(** The fields of [class BitcoinOracle].  [activeSources] is a [Set]: a
    list without duplicates, in insertion order. *)
Record Oracle : Type := {
  priceHistory : list PricePoint;
  currentPrice : Q;
  isRunning : bool;
  momentumWindow : Z;
  volatilityWindow : Z;
  exchanges : list string;
  activeSources : list string
}.

(** [private maxHistorySize: number = 1000], never assigned again. *)
Definition maxHistorySize : nat := 1000.

(** [new BitcoinOracle(config)], before [start()]: a window of 0 is
    replaced by its default ([config.momentumWindow || 60],
    [config.volatilityWindow || 300]). *)
Definition newOracle (momentumWindow volatilityWindow : Z) : Oracle :=
  {| priceHistory := [];
     currentPrice := 0;
     isRunning := false;
     momentumWindow := if (momentumWindow =? 0)%Z then 60%Z else momentumWindow;
     volatilityWindow := if (volatilityWindow =? 0)%Z then 300%Z else volatilityWindow;
     exchanges := ["binance"; "coinbase"; "kraken"];
     activeSources := [] |}.

Definition setAdd (x : string) (s : list string) : list string :=
  if bool_decide (x ∈ s) then s else s ++ [x].

Definition setDelete (x : string) (s : list string) : list string :=
  List.filter (fun y => negb (bool_decide (y = x))) s.

(** One exchange callback of [fetchPrices].  [answer] is what the request
    and the parser produced: [None] when the request, the status check or
    the JSON decoding failed or the parsed value is not a number. *)
Definition fetchOne (answer : string -> option Q) (name : string)
    (active : list string) : option (Q * string) * list string :=
  match answer name with
  | Some p =>
      if gtb p 0 then (Some (p, name), setAdd name active)
      else (None, setDelete name active)
  | None => (None, setDelete name active)
  end.

(** The callbacks of all exchanges, in the order of [exchanges].  The
    requests run concurrently; the order in which they complete only decides
    the insertion order of [activeSources], the results are collected in the
    order of [exchanges]. *)
Fixpoint fetchAll (answer : string -> option Q) (names : list string)
    (active : list string) : list (option (Q * string)) * list string :=
  match names with
  | [] => ([], active)
  | name :: rest =>
      let '(r, active1) := fetchOne answer name active in
      let '(rs, active2) := fetchAll answer rest active1 in
      (r :: rs, active2)
  end.

(** The successful results, as price points of the cycle. *)
Definition collect (ts : Z) (results : list (option (Q * string))) : list PricePoint :=
  flat_map (fun r => match r with
                     | Some (p, name) => [{| price := p; timestamp := ts; source := name |}]
                     | None => []
                     end) results.

(** [xs.sort((a, b) => a - b)]: a stable ascending sort. *)
Fixpoint insertSorted (x : Q) (xs : list Q) : list Q :=
  match xs with
  | [] => [x]
  | y :: ys => if gtb y x then x :: y :: ys else y :: insertSorted x ys
  end.

Definition sortAsc (xs : list Q) : list Q :=
  fold_left (fun acc x => insertSorted x acc) xs [].

(** [sortedPrices[Math.floor(sortedPrices.length / 2)]]. *)
Definition medianOf (prices : list Q) : Q :=
  let sortedPrices := sortAsc prices in
  nth (length sortedPrices / 2) sortedPrices 0.

(** [xs.slice(-n)]: the last [n] elements. *)
Definition sliceLast {A} (n : nat) (xs : list A) : list A :=
  skipn (length xs - n) xs.

(** [fetchPrices()], with [ts] the value of [Date.now()] at its start. *)
Definition fetchPrices (answer : string -> option Q) (ts : Z) (o : Oracle) : Oracle :=
  let '(results, active) := fetchAll answer (exchanges o) (activeSources o) in
  let prices := collect ts results in
  let o1 := {| priceHistory := priceHistory o;
               currentPrice := currentPrice o;
               isRunning := isRunning o;
               momentumWindow := momentumWindow o;
               volatilityWindow := volatilityWindow o;
               exchanges := exchanges o;
               activeSources := active |} in
  if (length prices =? 0)%nat then o1
  else
    let medianPrice := medianOf (map price prices) in
    let history := priceHistory o ++
                   [{| price := medianPrice; timestamp := ts; source := "median" |}] in
    {| priceHistory := if (maxHistorySize <? length history)%nat
                       then sliceLast maxHistorySize history else history;
       currentPrice := medianPrice;
       isRunning := isRunning o;
       momentumWindow := momentumWindow o;
       volatilityWindow := volatilityWindow o;
       exchanges := exchanges o;
       activeSources := active |}.

(** [getPriceAtTime(targetTime)]: the first point at the least distance. *)
Definition closestPoint (history : list PricePoint) (targetTime : Z)
    : option (PricePoint * Z) :=
  fold_left (fun acc point =>
               let diff := Z.abs (timestamp point - targetTime) in
               match acc with
               | None => Some (point, diff)
               | Some (_, minDiff) =>
                   if (diff <? minDiff)%Z then Some (point, diff) else acc
               end) history None.

Definition getPriceAtTime (o : Oracle) (targetTime : Z) : Q :=
  match closestPoint (priceHistory o) targetTime with
  | Some (closest, minDiff) => if (minDiff <? 30000)%Z then price closest else 0
  | None => 0
  end.

Definition recentPrices (o : Oracle) (now windowSeconds : Z) : list PricePoint :=
  let cutoff := (now - windowSeconds * 1000)%Z in
  List.filter (fun p => (cutoff <=? timestamp p)%Z) (priceHistory o).

Definition clamp (lo hi x : Q) : Q := Qmax lo (Qmin hi x).

(** The sums of the regression loop of [calculateMomentum]:
    [(sumX, sumY, sumXY, sumX2)] over the points from index [i] on. *)
Fixpoint regressionSums (i : nat) (pts : list PricePoint) (acc : Q * Q * Q * Q)
    : Q * Q * Q * Q :=
  match pts with
  | [] => acc
  | p :: rest =>
      let '(sumX, sumY, sumXY, sumX2) := acc in
      let x := ofNat i in
      let y := price p in
      regressionSums (Datatypes.S i) rest
        (sumX + x, sumY + y, sumXY + x * y, sumX2 + x * x)
  end.

Definition calculateMomentum (o : Oracle) (now : Z) : Q :=
  let recent := recentPrices o now (momentumWindow o) in
  if (length recent <? 2)%nat then 0
  else
    let n := ofNat (length recent) in
    let '(sumX, sumY, sumXY, sumX2) := regressionSums 0 recent (0, 0, 0, 0) in
    let slope := (n * sumXY - sumX * sumY) / (n * sumX2 - sumX * sumX) in
    let avgPrice := sumY / n in
    let momentumPerSec := (slope / avgPrice) * 1000 in
    Qmax (-1) (Qmin 1 (momentumPerSec * 100)).

(** The successive fractional returns of [calculateVolatility]. *)
Fixpoint returnsOf (pts : list PricePoint) : list Q :=
  match pts with
  | prev :: ((cur :: _) as rest) =>
      (price cur - price prev) / price prev :: returnsOf rest
  | _ => []
  end.

Record Probabilities : Type := {
  pUp : Q;
  pDown : Q;
  pConfidence : Q
}.

(** [calculateProbabilities(momentum, volatility)]. *)
Definition calculateProbabilities (o : Oracle) (momentum volatility : Q)
    : Probabilities :=
  let momentumFactor := (momentum + 1) / 2 in
  let volatilityFactor := Qmax 0 (1 - volatility / 10) in
  let probUp0 := 0.5 + (momentumFactor - 0.5) * volatilityFactor in
  let probUp1 := if gtb probUp0 0.8 then 0.8 + (probUp0 - 0.8) * 0.5 else probUp0 in
  let probUp2 := if ltb probUp1 0.2 then 0.2 - (0.2 - probUp1) * 0.5 else probUp1 in
  let probUp := Qmax 0.05 (Qmin 0.95 probUp2) in
  let probDown := 1 - probUp in
  let dataPoints := ofNat (length (priceHistory o)) in
  let dataConfidence := Qmin (dataPoints / 60) 1 in
  let sourceConfidence := Qmin (ofNat (length (activeSources o)) / 2) 1 in
  let volatilityConfidence := Qmax 0.3 (1 - volatility / 20) in
  {| pUp := probUp;
     pDown := probDown;
     pConfidence := dataConfidence * sourceConfidence * volatilityConfidence |}.

(** [getDefaultData()]. *)
Definition getDefaultData (o : Oracle) (now : Z) : OracleData :=
  {| odCurrentPrice := currentPrice o;
     priceChange1m := 0; priceChange5m := 0; priceChange15m := 0;
     momentum := 0; volatility := 0;
     probUp := 0.5; probDown := 0.5; confidence := 0;
     odTimestamp := now;
     sources := [] |}.

Section Snapshot.

(** [Math.sqrt] on the finite numbers: any function may stand for it,
    nothing below depends on its values. *)
Variable sqrt : Q -> Q.

Definition calculateVolatility (o : Oracle) (now : Z) : Q :=
  let recent := recentPrices o now (volatilityWindow o) in
  if (length recent <? 2)%nat then 0
  else
    let returns := returnsOf recent in
    let mean := sumQ returns / ofNat (length returns) in
    let variance :=
      fold_left (fun sum r => sum + (r - mean) ^ 2) returns 0
      / ofNat (length returns) in
    let stdDev := sqrt variance in
    stdDev * sqrt 3600 * 100.

Definition priceChange (current past : Q) : Q :=
  if gtb past 0 then (current - past) / past else 0.

(** [getOracleData()], with [now] the value of [Date.now()]. *)
Definition getOracleData (o : Oracle) (now : Z) : OracleData :=
  if (length (priceHistory o) <? 2)%nat then getDefaultData o now
  else
    let current := currentPrice o in
    let price1mAgo := getPriceAtTime o (now - 60000) in
    let price5mAgo := getPriceAtTime o (now - 300000) in
    let price15mAgo := getPriceAtTime o (now - 900000) in
    let momentum := calculateMomentum o now in
    let volatility := calculateVolatility o now in
    let p := calculateProbabilities o momentum volatility in
    {| odCurrentPrice := current;
       priceChange1m := priceChange current price1mAgo;
       priceChange5m := priceChange current price5mAgo;
       priceChange15m := priceChange current price15mAgo;
       momentum := momentum;
       volatility := volatility;
       probUp := pUp p;
       probDown := pDown p;
       confidence := pConfidence p;
       odTimestamp := now;
       sources := activeSources o |}.

End Snapshot.

(** [isHealthy()]. *)
Definition isHealthy (o : Oracle) (now : Z) : bool :=
  isRunning o &&
  (0 <? length (activeSources o))%nat &&
  (10 <? length (priceHistory o))%nat &&
  match last (priceHistory o) with
  | Some p => (now - timestamp p <? 5000)%Z
  | None => false
  end.

(** The histories that [fetchPrices] builds hold positive prices only. *)
Definition historyPositive (o : Oracle) : Prop :=
  Forall (fun p => 0 < price p) (priceHistory o).

(** The prices of the sources that answered with a positive number, in the
    order of the exchanges. *)
Definition successfulPrices (answer : string -> option Q) (names : list string)
    : list Q :=
  flat_map (fun name => match answer name with
                        | Some p => if gtb p 0 then [p] else []
                        | None => []
                        end) names.

(** The answers of the outlier scenario. *)
Definition outlierAnswers (name : string) : option Q :=
  if String.eqb name "binance" then Some 1000000
  else if String.eqb name "coinbase" then Some 100
  else if String.eqb name "kraken" then Some 101
  else None.

(** The median of a list of prices, as the word is commonly read: the
    middle value of the sorted prices, and the mean of the two middle
    values when their number is even. *)
Definition median (xs : list Q) : Q :=
  let sorted := sortAsc xs in
  let n := length sorted in
  if Nat.even n
  then (nth (n / 2 - 1) sorted 0 + nth (n / 2) sorted 0) / 2
  else nth (n / 2) sorted 0.

(** The answers of a cycle in which two sources succeed. *)
Definition evenAnswers (name : string) : option Q :=
  if String.eqb name "binance" then Some 102
  else if String.eqb name "coinbase" then Some 100
  else None.

(** Fetch cycles that run one after another, each with the answers of the
    exchanges and the time at which it starts. *)
Definition fetchCycles (cycles : list ((string -> option Q) * Z)) (o : Oracle) : Oracle :=
  fold_left (fun o c => fetchPrices (fst c) (snd c) o) cycles o.

(** What the history of an oracle looks like between two cycles. *)
Definition historyOk (o : Oracle) : Prop :=
  Forall (fun p => 0 < price p /\ source p = "median") (priceHistory o) /\
  (length (priceHistory o) <= maxHistorySize)%nat /\
  match last (priceHistory o) with
  | Some p => currentPrice o = price p
  | None => currentPrice o = 0
  end.

End BitcoinOracle.

(* ===================================================================== *)
(** ** OrderBookTracker ([src/utils/order_book.ts]) *)
(* ===================================================================== *)

Module OrderBook.

Import Num.
Local Open Scope Q_scope.

Record OrderLevel : Type := {
  price : Q;
  size : Q
}.

Record OrderBookData : Type := {
  tokenId : string;
  bids : list OrderLevel;
  asks : list OrderLevel;
  lastUpdate : Z;
  midPrice : Q;
  spread : Q;
  spreadPercent : Q
}.

Inductive Side : Type := BUY | SELL.

(** The warnings of [checkLiquidity], with the numbers that the source
    formats into their text. *)
Inductive Warning : Type :=
| NoOrderBook
| StaleData (ageMs : Z)
| HighSpread (spreadPercent maxSpreadPercent : Q)
| NoLevels (side : Side)
| LowLiquidity (available required : Q)
| CannotFill (remaining : Q)
| HighSlippage (slippage : Q).

Record LiquidityCheck : Type := {
  sufficient : bool;
  availableLiquidity : Q;
  requiredLiquidity : Q;
  estimatedSlippage : Q;
  effectivePrice : Q;
  warnings : list Warning
}.

(** The fields of [class OrderBookTracker]. *)
Record OrderBookTracker : Type := {
  orderBooks : gmap string OrderBookData;
  maxStaleMs : Z;
  minLiquidityMultiplier : Q;
  maxSpreadPercent : Q
}.

Definition newTracker (maxStaleMs : Z) (minLiquidityMultiplier maxSpreadPercent : Q)
    : OrderBookTracker :=
  {| orderBooks := ∅;
     maxStaleMs := maxStaleMs;
     minLiquidityMultiplier := minLiquidityMultiplier;
     maxSpreadPercent := maxSpreadPercent |}.

Definition bestPriceOf (levels : list OrderLevel) : Q :=
  match levels with
  | [] => 0
  | l :: _ => price l
  end.

(** [updateOrderBook(tokenId, bids, asks)], at time [now]. *)
Definition updateOrderBook (id : string) (bids asks : list OrderLevel) (now : Z)
    (t : OrderBookTracker) : OrderBookTracker :=
  let bestBid := bestPriceOf bids in
  let bestAsk := bestPriceOf asks in
  let midPrice := if gtb bestBid 0 && gtb bestAsk 0 then (bestBid + bestAsk) / 2 else 0 in
  let spread := bestAsk - bestBid in
  let spreadPercent := if gtb midPrice 0 then (spread / midPrice) * 100 else 0 in
  {| orderBooks :=
       <[id := {| tokenId := id; bids := bids; asks := asks; lastUpdate := now;
                  midPrice := midPrice; spread := spread;
                  spreadPercent := spreadPercent |}]> (orderBooks t);
     maxStaleMs := maxStaleMs t;
     minLiquidityMultiplier := minLiquidityMultiplier t;
     maxSpreadPercent := maxSpreadPercent t |}.

Definition getOrderBook (id : string) (t : OrderBookTracker) : option OrderBookData :=
  orderBooks t !! id.

(** [book?.midPrice || 0]. *)
Definition getMidPrice (id : string) (t : OrderBookTracker) : Q :=
  match orderBooks t !! id with
  | Some book => midPrice book
  | None => 0
  end.

Definition getSpread (id : string) (t : OrderBookTracker) : Q * Q :=
  match orderBooks t !! id with
  | Some book => (spread book, spreadPercent book)
  | None => (0, 0)
  end.

Definition isStale (id : string) (now : Z) (t : OrderBookTracker) : bool :=
  match orderBooks t !! id with
  | None => true
  | Some book => (maxStaleMs t <? now - lastUpdate book)%Z
  end.

(** The three accumulators of the level loop of [checkLiquidity]. *)
Record Walk : Type := {
  totalLiquidity : Q;
  weightedPriceSum : Q;
  remainingAmount : Q
}.

Definition walkLevel (w : Walk) (level : OrderLevel) : Walk :=
  let levelValue := price level * size level in
  let total := totalLiquidity w + levelValue in
  if gtb (remainingAmount w) 0 then
    let fillAmount := Qmin (remainingAmount w) levelValue in
    {| totalLiquidity := total;
       weightedPriceSum := weightedPriceSum w + price level * fillAmount;
       remainingAmount := remainingAmount w - fillAmount |}
  else
    {| totalLiquidity := total;
       weightedPriceSum := weightedPriceSum w;
       remainingAmount := remainingAmount w |}.

Definition walkLevels (levels : list OrderLevel) (amount : Q) : Walk :=
  fold_left walkLevel levels
    {| totalLiquidity := 0; weightedPriceSum := 0; remainingAmount := amount |}.

Definition when {A} (b : bool) (x : A) : list A := if b then [x] else [].

(** [checkLiquidity(tokenId, side, amount)], at time [now].  For a positive
    amount of which nothing can be filled (every level of the side is worth
    0) the source divides 0 by 0 for the effective price; the quotient is 0
    here.  The check is not [sufficient] then, and nothing below is about
    the effective price or the slippage of such a check. *)
Definition checkLiquidity (id : string) (side : Side) (amount : Q) (now : Z)
    (t : OrderBookTracker) : LiquidityCheck :=
  match orderBooks t !! id with
  | None =>
      {| sufficient := false; availableLiquidity := 0; requiredLiquidity := amount;
         estimatedSlippage := 1; effectivePrice := 0; warnings := [NoOrderBook] |}
  | Some book =>
      let warnings0 :=
        when (isStale id now t) (StaleData (now - lastUpdate book))
        ++ when (gtb (spreadPercent book) (maxSpreadPercent t))
                (HighSpread (spreadPercent book) (maxSpreadPercent t)) in
      let levels := match side with BUY => asks book | SELL => bids book end in
      match levels with
      | [] =>
          {| sufficient := false; availableLiquidity := 0; requiredLiquidity := amount;
             estimatedSlippage := 1; effectivePrice := 0;
             warnings := warnings0 ++ [NoLevels side] |}
      | first :: _ =>
          let w := walkLevels levels amount in
          let effectivePrice :=
            if gtb amount 0
            then weightedPriceSum w / (amount - Qmax 0 (remainingAmount w))
            else price first in
          let bestPrice := price first in
          let estimatedSlippage :=
            if gtb bestPrice 0 then Qabs (effectivePrice - bestPrice) / bestPrice else 0 in
          let requiredLiquidity := amount * minLiquidityMultiplier t in
          let sufficient :=
            geb (totalLiquidity w) requiredLiquidity && leb (remainingAmount w) 0 in
          let warnings1 :=
            if sufficient then []
            else when (ltb (totalLiquidity w) requiredLiquidity)
                      (LowLiquidity (totalLiquidity w) requiredLiquidity)
                 ++ when (gtb (remainingAmount w) 0) (CannotFill (remainingAmount w)) in
          {| sufficient := sufficient;
             availableLiquidity := totalLiquidity w;
             requiredLiquidity := requiredLiquidity;
             estimatedSlippage := estimatedSlippage;
             effectivePrice := effectivePrice;
             warnings := warnings0 ++ warnings1
                         ++ when (gtb estimatedSlippage 0.01)
                                 (HighSlippage estimatedSlippage) |}
      end
  end.

(** The accumulators of the level loop of [calculateOptimalSize]; [stopped]
    is set by [break]. *)
Record Optimal : Type := {
  optimalAmount : Q;
  optimalWeightedSum : Q;
  stopped : bool
}.

Definition optimalLevel (bestPrice maxAmount maxSlippage : Q) (acc : Optimal)
    (level : OrderLevel) : Optimal :=
  if stopped acc then acc
  else
    let levelValue := price level * size level in
    let newAmount := optimalAmount acc + levelValue in
    let newWeightedSum := optimalWeightedSum acc + price level * levelValue in
    let newEffectivePrice := div newWeightedSum newAmount in
    let slippage := divq (abs (subq newEffectivePrice bestPrice)) bestPrice in
    if gtq slippage maxSlippage || gtb newAmount maxAmount
    then {| optimalAmount := optimalAmount acc;
            optimalWeightedSum := optimalWeightedSum acc;
            stopped := true |}
    else {| optimalAmount := newAmount;
            optimalWeightedSum := newWeightedSum;
            stopped := false |}.

(** [calculateOptimalSize(tokenId, side, maxAmount, maxSlippage = 0.01)]. *)
Definition calculateOptimalSize (id : string) (side : Side) (maxAmount maxSlippage : Q)
    (t : OrderBookTracker) : Q :=
  match orderBooks t !! id with
  | None => 0
  | Some book =>
      let levels := match side with BUY => asks book | SELL => bids book end in
      match levels with
      | [] => 0
      | first :: _ =>
          let acc := fold_left (optimalLevel (price first) maxAmount maxSlippage) levels
                       {| optimalAmount := 0; optimalWeightedSum := 0;
                          stopped := false |} in
          Qmin (optimalAmount acc) maxAmount
      end
  end.

(** The notional value resting on one side of the book. *)
Definition walkable (levels : list OrderLevel) : Q :=
  sumQ (map (fun l => price l * size l) levels).

(** Levels as the depth feed delivers them: a positive price and a size
    that is not negative. *)
Definition wellFormed (levels : list OrderLevel) : Prop :=
  Forall (fun l => 0 < price l /\ 0 <= size l) levels.

End OrderBook.

(* ===================================================================== *)
(** ** The collaborators of the trading loops *)
(* ===================================================================== *)

Module Venue.

Import RateLimiter.

(** [BalanceInfo] of the balance checker; the loops read [usdc] only. *)
Record BalanceInfo : Type := {
  usdc : Q;
  matic : Q
}.

Inductive Side : Type := BUY | SELL.

(** The order argument of [createAndPostOrder]; tick size, [negRisk] and
    the order type are the same constants at every call. *)
Record UserOrder : Type := {
  tokenID : string;
  price : Q;
  size : Q;
  side : Side
}.

(** The requests sent to the collaborators, in the order they are sent. *)
Inductive Call : Type :=
| CallBalances
| CallPost (order : UserOrder)
| CallOpenOrders
| CallCancel (orderID : string).

(** What the loops consume of the CLOB client and the balance checker:
    each method runs against a venue state [V] and the clock, and rejects
    or resolves. *)
Class Client (V : Type) : Type := {
  checkBalances : Thunk V BalanceInfo;
  createAndPostOrder : UserOrder -> Thunk V string;
  getOpenOrders : Thunk V (list string);
  cancelOrder : string -> Thunk V unit
}.

(** The venue together with the log of the requests sent to it. *)
Record Remote (V : Type) : Type := mkRemote {
  venue : V;
  outbound : list Call
}.
Arguments mkRemote {V}.
Arguments venue {V}.
Arguments outbound {V}.

(** The arrow function handed to [executeWithRetry]: it sends [c] and
    lets the collaborator [m] answer. *)
Definition invoke {V T} (c : Call) (m : Thunk V T) : Thunk (Remote V) T :=
  fun w =>
    let '(r, w') := m (mkWorld (now w) (venue (remote w))) in
    (r, mkWorld (now w') (mkRemote (remote w') (outbound (remote w) ++ [c]))).

(** [() => this.client.createAndPostOrder(order, options, OrderType.GTC)]. *)
Definition postOrder {V} `{Client V} (order : UserOrder) : Thunk (Remote V) string :=
  invoke (CallPost order) (createAndPostOrder order).

Definition posts (calls : list Call) : list UserOrder :=
  flat_map (fun c => match c with CallPost o => [o] | _ => [] end) calls.

(** A venue for the scenarios: it holds fixed balances, accepts every order
    under a numbered id and reports no open order. *)
Record Paper : Type := {
  paperBalances : BalanceInfo;
  paperOrders : list UserOrder
}.

Definition paperClient : Client Paper :=
  {| checkBalances := fun w => (inr (paperBalances (remote w)), w);
     createAndPostOrder := fun order w =>
       (inr ("order-" +:+ pretty (length (paperOrders (remote w)))),
        mkWorld (now w)
          {| paperBalances := paperBalances (remote w);
             paperOrders := paperOrders (remote w) ++ [order] |});
     getOpenOrders := fun w => (inr [], w);
     cancelOrder := fun _ w => (inr tt, w) |}.

Definition paperWorld (t0 : Z) (usdc : Q) : State (Remote Paper) :=
  mkState (mkWorld t0 (mkRemote {| paperBalances := {| usdc := usdc; matic := 1 |};
                                   paperOrders := [] |} []))
          ∅ [].

Inductive TokenType : Type := TokenUP | TokenDOWN.

Definition tokenTypeName (t : TokenType) : string :=
  match t with TokenUP => "UP" | TokenDOWN => "DOWN" end.

(** [!tokenId] is false for a string that is neither null nor empty. *)
Definition truthy (tokenId : option string) : option string :=
  match tokenId with
  | Some "" => None
  | other => other
  end.

End Venue.

(* ===================================================================== *)
(** ** The first trading loop ([AutoTradingBot], cooldown/balance/edge) *)
(* ===================================================================== *)

Module BasicBot.

Import Num RateLimiter Venue.
Local Open Scope Q_scope.

Record PriceData : Type := {
  UP : Q;
  DOWN : Q
}.

Record Trade : Type := {
  tokenType : TokenType;
  tokenId : string;
  buyOrderId : string;
  takeProfitOrderId : string;
  stopLossOrderId : string;
  buyPrice : Q;
  targetPrice : Q;
  stopPrice : Q;
  amount : Q;
  timestamp : Z;
  status : string
}.

Record TradeOpportunity : Type := {
  oTokenType : TokenType;
  oTokenId : string;
  softwarePrice : Q;
  polymarketPrice : Q;
  difference : Q
}.

(** The trading parameters read from the environment by the constructor. *)
Record Config : Type := {
  priceThreshold : Q;
  stopLossAmount : Q;
  takeProfitAmount : Q;
  tradeCooldown : Z;
  tradeAmount : Q;
  minimumBalance : Q;
  apiMinIntervalMs : Z;
  apiConfig : RateLimiterConfig
}.

(** The defaults of the constructor. *)
Definition defaultConfig : Config :=
  {| priceThreshold := 0.015;
     stopLossAmount := 0.005;
     takeProfitAmount := 0.01;
     tradeCooldown := 30 * 1000;
     tradeAmount := 5;
     minimumBalance := 500;
     apiMinIntervalMs := 100;
     apiConfig := DEFAULT_CONFIG |}.

(** The mutable fields of the bot; [limiter] holds the rate limiter, the
    clock and the venue. *)
Record Bot (V : Type) : Type := mkBot {
  limiter : State (Remote V);
  tokenIdUp : option string;
  tokenIdDown : option string;
  softwarePrices : PriceData;
  polymarketPrices : gmap string Q;
  activeTrades : list Trade;
  lastTradeTime : Z
}.
Arguments mkBot {V}.
Arguments limiter {V}.
Arguments tokenIdUp {V}.
Arguments tokenIdDown {V}.
Arguments softwarePrices {V}.
Arguments polymarketPrices {V}.
Arguments activeTrades {V}.
Arguments lastTradeTime {V}.

(** The requests sent so far. *)
Definition outboundOf {V} (b : Bot V) : list Call :=
  outbound (remote (world (limiter b))).

Section Loop.

Context {V : Type} `{Client V}.
Variable cfg : Config.

Definition dateNow (b : Bot V) : Z := now (world (limiter b)).

(** [this.rateLimiter.executeWithRetry(fn, operationName)]. *)
Definition withRetry {T} (fn : Thunk (Remote V) T) (operationName : string)
    : Eff.M (Bot V) Error T :=
  fun b =>
    let '(r, l) := executeWithRetry (apiMinIntervalMs cfg) (apiConfig cfg)
                     fn operationName (limiter b) in
    (r, mkBot l (tokenIdUp b) (tokenIdDown b) (softwarePrices b)
          (polymarketPrices b) (activeTrades b) (lastTradeTime b)).

(** [await new Promise(resolve => setTimeout(resolve, ms))]. *)
Definition pause (ms : Z) : Eff.M (Bot V) Error unit :=
  fun b =>
    let l := limiter b in
    (inr tt,
     mkBot (mkState (mkWorld (now (world l) + Z.max 0 ms) (remote (world l)))
                    (lastCallTime l) (trace l))
           (tokenIdUp b) (tokenIdDown b) (softwarePrices b)
           (polymarketPrices b) (activeTrades b) (lastTradeTime b)).

(** One round of the [for (const tokenType of ['UP', 'DOWN'])] loop. *)
Definition candidate (b : Bot V) (tokenType : TokenType) : option TradeOpportunity :=
  let softwarePrice := match tokenType with
                       | TokenUP => UP (softwarePrices b)
                       | TokenDOWN => DOWN (softwarePrices b)
                       end in
  match truthy (match tokenType with
                | TokenUP => tokenIdUp b
                | TokenDOWN => tokenIdDown b
                end) with
  | None => None
  | Some tokenId =>
      let polyPrice := default 0 (polymarketPrices b !! tokenId) in
      let diff := softwarePrice - polyPrice in
      if geb diff (priceThreshold cfg) && gtb softwarePrice 0 && gtb polyPrice 0
      then Some {| oTokenType := tokenType; oTokenId := tokenId;
                   softwarePrice := softwarePrice; polymarketPrice := polyPrice;
                   difference := diff |}
      else None
  end.

Fixpoint scan (b : Bot V) (tokenTypes : list TokenType) : option TradeOpportunity :=
  match tokenTypes with
  | [] => None
  | tokenType :: rest =>
      match candidate b tokenType with
      | Some o => Some o
      | None => scan b rest
      end
  end.

(** [checkTradeOpportunity()]. *)
Definition checkTradeOpportunity : Eff.M (Bot V) Error (option TradeOpportunity) :=
  fun b =>
    let currentTime := dateNow b in
    let remainingCooldown := (tradeCooldown cfg - (currentTime - lastTradeTime b))%Z in
    if (0 <? remainingCooldown)%Z then (inr None, b)
    else
      (let! balances := withRetry (invoke CallBalances checkBalances) "balance-check" in
       if ltb (usdc balances) (minimumBalance cfg) then Eff.ret None
       else Eff.gets (fun b' => scan b' [TokenUP; TokenDOWN]))%eff b.

Definition setLastTradeTime : Eff.M (Bot V) Error unit :=
  Eff.modify (fun b => mkBot (limiter b) (tokenIdUp b) (tokenIdDown b)
                         (softwarePrices b) (polymarketPrices b)
                         (activeTrades b) (dateNow b)).

Definition pushTrade (t : Z -> Trade) : Eff.M (Bot V) Error unit :=
  Eff.modify (fun b => mkBot (limiter b) (tokenIdUp b) (tokenIdDown b)
                         (softwarePrices b) (polymarketPrices b)
                         (activeTrades b ++ [t (dateNow b)]) (lastTradeTime b)).

(** [executeTrade(opportunity)]; a rejection inside the [try] block is
    logged and swallowed. *)
Definition executeTrade (opportunity : TradeOpportunity) : Eff.M (Bot V) Error unit :=
  (do! setLastTradeTime in
   Eff.tryCatch
     (let buyPrice := polymarketPrice opportunity in
      let shares := tradeAmount cfg / buyPrice in
      let! buyResult :=
        withRetry (postOrder {| tokenID := oTokenId opportunity;
                                price := buyPrice * 1.01;
                                size := shares; side := BUY |})
                  "buy-order" in
      let actualBuyPrice := buyPrice in
      let takeProfitPrice := Qmin (actualBuyPrice + takeProfitAmount cfg) 0.99 in
      let stopLossPrice := Qmax (actualBuyPrice - stopLossAmount cfg) 0.01 in
      do! pause 2000 in
      let! takeProfitResult :=
        withRetry (postOrder {| tokenID := oTokenId opportunity;
                                price := takeProfitPrice;
                                size := shares; side := SELL |})
                  "take-profit-order" in
      let! stopLossResult :=
        withRetry (postOrder {| tokenID := oTokenId opportunity;
                                price := stopLossPrice;
                                size := shares; side := SELL |})
                  "stop-loss-order" in
      pushTrade (fun createdAt =>
        {| tokenType := oTokenType opportunity;
           tokenId := oTokenId opportunity;
           buyOrderId := buyResult;
           takeProfitOrderId := takeProfitResult;
           stopLossOrderId := stopLossResult;
           buyPrice := actualBuyPrice;
           targetPrice := takeProfitPrice;
           stopPrice := stopLossPrice;
           amount := tradeAmount cfg;
           timestamp := createdAt;
           status := "active" |}))
     (fun _ => Eff.ret tt))%eff.

End Loop.

(** The state of the cooldown scenario: the last trade was placed at [t0],
    the clock reads [t0 + elapsed], the oracle says UP = 0.75 and the market
    0.70, on the paper venue with 1000 USDC. *)
Definition scenarioBot (t0 elapsed : Z) : Bot Paper :=
  mkBot (mkState (mkWorld (t0 + elapsed)
                    (mkRemote {| paperBalances := {| usdc := 1000; matic := 1 |};
                                 paperOrders := [] |} []))
                 {["balance-check" := t0]} [])
        (Some "up") (Some "down")
        {| UP := 0.75; DOWN := 0.25 |}
        {["up" := 0.7]}
        [] t0.

(** The opportunity of the end-to-end scenario. *)
Definition scenarioOpportunity : TradeOpportunity :=
  {| oTokenType := TokenUP; oTokenId := "up";
     softwarePrice := 0.75; polymarketPrice := 0.7; difference := 0.75 - 0.7 |}.

(** The handler of an oracle message with the fields [prob_up] and
    [prob_down] (0 for a missing one): only the two prices are kept, the
    time of the message is not. *)
Definition onSoftwareMessage {V} (probUp probDown : Q) (b : Bot V) : Bot V :=
  mkBot (limiter b) (tokenIdUp b) (tokenIdDown b)
        {| UP := probUp / 100; DOWN := probDown / 100 |}
        (polymarketPrices b) (activeTrades b) (lastTradeTime b).

End BasicBot.

(* ===================================================================== *)
(** ** The enhanced trading loop ([AutoTradingBot], Enhanced Arbitrage) *)
(* ===================================================================== *)

Module Bot.

Import Num RateLimiter Venue.
Local Open Scope Q_scope.

Record PriceData : Type := {
  UP : Q;
  DOWN : Q;
  lastUpdate : Z
}.

Inductive TradeStatus : Type := pending | filled | partial | closed | cancelled.

Definition isClosed (s : TradeStatus) : bool :=
  match s with closed => true | _ => false end.

Definition isFilled (s : TradeStatus) : bool :=
  match s with filled => true | _ => false end.

Record Trade : Type := {
  id : string;
  tokenType : TokenType;
  tokenId : string;
  buyOrderId : string;
  takeProfitOrderId : string;
  stopLossOrderId : string;
  buyPrice : Q;
  targetPrice : Q;
  stopPrice : Q;
  shares : Q;
  amount : Q;
  timestamp : Z;
  status : TradeStatus;
  filledShares : Q;
  exitReason : option PnL.ExitReason
}.

Record TradeOpportunity : Type := {
  oTokenType : TokenType;
  oTokenId : string;
  softwarePrice : Q;
  polymarketPrice : Q;
  difference : Q;
  confidence : Q;
  spread : Q;
  liquidityScore : Q;
  recommendedSize : Q
}.

(** The parameters read from the environment by the constructor. *)
Record Config : Type := {
  priceThreshold : Q;
  stopLossAmount : Q;
  takeProfitAmount : Q;
  tradeCooldown : Z;
  tradeAmount : Q;
  minimumBalance : Q;
  maxSlippage : Q;
  minLiquidity : Q;
  maxSpread : Q;
  priceStaleMs : Z;
  enableDynamicSizing : bool;
  maxTradeAge : Z;
  apiMinIntervalMs : Z;
  apiConfig : RateLimiterConfig
}.

(** The defaults of the constructor. *)
Definition defaultConfig : Config :=
  {| priceThreshold := 0.015;
     stopLossAmount := 0.005;
     takeProfitAmount := 0.01;
     tradeCooldown := 30 * 1000;
     tradeAmount := 5;
     minimumBalance := 500;
     maxSlippage := 0.01;
     minLiquidity := 2;
     maxSpread := 3;
     priceStaleMs := 10000;
     enableDynamicSizing := false;
     maxTradeAge := 3600 * 1000;
     apiMinIntervalMs := 100;
     apiConfig := DEFAULT_CONFIG |}.

(** The mutable fields of the bot.  A [Trade] is an object shared between
    [activeTrades] and the order monitor: [trades] is the store of all
    [Trade] objects created so far, in creation order, and [activeTrades]
    lists references (positions in the store). *)
Record Bot (V : Type) : Type := mkBot {
  limiter : State (Remote V);
  pnlTracker : PnL.PnLTracker;
  orderBookTracker : OrderBook.OrderBookTracker;
  tokenIdUp : option string;
  tokenIdDown : option string;
  softwarePrices : PriceData;
  polymarketPrices : gmap string Q;
  trades : list Trade;
  activeTrades : list nat;
  lastTradeTime : Z;
  tradeCounter : Z
}.
Arguments mkBot {V}.
Arguments limiter {V}.
Arguments pnlTracker {V}.
Arguments orderBookTracker {V}.
Arguments tokenIdUp {V}.
Arguments tokenIdDown {V}.
Arguments softwarePrices {V}.
Arguments polymarketPrices {V}.
Arguments trades {V}.
Arguments activeTrades {V}.
Arguments lastTradeTime {V}.
Arguments tradeCounter {V}.

Definition setLimiter {V} (l : State (Remote V)) (b : Bot V) : Bot V :=
  mkBot l (pnlTracker b) (orderBookTracker b) (tokenIdUp b) (tokenIdDown b)
    (softwarePrices b) (polymarketPrices b) (trades b) (activeTrades b)
    (lastTradeTime b) (tradeCounter b).

Definition setPnlTracker {V} (p : PnL.PnLTracker) (b : Bot V) : Bot V :=
  mkBot (limiter b) p (orderBookTracker b) (tokenIdUp b) (tokenIdDown b)
    (softwarePrices b) (polymarketPrices b) (trades b) (activeTrades b)
    (lastTradeTime b) (tradeCounter b).

Definition setTrades {V} (ts : list Trade) (b : Bot V) : Bot V :=
  mkBot (limiter b) (pnlTracker b) (orderBookTracker b) (tokenIdUp b) (tokenIdDown b)
    (softwarePrices b) (polymarketPrices b) ts (activeTrades b)
    (lastTradeTime b) (tradeCounter b).

Definition setActiveTrades {V} (refs : list nat) (b : Bot V) : Bot V :=
  mkBot (limiter b) (pnlTracker b) (orderBookTracker b) (tokenIdUp b) (tokenIdDown b)
    (softwarePrices b) (polymarketPrices b) (trades b) refs
    (lastTradeTime b) (tradeCounter b).

Definition setLastTradeTime {V} (t : Z) (b : Bot V) : Bot V :=
  mkBot (limiter b) (pnlTracker b) (orderBookTracker b) (tokenIdUp b) (tokenIdDown b)
    (softwarePrices b) (polymarketPrices b) (trades b) (activeTrades b)
    t (tradeCounter b).

Definition setTradeCounter {V} (n : Z) (b : Bot V) : Bot V :=
  mkBot (limiter b) (pnlTracker b) (orderBookTracker b) (tokenIdUp b) (tokenIdDown b)
    (softwarePrices b) (polymarketPrices b) (trades b) (activeTrades b)
    (lastTradeTime b) n.

Definition dateNow {V} (b : Bot V) : Z := now (world (limiter b)).

(** The requests sent so far. *)
Definition outboundOf {V} (b : Bot V) : list Call :=
  outbound (remote (world (limiter b))).

(** The reference of the next [Trade] object. *)
Definition freshRef {V} (b : Bot V) : nat := length (trades b).

Inductive OrderStatus : Type :=
| OPEN | FILLED_OR_CANCELLED | UNKNOWN | CANCELLED | EXPIRED.

Section Loop.

Context {V : Type} `{Client V}.
Variable cfg : Config.

(** [this.rateLimiter.executeWithRetry(fn, operationName)]. *)
Definition withRetry {T} (fn : Thunk (Remote V) T) (operationName : string)
    : Eff.M (Bot V) Error T :=
  fun b =>
    let '(r, l) := executeWithRetry (apiMinIntervalMs cfg) (apiConfig cfg)
                     fn operationName (limiter b) in
    (r, setLimiter l b).

(** [await new Promise(resolve => setTimeout(resolve, ms))]. *)
Definition pause (ms : Z) : Eff.M (Bot V) Error unit :=
  Eff.modify (fun b =>
    let l := limiter b in
    setLimiter (mkState (mkWorld (now (world l) + Z.max 0 ms) (remote (world l)))
                        (lastCallTime l) (trace l)) b).

(** [calculateConfidence(priceDiff, spread, liquidity, oracleAge)]. *)
Definition calculateConfidence (priceDiff spread liquidity : Q) (oracleAge : Z) : Q :=
  let diffFactor := Qmin ((priceDiff - priceThreshold cfg) / priceThreshold cfg) 1 in
  let spreadFactor := Qmax (1 - spread / maxSpread cfg) 0 in
  let liquidityFactor := Qmin (liquidity / (tradeAmount cfg * 5)) 1 in
  let freshnessFactor :=
    Qmax (1 - inject_Z oracleAge / inject_Z (priceStaleMs cfg)) 0 in
  diffFactor * 0.4 + spreadFactor * 0.2 + liquidityFactor * 0.2 + freshnessFactor * 0.2.

(** [calculateDynamicSize(confidence, availableLiquidity, balance)]. *)
Definition calculateDynamicSize (confidence availableLiquidity balance : Q) : Q :=
  let baseSize := tradeAmount cfg in
  let confidenceMultiplier := 0.5 + confidence * 1.5 in
  let maxByLiquidity := availableLiquidity / 3 in
  let maxByBalance := balance * 0.1 in
  Qmin (Qmin (Qmin (baseSize * confidenceMultiplier) maxByLiquidity) maxByBalance)
       (baseSize * 2).

(** One round of the [for (const tokenType of ['UP', 'DOWN'])] loop;
    [None] stands for [continue]. *)
Definition candidate (b : Bot V) (oracleAge : Z) (balance : Q)
    (tokenType : TokenType) : option TradeOpportunity :=
  let softwarePrice := match tokenType with
                       | TokenUP => UP (softwarePrices b)
                       | TokenDOWN => DOWN (softwarePrices b)
                       end in
  match truthy (match tokenType with
                | TokenUP => tokenIdUp b
                | TokenDOWN => tokenIdDown b
                end) with
  | None => None
  | Some tokenId =>
      if OrderBook.isStale tokenId (dateNow b) (orderBookTracker b) then None
      else
        let polyPrice := default 0 (polymarketPrices b !! tokenId) in
        let diff := softwarePrice - polyPrice in
        if ltb diff (priceThreshold cfg) || leb softwarePrice 0 || leb polyPrice 0
        then None
        else
          let spreadPercent := snd (OrderBook.getSpread tokenId (orderBookTracker b)) in
          if gtb spreadPercent (maxSpread cfg) then None
          else
            let liquidityCheck :=
              OrderBook.checkLiquidity tokenId OrderBook.BUY (tradeAmount cfg)
                (dateNow b) (orderBookTracker b) in
            if negb (OrderBook.sufficient liquidityCheck) then None
            else if gtb (OrderBook.estimatedSlippage liquidityCheck) (maxSlippage cfg)
            then None
            else
              let confidence :=
                calculateConfidence diff spreadPercent
                  (OrderBook.availableLiquidity liquidityCheck) oracleAge in
              let recommendedSize :=
                if enableDynamicSizing cfg
                then calculateDynamicSize confidence
                       (OrderBook.availableLiquidity liquidityCheck) balance
                else tradeAmount cfg in
              let liquidityScore :=
                Qmin (OrderBook.availableLiquidity liquidityCheck
                      / (tradeAmount cfg * 5)) 1 in
              Some {| oTokenType := tokenType; oTokenId := tokenId;
                      softwarePrice := softwarePrice; polymarketPrice := polyPrice;
                      difference := diff; confidence := confidence;
                      spread := spreadPercent; liquidityScore := liquidityScore;
                      recommendedSize := recommendedSize |}
  end.

Fixpoint scan (b : Bot V) (oracleAge : Z) (balance : Q)
    (tokenTypes : list TokenType) : option TradeOpportunity :=
  match tokenTypes with
  | [] => None
  | tokenType :: rest =>
      match candidate b oracleAge balance tokenType with
      | Some o => Some o
      | None => scan b oracleAge balance rest
      end
  end.

(** [checkTradeOpportunity()]. *)
Definition checkTradeOpportunity : Eff.M (Bot V) Error (option TradeOpportunity) :=
  fun b =>
    let currentTime := dateNow b in
    let remainingCooldown := (tradeCooldown cfg - (currentTime - lastTradeTime b))%Z in
    if (0 <? remainingCooldown)%Z then (inr None, b)
    else
      let oracleAge := (currentTime - lastUpdate (softwarePrices b))%Z in
      if (priceStaleMs cfg <? oracleAge)%Z then (inr None, b)
      else
        (let! balances := withRetry (invoke CallBalances checkBalances) "balance-check" in
         if ltb (usdc balances) (minimumBalance cfg) then Eff.ret None
         else Eff.gets (fun b' => scan b' oracleAge (usdc balances)
                                    [TokenUP; TokenDOWN]))%eff b.

(** [checkOrderStatus(orderId)]. *)
Definition checkOrderStatus (orderId : string) : Eff.M (Bot V) Error OrderStatus :=
  Eff.tryCatch
    (let! orders := withRetry (invoke CallOpenOrders getOpenOrders) "get-orders" in
     Eff.ret (if bool_decide (orderId ∈ orders) then OPEN else FILLED_OR_CANCELLED))%eff
    (fun _ => Eff.ret UNKNOWN).

(** [isOrderOpen(orderId)]. *)
Definition isOrderOpen (orderId : string) : Eff.M (Bot V) Error bool :=
  Eff.tryCatch
    (let! orders := withRetry (invoke CallOpenOrders getOpenOrders) "check-open-orders" in
     Eff.ret (bool_decide (orderId ∈ orders)))%eff
    (fun _ => Eff.ret false).

(** [cancelOrder(orderId)] of the bot: a failed cancellation is logged. *)
Definition cancelOpenOrder (orderId : string) : Eff.M (Bot V) Error unit :=
  Eff.tryCatch
    (withRetry (invoke (CallCancel orderId) (cancelOrder orderId)) "cancel-order")
    (fun _ => Eff.ret tt).

Definition isAborted (s : OrderStatus) : bool :=
  match s with CANCELLED | EXPIRED => true | _ => false end.

(** [this.activeTrades.push(trade)] for a new object. *)
Definition pushTrade (t : Z -> Trade) : Eff.M (Bot V) Error unit :=
  Eff.modify (fun b =>
    let r := freshRef b in
    setActiveTrades (activeTrades b ++ [r])
      (setTrades (trades b ++ [t (dateNow b)]) b)).

(** [executeTrade(opportunity)]; a rejection inside the [try] block is
    logged and swallowed. *)
Definition executeTrade (opportunity : TradeOpportunity) : Eff.M (Bot V) Error unit :=
  (do! Eff.modify (fun b => setLastTradeTime (dateNow b) b) in
   do! Eff.modify (fun b => setTradeCounter (tradeCounter b + 1)%Z b) in
   let! tradeId := Eff.gets (fun b => "trade_" +:+ pretty (tradeCounter b)
                                      +:+ "_" +:+ pretty (dateNow b)) in
   Eff.tryCatch
     (let buyPrice := polymarketPrice opportunity in
      let tradeSize := recommendedSize opportunity in
      let shares := tradeSize / buyPrice in
      let! buyResult :=
        withRetry (postOrder {| tokenID := oTokenId opportunity;
                                price := buyPrice * 1.01;
                                size := shares; side := BUY |})
                  "buy-order" in
      do! pause 3000 in
      let filledShares := shares in
      let! orderStatus := checkOrderStatus buyResult in
      if isAborted orderStatus then Eff.ret tt
      else
        let actualBuyPrice := buyPrice in
        let takeProfitPrice := Qmin (actualBuyPrice + takeProfitAmount cfg) 0.99 in
        let stopLossPrice := Qmax (actualBuyPrice - stopLossAmount cfg) 0.01 in
        let! takeProfitResult :=
          withRetry (postOrder {| tokenID := oTokenId opportunity;
                                  price := takeProfitPrice;
                                  size := filledShares; side := SELL |})
                    "take-profit-order" in
        let! stopLossResult :=
          withRetry (postOrder {| tokenID := oTokenId opportunity;
                                  price := stopLossPrice;
                                  size := filledShares; side := SELL |})
                    "stop-loss-order" in
        pushTrade (fun createdAt =>
          {| id := tradeId;
             tokenType := oTokenType opportunity;
             tokenId := oTokenId opportunity;
             buyOrderId := buyResult;
             takeProfitOrderId := takeProfitResult;
             stopLossOrderId := stopLossResult;
             buyPrice := actualBuyPrice;
             targetPrice := takeProfitPrice;
             stopPrice := stopLossPrice;
             shares := filledShares;
             amount := tradeSize;
             timestamp := createdAt;
             status := filled;
             filledShares := filledShares;
             exitReason := None |}))
     (fun _ => Eff.ret tt))%eff.

Definition isTakeProfit (r : PnL.ExitReason) : bool :=
  match r with PnL.take_profit => true | _ => false end.

Definition closeTrade (trade : Trade) (reason : PnL.ExitReason) : Trade :=
  {| id := id trade; tokenType := tokenType trade; tokenId := tokenId trade;
     buyOrderId := buyOrderId trade;
     takeProfitOrderId := takeProfitOrderId trade;
     stopLossOrderId := stopLossOrderId trade;
     buyPrice := buyPrice trade; targetPrice := targetPrice trade;
     stopPrice := stopPrice trade; shares := shares trade;
     amount := amount trade; timestamp := timestamp trade;
     status := closed;
     filledShares := filledShares trade;
     exitReason := Some reason |}.

(** [recordTradeClose(trade, exitReason)], with [trade] the object that
    the reference [ref] points to. *)
Definition recordTradeClose (ref : nat) (reason : PnL.ExitReason) (b : Bot V) : Bot V :=
  match trades b !! ref with
  | None => b
  | Some trade =>
      if isClosed (status trade) then b
      else
        let exitPrice := if isTakeProfit reason
                         then targetPrice trade else stopPrice trade in
        let pnl := (exitPrice - buyPrice trade) * shares trade in
        let pnlPercent := ((exitPrice - buyPrice trade) / buyPrice trade) * 100 in
        let result :=
          {| PnL.tradeId := id trade;
             PnL.tokenType := tokenTypeName (tokenType trade);
             PnL.entryPrice := buyPrice trade;
             PnL.exitPrice := exitPrice;
             PnL.shares := shares trade;
             PnL.pnl := pnl;
             PnL.pnlPercent := pnlPercent;
             PnL.exitReason := reason;
             PnL.entryTime := timestamp trade;
             PnL.exitTime := dateNow b;
             PnL.holdingTimeMs := (dateNow b - timestamp trade)%Z |} in
        setTrades (<[ref := closeTrade trade reason]> (trades b))
          (setPnlTracker (PnL.recordTrade result (pnlTracker b)) b)
  end.

Definition isFilledOrCancelled (s : OrderStatus) : bool :=
  match s with FILLED_OR_CANCELLED => true | _ => false end.

(** The body of the order monitor for one trade of [activeTrades]. *)
Definition monitorTrade (ref : nat) : Eff.M (Bot V) Error unit :=
  fun b =>
    match trades b !! ref with
    | None => (inr tt, b)
    | Some trade =>
        if negb (isFilled (status trade)) then (inr tt, b)
        else
          Eff.tryCatch
            (let! tpStatus := checkOrderStatus (takeProfitOrderId trade) in
             let! slStatus := checkOrderStatus (stopLossOrderId trade) in
             if isFilledOrCancelled tpStatus then
               let! slStillOpen := isOrderOpen (stopLossOrderId trade) in
               if slStillOpen then
                 do! cancelOpenOrder (stopLossOrderId trade) in
                 Eff.modify (recordTradeClose ref PnL.take_profit)
               else if negb slStillOpen && isFilledOrCancelled slStatus then
                 Eff.modify (recordTradeClose ref PnL.take_profit)
               else Eff.ret tt
             else if isFilledOrCancelled slStatus then
               let! tpStillOpen := isOrderOpen (takeProfitOrderId trade) in
               if tpStillOpen then
                 do! cancelOpenOrder (takeProfitOrderId trade) in
                 Eff.modify (recordTradeClose ref PnL.stop_loss)
               else Eff.ret tt
             else Eff.ret tt)%eff
            (fun _ => Eff.ret tt) b
    end.

(** One firing of the order monitor: every trade of [activeTrades]. *)
Fixpoint monitorTrades (refs : list nat) : Eff.M (Bot V) Error unit :=
  match refs with
  | [] => Eff.ret tt
  | ref :: rest => (do! monitorTrade ref in monitorTrades rest)%eff
  end.

Definition orderMonitorTick : Eff.M (Bot V) Error unit :=
  fun b => monitorTrades (activeTrades b) b.

(** One firing of the cleanup sweep.  The callback is synchronous: it
    assigns a new array to [this.activeTrades] and leaves the old array, over
    which a round of the order monitor may still be iterating, as it is. *)
Definition tradeCleanupTick (b : Bot V) : Bot V :=
  setActiveTrades
    (List.filter (fun ref =>
       match trades b !! ref with
       | Some trade => negb (maxTradeAge cfg <? dateNow b - timestamp trade)%Z
       | None => true
       end) (activeTrades b)) b.

(** A computation that neither reads nor writes [this.activeTrades]:
    assigning another array to the field before it runs changes nothing but
    that field of the final state. *)
Definition sweepBlind {A} (m : Eff.M (Bot V) Error A) : Prop :=
  forall (kept : list nat) (b : Bot V),
    m (setActiveTrades kept b) = (fst (m b), setActiveTrades kept (snd (m b))).

End Loop.

(** The state of the cooldown scenario: the last trade was placed at [t0],
    the clock reads [t0 + elapsed], the oracle has just said UP = 0.75, the
    book of the UP token has just been updated to 0.69 / 0.70 with 100
    shares on either side, and the market price is 0.70, on the paper venue
    with 1000 USDC. *)
Definition scenarioBot (t0 elapsed : Z) : Bot Paper :=
  mkBot (mkState (mkWorld (t0 + elapsed)
                    (mkRemote {| paperBalances := {| usdc := 1000; matic := 1 |};
                                 paperOrders := [] |} []))
                 {["balance-check" := t0]} [])
        PnL.newTracker
        (OrderBook.updateOrderBook "up"
           [{| OrderBook.price := 0.69; OrderBook.size := 100 |}]
           [{| OrderBook.price := 0.7; OrderBook.size := 100 |}]
           (t0 + elapsed) (OrderBook.newTracker 10000 2 3))
        (Some "up") (Some "down")
        {| UP := 0.75; DOWN := 0.25; lastUpdate := t0 + elapsed |}
        {["up" := 0.7]}
        [] [] t0 0.

(** The opportunity of the end-to-end scenario, at the base size. *)
Definition scenarioOpportunity : TradeOpportunity :=
  {| oTokenType := TokenUP; oTokenId := "up";
     softwarePrice := 0.75; polymarketPrice := 0.7; difference := 0.75 - 0.7;
     confidence := 1; spread := 1; liquidityScore := 1; recommendedSize := 5 |}.

(** The scenario after its trade was placed, and that state with the clock
    [ms] milliseconds further. *)
Definition tradedBot : Bot Paper :=
  snd (executeTrade (H := paperClient) defaultConfig scenarioOpportunity
         (scenarioBot 1700000000000 31000)).

Definition later (ms : Z) (b : Bot Paper) : Bot Paper :=
  snd (pause ms b).

(** The same state 11 seconds after the last oracle update. *)
Definition staleBot : Bot Paper :=
  setLimiter (paperWorld 42000 1000) (scenarioBot 0 31000).

Section Tick.

Context {V : Type} `{Client V}.
Variable cfg : Config.

(** One round of [immediateTradingLoop] while the bot is running. *)
Definition tradingTick : Eff.M (Bot V) Error unit :=
  Eff.tryCatch
    (let! opportunity := checkTradeOpportunity cfg in
     match opportunity with
     | Some o => executeTrade cfg o
     | None => Eff.ret tt
     end)%eff
    (fun _ => Eff.ret tt).

End Tick.

(** A level of a [clob_market] payload after [parseFloat]: [rawPrice] is
    [None] when the price does not parse; [rawSize] is the parsed size, 0
    for a missing one. *)
Record RawLevel : Type := {
  rawPrice : option Q;
  rawSize : Q
}.

(** A message of the market feed: [assetId] is [payload.asset_id || ''],
    [msgPrice] the parsed [payload.price] ([None] when it is missing, falsy
    or does not parse), [rawBids] and [rawAsks] are [payload.bids || []] and
    [payload.asks || []]. *)
Record MarketMessage : Type := {
  topic : string;
  assetId : string;
  msgPrice : option Q;
  rawBids : list RawLevel;
  rawAsks : list RawLevel
}.

(** [raw.map(parse).filter(l => l.price > 0)]. *)
Definition parseLevels (raw : list RawLevel) : list OrderBook.OrderLevel :=
  flat_map (fun l =>
              match rawPrice l with
              | Some p =>
                  if gtb p 0
                  then [{| OrderBook.price := p; OrderBook.size := rawSize l |}]
                  else []
              | None => []
              end) raw.

Definition setPolymarketPrice {V} (tokenId : string) (p : Q) (b : Bot V) : Bot V :=
  mkBot (limiter b) (pnlTracker b) (orderBookTracker b) (tokenIdUp b) (tokenIdDown b)
    (softwarePrices b) (<[tokenId := p]> (polymarketPrices b)) (trades b)
    (activeTrades b) (lastTradeTime b) (tradeCounter b).

Definition setOrderBookTracker {V} (t : OrderBook.OrderBookTracker) (b : Bot V) : Bot V :=
  mkBot (limiter b) (pnlTracker b) t (tokenIdUp b) (tokenIdDown b)
    (softwarePrices b) (polymarketPrices b) (trades b) (activeTrades b)
    (lastTradeTime b) (tradeCounter b).

(** [processPolymarketMessage(data)]. *)
Definition processPolymarketMessage {V} (m : MarketMessage) (b : Bot V) : Bot V :=
  if negb (String.eqb (topic m) "clob_market") then b
  else
    let b1 := match msgPrice m with
              | Some p => if gtb p 0 then setPolymarketPrice (assetId m) p b else b
              | None => b
              end in
    let bids := parseLevels (rawBids m) in
    let asks := parseLevels (rawAsks m) in
    let b2 := if (0 <? length bids)%nat || (0 <? length asks)%nat
              then setOrderBookTracker
                     (OrderBook.updateOrderBook (assetId m) bids asks (dateNow b1)
                        (orderBookTracker b1)) b1
              else b1 in
    if (0 <? length bids)%nat && (0 <? length asks)%nat then
      let midPrice := OrderBook.getMidPrice (assetId m) (orderBookTracker b2) in
      if gtb midPrice 0 then setPolymarketPrice (assetId m) midPrice b2 else b2
    else b2.

(** The messages of the feed, handled in the order they arrive. *)
Definition processAll {V} (ms : list MarketMessage) (b : Bot V) : Bot V :=
  fold_left (fun b m => processPolymarketMessage m b) ms b.

(** Every stored market price and every price of a stored book level is
    positive. *)
Definition pricesPositive {V} (b : Bot V) : Prop :=
  map_Forall (fun _ p => 0 < p) (polymarketPrices b).

Definition booksPositive {V} (b : Bot V) : Prop :=
  map_Forall (fun _ book =>
                Forall (fun l => 0 < OrderBook.price l) (OrderBook.bids book) /\
                Forall (fun l => 0 < OrderBook.price l) (OrderBook.asks book))
             (OrderBook.orderBooks (orderBookTracker b)).

End Bot.

(* ===================================================================== *)
(** * Properties *)
(* ===================================================================== *)

(** ** Facts about the number model *)

Module NumFacts.

Import Num.
Local Open Scope Q_scope.

Lemma gtb_true a b : gtb a b = true <-> b < a.
Proof.
  unfold gtb. rewrite negb_true_iff. split; intros H.
  - apply Qnot_le_lt. intros Hle. apply Qle_bool_iff in Hle. congruence.
  - destruct (Qle_bool a b) eqn:E; [|reflexivity].
    apply Qle_bool_iff in E. lra.
Qed.

Lemma gtb_false a b : gtb a b = false <-> a <= b.
Proof.
  unfold gtb. rewrite negb_false_iff. apply Qle_bool_iff.
Qed.

Lemma geb_true a b : geb a b = true <-> b <= a.
Proof. unfold geb. apply Qle_bool_iff. Qed.

Lemma geb_false a b : geb a b = false <-> a < b.
Proof.
  unfold geb. split; intros H.
  - apply Qnot_le_lt. intros Hle. apply Qle_bool_iff in Hle. congruence.
  - destruct (Qle_bool b a) eqn:E; [|reflexivity].
    apply Qle_bool_iff in E. lra.
Qed.

Lemma ltb_true a b : ltb a b = true <-> a < b.
Proof. unfold ltb. apply (gtb_true b a). Qed.

Lemma ltb_false a b : ltb a b = false <-> b <= a.
Proof. unfold ltb. apply (gtb_false b a). Qed.

Lemma leb_true a b : leb a b = true <-> a <= b.
Proof. unfold leb. apply Qle_bool_iff. Qed.

Lemma leb_false a b : leb a b = false <-> b < a.
Proof. unfold leb. apply (geb_false b a). Qed.

Lemma div_finite a b : ~ b == 0 -> div a b = Fin (a / b).
Proof.
  intros Hb. unfold div.
  destruct (Qeq_bool b 0) eqn:E; [|reflexivity].
  apply Qeq_bool_iff in E. contradiction.
Qed.

Lemma ofNat_pos n : (0 < n)%nat -> 0 < ofNat n.
Proof.
  intros Hn. unfold ofNat, Qlt. simpl. lia.
Qed.

Lemma ofNat_nonzero n : (0 < n)%nat -> ~ ofNat n == 0.
Proof.
  intros Hn Heq. pose proof (ofNat_pos n Hn). lra.
Qed.

Lemma Qmax_ge_l a b : a <= Qmax a b.
Proof. destruct (Q.max_spec a b) as [[? ->]|[? ->]]; lra. Qed.

Lemma Qmax_ge_r a b : b <= Qmax a b.
Proof. destruct (Q.max_spec a b) as [[? ->]|[? ->]]; lra. Qed.

Lemma Qmin_le_l a b : Qmin a b <= a.
Proof. destruct (Q.min_spec a b) as [[? ->]|[? ->]]; lra. Qed.

Lemma Qmin_le_r a b : Qmin a b <= b.
Proof. destruct (Q.min_spec a b) as [[? ->]|[? ->]]; lra. Qed.

End NumFacts.

Create HintDb qnum.

#[global] Hint Resolve NumFacts.Qmax_ge_l NumFacts.Qmax_ge_r
  NumFacts.Qmin_le_l NumFacts.Qmin_le_r : qnum.

(** Split a conjunction into its conjuncts, and nothing else. *)
Ltac splits := repeat match goal with |- _ /\ _ => split end.

(** Case analysis on the boolean comparisons of a goal or hypothesis,
    leaving the order facts in the context. *)
Ltac case_cmp :=
  match goal with
  | |- context [Num.gtb ?a ?b] =>
      let E := fresh "E" in
      destruct (Num.gtb a b) eqn:E;
      [apply NumFacts.gtb_true in E | apply NumFacts.gtb_false in E]
  | |- context [Num.geb ?a ?b] =>
      let E := fresh "E" in
      destruct (Num.geb a b) eqn:E;
      [apply NumFacts.geb_true in E | apply NumFacts.geb_false in E]
  | |- context [Num.ltb ?a ?b] =>
      let E := fresh "E" in
      destruct (Num.ltb a b) eqn:E;
      [apply NumFacts.ltb_true in E | apply NumFacts.ltb_false in E]
  | |- context [Num.leb ?a ?b] =>
      let E := fresh "E" in
      destruct (Num.leb a b) eqn:E;
      [apply NumFacts.leb_true in E | apply NumFacts.leb_false in E]
  end.

(** ** Sums and extrema of lists of numbers *)

Module SumFacts.

Import Num NumFacts.
Local Open Scope Q_scope.

Lemma fold_Qplus_from xs a : fold_left Qplus xs a == a + fold_left Qplus xs 0.
Proof.
  revert a. induction xs as [|x xs IH]; intros a; cbn.
  - ring.
  - rewrite (IH (a + x)), (IH (0 + x)). ring.
Qed.

Lemma sumQ_cons x xs : sumQ (x :: xs) == x + sumQ xs.
Proof. unfold sumQ. cbn [fold_left]. rewrite fold_Qplus_from. ring. Qed.

Lemma sumQ_app xs ys : sumQ (xs ++ ys) == sumQ xs + sumQ ys.
Proof.
  induction xs as [|x xs IH]; cbn [app].
  - unfold sumQ at 2. cbn. ring.
  - rewrite !sumQ_cons, IH. ring.
Qed.

Lemma sumQ_nonneg xs : Forall (fun x => 0 <= x) xs -> 0 <= sumQ xs.
Proof.
  induction 1 as [|x xs Hx _ IH]; [unfold sumQ; cbn; lra|].
  rewrite sumQ_cons. lra.
Qed.

Lemma sumQ_nonpos xs : Forall (fun x => x <= 0) xs -> sumQ xs <= 0.
Proof.
  induction 1 as [|x xs Hx _ IH]; [unfold sumQ; cbn; lra|].
  rewrite sumQ_cons. lra.
Qed.

(** The running maximum and minimum of [Math.max] and [Math.min]. *)
Lemma fold_Qmax_bounds xs x :
  x <= fold_left Qmax xs x /\
  Forall (fun y => y <= fold_left Qmax xs x) xs /\
  Exists (fun y => y == fold_left Qmax xs x) (x :: xs).
Proof.
  revert x. induction xs as [|y ys IH]; intros x; cbn [fold_left].
  - splits; [lra | constructor | constructor; reflexivity].
  - destruct (IH (Qmax x y)) as (H1 & H2 & H3).
    pose proof (Qmax_ge_l x y). pose proof (Qmax_ge_r x y).
    splits; [lra | constructor; [lra | exact H2] |].
    apply List.Exists_cons in H3. destruct H3 as [H3|H3].
    + destruct (Q.max_spec x y) as [[_ Hm]|[_ Hm]].
      * apply List.Exists_cons_tl, List.Exists_cons_hd.
        transitivity (Qmax x y); [symmetry; exact Hm | exact H3].
      * apply List.Exists_cons_hd.
        transitivity (Qmax x y); [symmetry; exact Hm | exact H3].
    + apply List.Exists_cons_tl, List.Exists_cons_tl. exact H3.
Qed.

Lemma fold_Qmin_bounds xs x :
  fold_left Qmin xs x <= x /\
  Forall (fun y => fold_left Qmin xs x <= y) xs /\
  Exists (fun y => y == fold_left Qmin xs x) (x :: xs).
Proof.
  revert x. induction xs as [|y ys IH]; intros x; cbn [fold_left].
  - splits; [lra | constructor | constructor; reflexivity].
  - destruct (IH (Qmin x y)) as (H1 & H2 & H3).
    pose proof (Qmin_le_l x y). pose proof (Qmin_le_r x y).
    splits; [lra | constructor; [lra | exact H2] |].
    apply List.Exists_cons in H3. destruct H3 as [H3|H3].
    + destruct (Q.min_spec x y) as [[_ Hm]|[_ Hm]].
      * apply List.Exists_cons_hd.
        transitivity (Qmin x y); [symmetry; exact Hm | exact H3].
      * apply List.Exists_cons_tl, List.Exists_cons_hd.
        transitivity (Qmin x y); [symmetry; exact Hm | exact H3].
    + apply List.Exists_cons_tl, List.Exists_cons_tl. exact H3.
Qed.

End SumFacts.

(** ** PnLTracker *)

Module PnLFacts.

Import Num PnL NumFacts.
Local Open Scope Q_scope.

Lemma recordTrade_maxDrawdown r t :
  maxDrawdown t <= maxDrawdown (recordTrade r t).
Proof.
  unfold recordTrade. cbn [maxDrawdown].
  repeat case_cmp; lra.
Qed.

Lemma recordAll_app rs more t :
  recordAll (rs ++ more) t = recordAll more (recordAll rs t).
Proof. unfold recordAll. apply fold_left_app. Qed.

Lemma recordAll_maxDrawdown more t :
  maxDrawdown t <= maxDrawdown (recordAll more t).
Proof.
  revert t. induction more as [|r more IH]; intros t.
  - cbn. lra.
  - cbn. eapply Qle_trans; [apply (recordTrade_maxDrawdown r)|apply IH].
Qed.

(** The drawdown is the distance from the peak at its largest, and the
    peak is never below the running sum. *)
Lemma recordTrade_peak r t :
  runningPnL (recordTrade r t) <= peakPnL (recordTrade r t) /\
  peakPnL (recordTrade r t) - runningPnL (recordTrade r t)
    <= maxDrawdown (recordTrade r t).
Proof.
  unfold recordTrade. cbn [runningPnL peakPnL maxDrawdown].
  repeat case_cmp; lra.
Qed.

(** C7.  The maximum drawdown of the ledger never decreases: recording one
    more trade result after any sequence of results leaves [maxDrawdown]
    greater than or equal to its value before, and so does recording any
    further sequence of results. *)
Theorem maxDrawdown_nondecreasing :
  forall (rs : list TradeResult) (r : TradeResult) (more : list TradeResult),
    maxDrawdown (recordAll rs newTracker)
      <= maxDrawdown (recordTrade r (recordAll rs newTracker)) /\
    maxDrawdown (recordAll rs newTracker)
      <= maxDrawdown (recordAll (rs ++ more) newTracker).
Proof.
  intros rs r more. split.
  - apply recordTrade_maxDrawdown.
  - rewrite recordAll_app. apply recordAll_maxDrawdown.
Qed.

Lemma recordTrade_trades r t : trades (recordTrade r t) = trades t ++ [r].
Proof. reflexivity. Qed.

Lemma recordAll_trades rs t : trades (recordAll rs t) = trades t ++ rs.
Proof.
  revert t. induction rs as [|r rs IH]; intros t; cbn.
  - now rewrite app_nil_r.
  - change (trades (recordAll rs (recordTrade r t)) = trades t ++ r :: rs).
    rewrite IH, recordTrade_trades, <- app_assoc. reflexivity.
Qed.

Lemma div_notNaN a b : ~ b == 0 -> isNaN (div a b) = false.
Proof. intros Hb. now rewrite div_finite. Qed.

Lemma div_isFinite a b : ~ b == 0 -> isFinite (div a b) = true.
Proof. intros Hb. now rewrite div_finite. Qed.

(** Past the guard every divisor of [getStats] is a positive count or a
    positive sum, and the extrema range over a list that is not empty. *)
Lemma statsBody_defined t :
  trades t <> [] ->
  noNaN (statsBody t) /\
  isFinite (bestTrade (statsBody t)) = true /\
  isFinite (worstTrade (statsBody t)) = true.
Proof.
  intros Hne.
  assert (Hlen : (0 < length (trades t))%nat).
  { destruct (trades t); [congruence | cbn; lia]. }
  unfold noNaN, statsBody. cbn [winRate averagePnL averageWin averageLoss
    profitFactor averageHoldingTimeMs bestTrade worstTrade].
  repeat split.
  - rewrite div_finite by now apply ofNat_nonzero. reflexivity.
  - apply div_notNaN. now apply ofNat_nonzero.
  - destruct (0 <? _)%nat eqn:E; [|reflexivity].
    apply Nat.ltb_lt in E. apply div_notNaN. now apply ofNat_nonzero.
  - destruct (0 <? _)%nat eqn:E; [|reflexivity].
    apply Nat.ltb_lt in E. apply div_notNaN. now apply ofNat_nonzero.
  - case_cmp.
    + apply div_notNaN. lra.
    + case_cmp; reflexivity.
  - apply div_notNaN. rewrite length_map. now apply ofNat_nonzero.
  - destruct (trades t); [congruence | reflexivity].
  - destruct (trades t); [congruence | reflexivity].
Qed.

(** C10.  With no trade recorded [getStats] returns the all-zero record:
    the guard answers before any division or extremum.  Without the guard
    the same statements would divide zero by zero and take the extrema of
    an empty list; with at least one trade recorded, none of the divisions
    has a zero divisor and both extrema are finite. *)
Theorem getStats_empty :
  forall t : PnLTracker,
    trades t = [] ->
    getStats t = zeroStats /\
    winRate (statsBody t) = NaN /\
    bestTrade (statsBody t) = NegInf /\
    worstTrade (statsBody t) = PosInf /\
    (forall r rs, let t' := recordAll (r :: rs) t in
       getStats t' = statsBody t' /\ noNaN (getStats t') /\
       isFinite (bestTrade (getStats t')) = true /\
       isFinite (worstTrade (getStats t')) = true).
Proof.
  intros t Ht.
split; [unfold getStats; now rewrite Ht|].
split; [unfold statsBody; cbn [winRate]; now rewrite Ht|].
split; [unfold statsBody; cbn [bestTrade]; now rewrite Ht|].
split; [unfold statsBody; cbn [worstTrade]; now rewrite Ht|].
intros r rs t'.
assert (Hne : trades t' <> []).
{ subst t'. rewrite recordAll_trades, Ht. discriminate. }
assert (Hget : getStats t' = statsBody t').
{ unfold getStats. destruct (trades t') as [|x xs]; [congruence | reflexivity]. }
rewrite Hget. split; [reflexivity|].
apply statsBody_defined, Hne.
Qed.

Lemma getStats_empty_witness :
  trades newTracker = [] /\ getStats newTracker = zeroStats.
Proof.
  split; [reflexivity|].
  apply (getStats_empty newTracker). reflexivity.
Defined.

End PnLFacts.


(** ** RateLimiter *)

Module RateLimiterFacts.

Import RateLimiter.
Local Open Scope Z_scope.

Lemma attemptsFrom_S a k :
  attemptsFrom a (Datatypes.S k) = a :: attemptsFrom (a + 1) k.
Proof.
  unfold attemptsFrom. cbn [seq map]. f_equal; [lia|].
  rewrite <- seq_shift, map_map. apply map_ext. intros i. lia.
Qed.

Section Limiter.

Context {S T : Type}.
Variable minIntervalMs : Z.
Variable config : RateLimiterConfig.
Variable fn : Thunk S T.
Variable operationName : string.

Local Abbreviation delayOf := (backoffDelay config).
Local Abbreviation loop := (retryLoop minIntervalMs config fn operationName).

(** [waitForSlot] sleeps at most once and logs nothing else. *)
Lemma waitForSlot_trace key (st : State S) :
  trace (waitForSlot minIntervalMs key st) = trace st \/
  exists d, trace (waitForSlot minIntervalMs key st) = trace st ++ [EvSleep d].
Proof.
  unfold waitForSlot. cbn [trace].
  destruct (_ <? _); [right; eexists; reflexivity | left; reflexivity].
Qed.

Lemma last_cons_default (e : Error) (errs : list Error) (d : Error) :
  default d (last (e :: errs)) = default e (last errs).
Proof.
  revert e d. induction errs as [|x xs IH]; intros e d; [reflexivity|].
  change (last (e :: x :: xs)) with (last (x :: xs)).
  rewrite (IH x d). symmetry. apply IH.
Qed.

Lemma retryLoop_shape (n : nat) :
  forall (attempt : Z) (lastError : option Error) (st : State S),
    attempt + Z.of_nat n = maxRetries config + 1 ->
    exists evs,
      trace (snd (loop n attempt lastError st)) = trace st ++ evs /\
      loopShape config operationName n attempt lastError
        (fst (loop n attempt lastError st)) evs.
Proof.
  induction n as [|n IH]; intros attempt lastError st Hn.
  - exists []. cbn. rewrite app_nil_r. split; [reflexivity|].
    exists []. cbn. splits; reflexivity.
  - cbn [retryLoop].
    pose proof (waitForSlot_trace operationName st) as Hw.
    set (st1 := waitForSlot minIntervalMs operationName st) in *.
    destruct (fn (world st1)) as [[error|v] w] eqn:Hfn.
    + assert (Hlt : (attempt <? maxRetries config) = true <-> (0 < n)%nat).
      { rewrite Z.ltb_lt. lia. }
      match goal with
      | |- context [loop n (attempt + 1) (Some error) ?s3] => set (st3 := s3)
      end.
      destruct (IH (attempt + 1) (Some error) st3 ltac:(lia)) as (evs & Htr & errs & Hshape).
      destruct (attempt <? maxRetries config) eqn:Eatt.
      * (* a retry follows: warning and sleep *)
        assert (Hpos : (0 < n)%nat) by now apply Hlt.
        assert (Hst3 : exists pre,
                   trace st3 = trace st ++ pre ++
                     [EvAttempt operationName (Some error);
                      EvWarnRetry operationName attempt (delayOf attempt);
                      EvSleep (delayOf attempt)] /\
                   (pre = [] \/ exists d, pre = [EvSleep d])).
        { subst st3. cbn [sleep emit trace].
          destruct Hw as [Hw|[d Hw]]; rewrite Hw.
          - exists []. split; [|now left]. now rewrite <- !app_assoc.
          - exists [EvSleep d]. split; [|right; now exists d].
            now rewrite <- !app_assoc. }
        destruct Hst3 as (pre & Hst3 & Hpre).
        exists (pre ++ [EvAttempt operationName (Some error);
                        EvWarnRetry operationName attempt (delayOf attempt);
                        EvSleep (delayOf attempt)] ++ evs).
        split.
        { rewrite Htr, Hst3. now rewrite <- !app_assoc. }
        destruct (fst (loop n (attempt + 1) (Some error) st3)) as [e|v].
        -- destruct Hshape as (Hatt & Hlen & He & Hd & Hs).
           exists (error :: errs).
           replace (Datatypes.S n - 1)%nat with (Datatypes.S (n - 1)) by lia.
           rewrite attemptsFrom_S.
           splits.
           ++ unfold attempts in *. destruct Hpre as [->|[d ->]]; cbn; now rewrite Hatt.
           ++ cbn. lia.
           ++ rewrite He. cbn [default]. now rewrite last_cons_default.
           ++ unfold backoffDelays in *. destruct Hpre as [->|[d ->]]; cbn; now rewrite Hd.
           ++ destruct Hpre as [->|[d ->]]; cbn; now rewrite Hs.
        -- destruct Hshape as (Hatt & Hlen & Hd & Hs).
           exists (error :: errs). cbn [length].
           rewrite attemptsFrom_S.
           splits.
           ++ unfold attempts in *. destruct Hpre as [->|[d ->]]; cbn; now rewrite Hatt.
           ++ lia.
           ++ unfold backoffDelays in *. destruct Hpre as [->|[d ->]]; cbn; now rewrite Hd.
           ++ destruct Hpre as [->|[d ->]]; cbn; now rewrite Hs.
      * (* the last attempt: no sleep *)
        assert (Hzero : n = 0%nat).
        { apply Z.ltb_ge in Eatt. lia. }
        subst n. cbn [retryLoop fst snd] in *.
        assert (Hst3 : exists pre,
                   trace st3 = trace st ++ pre /\
                   attempts pre = [Some error] /\
                   backoffDelays pre = [] /\ backoffSleeps pre = []).
        { subst st3.
          destruct (isRateLimit error); cbn [emit trace];
            (destruct Hw as [Hw|[d Hw]]; rewrite Hw;
             [ eexists; split; [rewrite <- ?app_assoc; reflexivity|];
               splits; reflexivity
             | eexists; split; [rewrite <- ?app_assoc; reflexivity|];
               splits; reflexivity ]). }
        destruct Hst3 as (pre & Hst3 & Hatt & Hd & Hs).
        exists pre. split; [exact Hst3|].
        exists [error]. cbn. splits; first [assumption | reflexivity].
    + cbn [fst snd emit trace].
      destruct Hw as [Hw|[d Hw]]; rewrite Hw.
      * exists [EvAttempt operationName None]. split; [reflexivity|].
        exists []. splits; first [reflexivity | cbn; lia].
      * exists [EvSleep d; EvAttempt operationName None].
        split; [now rewrite <- app_assoc|].
        exists []. splits; first [reflexivity | cbn; lia].
Qed.

End Limiter.

Lemma attempts_app tr1 tr2 : attempts (tr1 ++ tr2) = attempts tr1 ++ attempts tr2.
Proof. unfold attempts. apply flat_map_app. Qed.

Section FailingThunk.

Variable minIntervalMs : Z.
Variable config : RateLimiterConfig.
Variable operationName : string.
Variable k : nat.

Local Abbreviation unavailable := {| message := Some "temporarily unavailable" |}.

Lemma waitForSlot_remote {S : Type} key (st : State S) :
  remote (world (waitForSlot minIntervalMs key st)) = remote (world st).
Proof.
  unfold waitForSlot. cbn [world]. destruct (_ <? _); reflexivity.
Qed.

Lemma waitForSlot_attempts {S : Type} key (st : State S) :
  attempts (trace (waitForSlot minIntervalMs key st)) = attempts (trace st).
Proof.
  destruct (waitForSlot_trace minIntervalMs key st) as [->|[d ->]]; [reflexivity|].
  rewrite attempts_app. cbn. apply app_nil_r.
Qed.

(** A thunk that still has fewer failures ahead than the loop has
    iterations left resolves, after exactly these failures. *)
Lemma failingThunk_loop (n : nat) :
  forall (attempt : Z) (lastError : option Error) (st : State nat),
    (remote (world st) <= k)%nat ->
    (k - remote (world st) < n)%nat ->
    let run := retryLoop minIntervalMs config (failingThunk k) operationName
                 n attempt lastError st in
    fst run = inr (Datatypes.S k) /\
    attempts (trace (snd run)) =
      attempts (trace st) ++ repeat (Some unavailable) (k - remote (world st)) ++ [None].
Proof.
  induction n as [|n IH]; intros attempt lastError st Hle Hlt; [lia|].
  cbn [retryLoop].
  pose proof (waitForSlot_remote operationName st) as Hrem.
  pose proof (waitForSlot_attempts operationName st) as Hatt.
  set (st1 := waitForSlot minIntervalMs operationName st) in *.
  assert (Hfn : failingThunk k (world st1) =
                if (Datatypes.S (remote (world st)) <=? k)%nat
                then (inl unavailable,
                      mkWorld (now (world st1)) (Datatypes.S (remote (world st))))
                else (inr (Datatypes.S (remote (world st))),
                      mkWorld (now (world st1)) (Datatypes.S (remote (world st))))).
  { unfold failingThunk. now rewrite Hrem. }
  cbv zeta. rewrite Hfn. clear Hfn.
  destruct (Datatypes.S (remote (world st)) <=? k)%nat eqn:E.
  - apply Nat.leb_le in E. cbv beta iota zeta.
    match goal with
    | |- context [retryLoop _ _ _ _ n (attempt + 1) (Some unavailable) ?s3] =>
        set (st3 := s3)
    end.
    assert (Hrem3 : remote (world st3) = Datatypes.S (remote (world st))).
    { subst st3. destruct (attempt <? maxRetries config); [reflexivity|].
      destruct (isRateLimit unavailable); reflexivity. }
    assert (Hatt3 : attempts (trace st3) = attempts (trace st) ++ [Some unavailable]).
    { subst st3. destruct (attempt <? maxRetries config);
        [|destruct (isRateLimit unavailable)];
        cbn [sleep emit trace]; rewrite !attempts_app, Hatt; cbn;
        rewrite ?app_nil_r; reflexivity. }
    destruct (IH (attempt + 1) (Some unavailable) st3) as [Hres Htr]; [lia|lia|].
    split; [exact Hres|].
    rewrite Htr, Hatt3, Hrem3, <- app_assoc.
    replace (k - remote (world st))%nat
      with (Datatypes.S (k - Datatypes.S (remote (world st)))) by lia.
    reflexivity.
  - apply Nat.leb_gt in E.
    assert (Hk : remote (world st) = k) by lia.
    cbv beta iota zeta. cbn [fst snd emit trace]. rewrite Hk, Nat.sub_diag.
    split; [reflexivity|].
    rewrite attempts_app, Hatt. reflexivity.
Qed.

End FailingThunk.

(** A call under a key last used at least [minIntervalMs] ago does not
    wait. *)
Lemma waitForSlot_no_wait {S : Type} minIntervalMs key (st : State S) (t : Z) :
  lastCallTime st !! key = Some t ->
  minIntervalMs <= now (world st) - t ->
  waitForSlot minIntervalMs key st
  = mkState (world st) (<[key := now (world st)]> (lastCallTime st)) (trace st).
Proof.
  intros Hl Hle. unfold waitForSlot. rewrite Hl.
  change (default 0 (Some t)) with t. cbv zeta.
  destruct (now (world st) - t <? minIntervalMs) eqn:E;
    [apply Z.ltb_lt in E; lia | reflexivity].
Qed.

(** A thunk that resolves at its first call is called once. *)
Lemma retry_first_success {S T : Type} minIntervalMs config (fn : Thunk S T)
    operationName (st : State S) (v : T) (w : World S) :
  0 <= maxRetries config ->
  fn (world (waitForSlot minIntervalMs operationName st)) = (inr v, w) ->
  executeWithRetry minIntervalMs config fn operationName st
  = (inr v, emit (EvAttempt operationName None)
              (mkState w (lastCallTime (waitForSlot minIntervalMs operationName st))
                         (trace (waitForSlot minIntervalMs operationName st)))).
Proof.
  intros Hm Hfn. unfold executeWithRetry.
  replace (Z.to_nat (maxRetries config + 1))
    with (Datatypes.S (Z.to_nat (maxRetries config))) by lia.
  cbn [retryLoop]. rewrite Hfn. reflexivity.
Qed.

Lemma attemptsFrom_length a n : length (attemptsFrom a n) = n.
Proof. unfold attemptsFrom. now rewrite length_map, length_seq. Qed.

(** C5.  [executeWithRetry] calls the thunk at most [maxRetries + 1] times.
    After the failure of attempt number [a] that a retry follows it sleeps
    [min(base * 2^a, cap)], so the delays of a run with [k] such failures
    are those of the attempts [0 .. k-1] in order; when every attempt fails
    it rejects with the error of the last one.  In particular a thunk that
    fails exactly 3 times, run with [maxRetries = 4], [base = 1000] and
    [cap = 16000], resolves on its 4th call after delays of 1000, 2000 and
    4000 milliseconds. *)
Theorem executeWithRetry_backoff :
  (forall (S T : Type) (minIntervalMs : Z) (config : RateLimiterConfig)
          (fn : Thunk S T) (operationName : string) (st : State S),
      0 <= maxRetries config ->
      let run := executeWithRetry minIntervalMs config fn operationName st in
      let delay := fun a => Z.min (baseDelayMs config * 2 ^ a) (maxDelayMs config) in
      exists (evs : list Event) (errs : list Error),
        trace (snd run) = trace st ++ evs /\
        Z.of_nat (length (attempts evs)) <= maxRetries config + 1 /\
        match fst run with
        | inr _ =>
            attempts evs = map Some errs ++ [None] /\
            backoffDelays evs = map delay (attemptsFrom 0 (length errs)) /\
            backoffSleeps evs = map delay (attemptsFrom 0 (length errs))
        | inl e =>
            attempts evs = map Some errs /\
            Z.of_nat (length errs) = maxRetries config + 1 /\
            last errs = Some e /\
            backoffDelays evs = map delay (attemptsFrom 0 (Z.to_nat (maxRetries config))) /\
            backoffSleeps evs = map delay (attemptsFrom 0 (Z.to_nat (maxRetries config)))
        end) /\
  (forall (t0 minIntervalMs : Z),
      let run := executeWithRetry minIntervalMs DEFAULT_CONFIG (failingThunk 3)
                   "API call" (initialState t0 0%nat) in
      fst run = inr 4%nat /\
      length (attempts (trace (snd run))) = 4%nat /\
      backoffSleeps (trace (snd run)) = [1000; 2000; 4000]) /\
  (let run := executeWithRetry 100 DEFAULT_CONFIG (failingThunk 3)
                "API call" (initialState 1700000000000 0%nat) in
   sleeps (trace (snd run)) = [1000; 2000; 4000] /\
   now (world (snd run)) = 1700000000000 + 7000).
Proof.
  split; [|split].
  - intros S T minIntervalMs config fn operationName st Hretries run delay.
    destruct (retryLoop_shape minIntervalMs config fn operationName
                (Z.to_nat (maxRetries config + 1)) 0 None st ltac:(lia))
      as (evs & Htr & errs & Hshape).
    fold (executeWithRetry minIntervalMs config fn operationName st) in Htr, Hshape.
    fold run in Htr, Hshape.
    exists evs, errs. split; [exact Htr|].
    destruct (fst run) as [e|v].
    + destruct Hshape as (Hatt & Hlen & He & Hd & Hs).
      replace (Z.to_nat (maxRetries config + 1) - 1)%nat
        with (Z.to_nat (maxRetries config)) in Hd, Hs by lia.
      split; [rewrite Hatt, length_map; lia|].
      split; [exact Hatt|]. split; [lia|].
      split; [|split; [exact Hd | exact Hs]].
      destruct errs as [|x xs]; [cbn in Hlen; lia|].
      rewrite He. clear. revert x.
      induction xs as [|y ys IH]; intros x; [reflexivity|].
      change (last (x :: y :: ys)) with (last (y :: ys)). apply IH.
    + destruct Hshape as (Hatt & Hlen & Hd & Hs).
      split; [rewrite Hatt, length_app, length_map; cbn; lia|].
      splits; assumption.
  - intros t0 minIntervalMs run.
    destruct (failingThunk_loop minIntervalMs DEFAULT_CONFIG "API call" 3
                (Z.to_nat (maxRetries DEFAULT_CONFIG + 1)) 0 None
                (initialState t0 0%nat)) as [Hres Hatt]; [cbn; lia|cbn; lia|].
    destruct (retryLoop_shape minIntervalMs DEFAULT_CONFIG (failingThunk 3) "API call"
                (Z.to_nat (maxRetries DEFAULT_CONFIG + 1)) 0 None
                (initialState t0 0%nat) ltac:(reflexivity))
      as (evs & Htr & errs & Hshape).
    fold (executeWithRetry minIntervalMs DEFAULT_CONFIG (failingThunk 3) "API call"
            (initialState t0 0%nat)) in Hres, Hatt, Htr, Hshape.
    fold run in Hres, Hatt, Htr, Hshape.
    rewrite Hres in Hshape. destruct Hshape as (Hevs & _ & _ & Hs).
    cbn [initialState trace app] in Htr, Hatt.
    rewrite Htr in *. rewrite Hevs in Hatt.
    assert (Hlen : length errs = 3%nat).
    { apply (f_equal (@length _)) in Hatt.
      rewrite length_app, length_map in Hatt. cbn in Hatt. lia. }
    splits; [exact Hres | rewrite Hevs, length_app, length_map, Hlen; reflexivity |].
    rewrite Hs, Hlen. reflexivity.
  - vm_compute. split; reflexivity.
Qed.

Lemma executeWithRetry_backoff_witness :
  0 <= maxRetries DEFAULT_CONFIG /\
  exists (evs : list Event) (errs : list Error),
    trace (snd (executeWithRetry 100 DEFAULT_CONFIG (failingThunk 9) "API call"
                  (initialState 1700000000000 0%nat))) = [] ++ evs /\
    length errs = 5%nat.
Proof.
  split; [cbn; lia|].
  destruct (proj1 executeWithRetry_backoff nat nat 100 DEFAULT_CONFIG (failingThunk 9)
              "API call" (initialState 1700000000000 0%nat) ltac:(cbn; lia))
    as (evs & errs & Htr & _ & Hshape).
  exists evs, errs. split; [exact Htr|].
  assert (Hfail : exists e, fst (executeWithRetry 100 DEFAULT_CONFIG (failingThunk 9)
                    "API call" (initialState 1700000000000 0%nat)) = inl e).
  { eexists. vm_compute. reflexivity. }
  destruct Hfail as [e He]. rewrite He in Hshape.
  destruct Hshape as (_ & Hlen & _). cbn in Hlen. lia.
Defined.

End RateLimiterFacts.


(** ** BitcoinOracle *)

Module OracleFacts.

Import Num BitcoinOracle NumFacts.
Local Open Scope Q_scope.

(** *** Probabilities *)

Lemma probUp_bounds o momentum volatility :
  0.05 <= pUp (calculateProbabilities o momentum volatility) /\
  pUp (calculateProbabilities o momentum volatility) <= 0.95.
Proof.
  unfold calculateProbabilities. cbn [pUp]. split.
  - auto with qnum.
  - apply Q.max_lub; [lra | auto with qnum].
Qed.

(** Full upward momentum without volatility is dampened to 0.9; a momentum
    beyond the range of [calculateMomentum] is clamped to 0.95; a volatility
    of 10 or more leaves 0.5. *)
Example probUp_full_momentum :
  pUp (calculateProbabilities (newOracle 60 300) 1 0) == 0.9.
Proof. reflexivity. Qed.

Example probUp_clamped :
  pUp (calculateProbabilities (newOracle 60 300) 5 0) == 0.95 /\
  pUp (calculateProbabilities (newOracle 60 300) (-5) 0) == 0.05.
Proof. split; reflexivity. Qed.

Example probUp_volatile :
  pUp (calculateProbabilities (newOracle 60 300) 1 12) == 0.5.
Proof. reflexivity. Qed.

Lemma prob_sum o momentum volatility :
  pUp (calculateProbabilities o momentum volatility)
  + pDown (calculateProbabilities o momentum volatility) == 1.
Proof.
  unfold calculateProbabilities. cbn [pUp pDown]. ring.
Qed.

(** C1.  The probabilities of every oracle snapshot are well formed:
    [calculateProbabilities] returns, for any history buffer and any finite
    momentum and volatility, a [probUp] in [[0.05, 0.95]] with
    [probUp + probDown = 1], and so does [getOracleData] for any history
    buffer at any time (also when it answers with the default data). *)
Theorem probabilities_well_formed :
  (forall (o : Oracle) (momentum volatility : Q),
      let p := calculateProbabilities o momentum volatility in
      0.05 <= pUp p /\ pUp p <= 0.95 /\ pUp p + pDown p == 1) /\
  (forall (sqrt : Q -> Q) (o : Oracle) (now : Z),
      let d := getOracleData sqrt o now in
      0.05 <= probUp d /\ probUp d <= 0.95 /\ probUp d + probDown d == 1).
Proof.
  split.
  - intros o momentum volatility p. subst p.
    pose proof (probUp_bounds o momentum volatility) as [Hlo Hhi].
    pose proof (prob_sum o momentum volatility) as Hsum.
    splits; assumption.
  - intros sqrt o now d. subst d. unfold getOracleData.
    destruct (length (priceHistory o) <? 2)%nat.
    + cbn [getDefaultData probUp probDown]. splits; lra.
    + cbn [probUp probDown].
      pose proof (probUp_bounds o (calculateMomentum o now)
                    (calculateVolatility sqrt o now)) as [Hlo Hhi].
      pose proof (prob_sum o (calculateMomentum o now)
                    (calculateVolatility sqrt o now)) as Hsum.
      splits; assumption.
Qed.

(** *** Sorting and the median *)

Lemma insertSorted_perm x xs : Permutation (insertSorted x xs) (x :: xs).
Proof.
  induction xs as [|y ys IH]; cbn; [reflexivity|].
  destruct (gtb y x); [reflexivity|].
  rewrite IH. apply perm_swap.
Qed.

Lemma insertSorted_sorted x xs :
  StronglySorted Qle xs -> StronglySorted Qle (insertSorted x xs).
Proof.
  induction xs as [|y ys IH]; intros Hs; cbn.
  - constructor; constructor.
  - inversion Hs as [|? ? Hys Hall]; subst.
    case_cmp.
    + constructor; [exact Hs|].
      constructor; [lra|].
      eapply Forall_impl; [exact Hall|]. cbn. intros z Hz. lra.
    + constructor; [apply IH, Hys|].
      rewrite (insertSorted_perm x ys). constructor; assumption.
Qed.

Lemma sortAsc_from_perm xs acc :
  Permutation (fold_left (fun acc x => insertSorted x acc) xs acc) (acc ++ xs).
Proof.
  revert acc. induction xs as [|x xs IH]; intros acc; cbn.
  - now rewrite app_nil_r.
  - rewrite IH, insertSorted_perm.
    change (x :: acc ++ xs) with ((x :: acc) ++ xs).
    rewrite (Permutation_middle acc xs x). reflexivity.
Qed.

Lemma sortAsc_from_sorted xs acc :
  StronglySorted Qle acc ->
  StronglySorted Qle (fold_left (fun acc x => insertSorted x acc) xs acc).
Proof.
  revert acc. induction xs as [|x xs IH]; intros acc Hs; cbn; [exact Hs|].
  apply IH, insertSorted_sorted, Hs.
Qed.

Lemma sortAsc_perm xs : Permutation (sortAsc xs) xs.
Proof. unfold sortAsc. apply (sortAsc_from_perm xs []). Qed.

Lemma sortAsc_sorted xs : StronglySorted Qle (sortAsc xs).
Proof. unfold sortAsc. apply sortAsc_from_sorted. constructor. Qed.

Lemma sortAsc_length xs : length (sortAsc xs) = length xs.
Proof. apply Permutation_length, sortAsc_perm. Qed.

Lemma medianOf_in xs : xs <> [] -> In (medianOf xs) xs.
Proof.
  intros Hne. unfold medianOf.
  apply (Permutation_in _ (sortAsc_perm xs)), nth_In.
  rewrite sortAsc_length.
  destruct xs as [|x xs]; [congruence|].
  apply Nat.div_lt; cbn; lia.
Qed.

(** With an odd number of values the median is the middle one, with an even
    number the upper one of the two middle values. *)
Example medianOf_odd : medianOf [1000000; 100; 101] = 101.
Proof. reflexivity. Qed.

Example medianOf_even : medianOf [102; 100] = 102.
Proof. reflexivity. Qed.

(** *** Fetch cycles *)

Lemma fetchAll_prices answer ts names active :
  map price (collect ts (fst (fetchAll answer names active)))
  = successfulPrices answer names.
Proof.
  revert active. induction names as [|name rest IH]; intros active; [reflexivity|].
  cbn [fetchAll successfulPrices flat_map].
  unfold fetchOne.
  destruct (answer name) as [p|].
  - destruct (gtb p 0).
    + specialize (IH (setAdd name active)).
      destruct (fetchAll answer rest (setAdd name active)) as [rs active2].
      cbn in *. now rewrite IH.
    + specialize (IH (setDelete name active)).
      destruct (fetchAll answer rest (setDelete name active)) as [rs active2].
      cbn in *. now rewrite IH.
  - specialize (IH (setDelete name active)).
    destruct (fetchAll answer rest (setDelete name active)) as [rs active2].
    cbn in *. now rewrite IH.
Qed.

Lemma sliceLast_snoc {A} (n : nat) (h : list A) (x : A) :
  (0 < n)%nat -> last (sliceLast n (h ++ [x])) = Some x.
Proof.
  intros Hn. unfold sliceLast.
  rewrite length_app. cbn [length].
  rewrite skipn_app.
  replace (length h + 1 - n - length h)%nat with 0%nat by lia.
  cbn [skipn]. apply last_snoc.
Qed.

Lemma sliceLast_suffix {A} (n : nat) (l : list A) :
  firstn (length l - n) l ++ sliceLast n l = l /\
  length (sliceLast n l) = Nat.min (length l) n.
Proof.
  unfold sliceLast. split; [apply firstn_skipn|].
  rewrite length_skipn. lia.
Qed.

Lemma maxHistorySize_pos : (0 < maxHistorySize)%nat.
Proof. unfold maxHistorySize. lia. Qed.

Lemma sorted_nth (s : list Q) :
  StronglySorted Qle s ->
  forall i j, (i <= j)%nat -> (j < length s)%nat -> nth i s 0 <= nth j s 0.
Proof.
  induction 1 as [|x s Hs IH Hall]; intros i j Hij Hj; [cbn in Hj; lia|].
  destruct j as [|j].
  - assert (i = 0%nat) by lia. subst i. cbn. lra.
  - destruct i as [|i].
    + cbn [nth]. rewrite List.Forall_forall in Hall. apply Hall, nth_In.
      cbn in Hj. lia.
    + cbn [nth]. apply IH; cbn in Hj; lia.
Qed.

(** C2, amended.  A fetch cycle in which at least one source answers with
    a positive price sets the current price to the price at index
    [floor(n / 2)] of the [n] successful prices in ascending order and
    appends it to the history with the time stamp of the cycle, as the last
    point; the history keeps its newest 1000 points.  For an odd [n] this
    price is the median; for an even [n] it is the upper of the two middle
    prices, which is at or above the median (their mean).  For the answers
    1000000, 100 and 101 it is 101.  A cycle without any successful source
    leaves price and history as they were. *)
Theorem fetchPrices_upper_median :
  (forall (answer : string -> option Q) (ts : Z) (o : Oracle),
      let prices := successfulPrices answer (exchanges o) in
      let sorted := sortAsc prices in
      let n := length prices in
      let o' := fetchPrices answer ts o in
      let point := {| price := currentPrice o'; timestamp := ts; source := "median" |} in
      prices <> [] ->
      Permutation sorted prices /\ StronglySorted Qle sorted /\
      currentPrice o' = nth (n / 2) sorted 0 /\
      last (priceHistory o') = Some point /\
      (Nat.even n = false -> currentPrice o' = median prices) /\
      (Nat.even n = true ->
       nth (n / 2 - 1) sorted 0 <= currentPrice o' /\
       median prices == (nth (n / 2 - 1) sorted 0 + currentPrice o') / 2 /\
       median prices <= currentPrice o') /\
      (exists dropped, priceHistory o ++ [point] = dropped ++ priceHistory o') /\
      length (priceHistory o')
        = Nat.min (length (priceHistory o) + 1) maxHistorySize) /\
  (forall (answer : string -> option Q) (ts : Z) (o : Oracle),
      successfulPrices answer (exchanges o) = [] ->
      currentPrice (fetchPrices answer ts o) = currentPrice o /\
      priceHistory (fetchPrices answer ts o) = priceHistory o) /\
  (forall ts : Z,
      let o' := fetchPrices outlierAnswers ts (newOracle 60 300) in
      successfulPrices outlierAnswers (exchanges (newOracle 60 300))
        = [1000000; 100; 101] /\
      currentPrice o' = 101 /\
      priceHistory o' = [{| price := 101; timestamp := ts; source := "median" |}]).
Proof.
  split; [|split].
  - intros answer ts o prices sorted n o' point Hne.
    pose proof (fetchAll_prices answer ts (exchanges o) (activeSources o)) as Hprices.
    fold prices in Hprices.
    assert (Hcur : currentPrice o' = nth (n / 2) sorted 0 /\
                   priceHistory o'
                   = if (maxHistorySize <? length (priceHistory o ++ [point]))%nat
                     then sliceLast maxHistorySize (priceHistory o ++ [point])
                     else priceHistory o ++ [point]).
    { subst point o'. unfold fetchPrices.
      destruct (fetchAll answer (exchanges o) (activeSources o)) as [results active].
      cbn [fst] in Hprices.
      destruct (length (collect ts results) =? 0)%nat eqn:Elen.
      { apply Nat.eqb_eq in Elen. exfalso. apply Hne. rewrite <- Hprices.
        destruct (collect ts results); [reflexivity | discriminate]. }
      cbn [currentPrice priceHistory]. rewrite Hprices.
      unfold medianOf. fold sorted. subst sorted n. rewrite sortAsc_length.
      split; reflexivity. }
    destruct Hcur as [Hcur Hhist].
    pose proof maxHistorySize_pos as Hpos.
    assert (Hn : (0 < n)%nat) by (subst n; destruct prices; [congruence | cbn; lia]).
    assert (Hlen : length sorted = n) by apply sortAsc_length.
    pose proof (sortAsc_sorted prices) as Hsorted. fold sorted in Hsorted.
    splits.
    + apply sortAsc_perm.
    + exact Hsorted.
    + exact Hcur.
    + rewrite Hhist. destruct (maxHistorySize <? _)%nat.
      * now apply sliceLast_snoc.
      * apply last_snoc.
    + intros Hodd. rewrite Hcur. unfold median. fold sorted. rewrite Hlen, Hodd.
      reflexivity.
    + intros Heven.
      assert (Hlow : nth (n / 2 - 1) sorted 0 <= nth (n / 2) sorted 0).
      { apply sorted_nth; [exact Hsorted | lia |].
        rewrite Hlen. apply Nat.div_lt; lia. }
      assert (Hmed : median prices
                     == (nth (n / 2 - 1) sorted 0 + nth (n / 2) sorted 0) / 2).
      { unfold median. fold sorted. rewrite Hlen, Heven. reflexivity. }
      rewrite Hcur. splits; [exact Hlow | exact Hmed |].
      rewrite Hmed. apply Qle_shift_div_r; lra.
    + rewrite Hhist. destruct (maxHistorySize <? _)%nat.
      * eexists. symmetry. apply sliceLast_suffix.
      * exists []. reflexivity.
    + rewrite Hhist. destruct (maxHistorySize <? _)%nat eqn:E.
      * apply Nat.ltb_lt in E.
        rewrite (proj2 (sliceLast_suffix _ _)).
        rewrite length_app in *. cbn [length] in *. lia.
      * apply Nat.ltb_ge in E.
        rewrite length_app in *. cbn [length] in *. lia.
  - intros answer ts o Hnil.
    pose proof (fetchAll_prices answer ts (exchanges o) (activeSources o)) as Hprices.
    rewrite Hnil in Hprices.
    unfold fetchPrices.
    destruct (fetchAll answer (exchanges o) (activeSources o)) as [results active].
    cbn [fst] in Hprices.
    assert (Hlen : length (collect ts results) = 0%nat).
    { rewrite <- (length_map price), Hprices. reflexivity. }
    rewrite Hlen. cbn. split; reflexivity.
  - intros ts. vm_compute. splits; reflexivity.
Qed.

Lemma fetchPrices_upper_median_witness :
  successfulPrices evenAnswers (exchanges (newOracle 60 300)) <> [] /\
  currentPrice (fetchPrices evenAnswers 1700000000000 (newOracle 60 300))
  = nth (length (successfulPrices evenAnswers (exchanges (newOracle 60 300))) / 2)
        (sortAsc (successfulPrices evenAnswers (exchanges (newOracle 60 300)))) 0.
Proof.
  assert (Hne : successfulPrices evenAnswers (exchanges (newOracle 60 300)) <> [])
    by (vm_compute; discriminate).
  split; [exact Hne|].
  pose proof (proj1 fetchPrices_upper_median evenAnswers 1700000000000%Z
                (newOracle 60 300) Hne) as H.
  cbv zeta in H. exact (proj1 (proj2 (proj2 H))).
Defined.

(** The aggregate price is not always the median of the successful prices:
    when the sources answer 102 and 100 the median is 101, and the cycle
    stores 102. *)
Lemma fetchPrices_not_the_median :
  let o := newOracle 60 300 in
  let o' := fetchPrices evenAnswers 1700000000000 o in
  successfulPrices evenAnswers (exchanges o) = [102; 100] /\
  median (successfulPrices evenAnswers (exchanges o)) == 101 /\
  currentPrice o' = 102 /\
  priceHistory o'
  = [{| price := 102; timestamp := 1700000000000; source := "median" |}] /\
  ~ currentPrice o' == median (successfulPrices evenAnswers (exchanges o)).
Proof.
  cbv zeta.
  assert (Hp : successfulPrices evenAnswers (exchanges (newOracle 60 300)) = [102; 100])
    by reflexivity.
  assert (Hm : median [102; 100] == 101) by (vm_compute; reflexivity).
  assert (Hc : currentPrice (fetchPrices evenAnswers 1700000000000 (newOracle 60 300))
               = 102) by reflexivity.
  rewrite Hp, Hc. splits; [reflexivity | exact Hm | reflexivity | reflexivity |].
  rewrite Hm. intros H. vm_compute in H. discriminate.
Qed.

(** Every price that a fetch cycle stores is positive. *)
Lemma successfulPrices_positive answer names :
  Forall (fun p => 0 < p) (successfulPrices answer names).
Proof.
  induction names as [|name rest IH]; [constructor|].
  cbn [successfulPrices flat_map].
  destruct (answer name) as [p|]; [|exact IH].
  case_cmp; [|exact IH]. constructor; assumption.
Qed.

Lemma calculateMomentum_range o now :
  -1 <= calculateMomentum o now /\ calculateMomentum o now <= 1.
Proof.
  unfold calculateMomentum.
  destruct (length _ <? 2)%nat; [lra|].
  destruct (regressionSums _ _ _) as [[[sumX sumY] sumXY] sumX2].
  split; [apply Qmax_ge_l|].
  apply Q.max_lub; [lra | apply Qmin_le_l].
Qed.

End OracleFacts.


(** ** OrderBookTracker *)

Module OrderBookFacts.

Import Num OrderBook NumFacts.
Local Open Scope Q_scope.

Lemma fold_Qplus_shift xs a : fold_left Qplus xs a == a + fold_left Qplus xs 0.
Proof.
  revert a. induction xs as [|x xs IH]; intros a; cbn.
  - ring.
  - rewrite (IH (a + x)), (IH (0 + x)). ring.
Qed.

Lemma walkable_cons l levels :
  walkable (l :: levels) == price l * size l + walkable levels.
Proof.
  unfold walkable, sumQ. cbn [map fold_left].
  rewrite fold_Qplus_shift. ring.
Qed.

Lemma walkable_nonneg levels : wellFormed levels -> 0 <= walkable levels.
Proof.
  induction 1 as [|l levels [Hp Hs] _ IH].
  - unfold walkable, sumQ. cbn. lra.
  - rewrite walkable_cons. nra.
Qed.





Lemma isStale_fresh id now t book :
  orderBooks t !! id = Some book ->
  (now - lastUpdate book <= maxStaleMs t)%Z ->
  isStale id now t = false.
Proof.
  intros Hb Hle. unfold isStale. rewrite Hb. apply Z.ltb_ge. lia.
Qed.




End OrderBookFacts.


(** ** Requests sent through the rate limiter *)

Module VenueFacts.

Import RateLimiter Venue RateLimiterFacts.
Local Open Scope Z_scope.

Lemma posts_app cs1 cs2 : posts (cs1 ++ cs2) = posts cs1 ++ posts cs2.
Proof. unfold posts. apply flat_map_app. Qed.

Lemma posts_repeat_post o k : posts (repeat (CallPost o) k) = repeat o k.
Proof. induction k as [|k IH]; cbn; [reflexivity | now rewrite <- IH]. Qed.

Lemma posts_repeat_other c k :
  posts [c] = [] -> posts (repeat c k) = [].
Proof.
  intros Hc. induction k as [|k IH]; [reflexivity|].
  change (repeat c (Datatypes.S k)) with ([c] ++ repeat c k).
  now rewrite posts_app, Hc, IH.
Qed.

Section Retry.

Context {V T : Type}.
Variable minIntervalMs : Z.
Variable config : RateLimiterConfig.
Variable c : Call.
Variable m : Thunk V T.
Variable operationName : string.

Local Abbreviation sent := (fun st : State (Remote V) => outbound (remote (world st))).

Lemma waitForSlot_outbound key (st : State (Remote V)) :
  sent (waitForSlot minIntervalMs key st) = sent st.
Proof.
  unfold waitForSlot. cbn [world]. destruct (_ <? _); reflexivity.
Qed.

(** Every attempt sends the request once more, and nothing else is sent;
    a resolved run has sent it at least once. *)
Lemma retryLoop_invoke (n : nat) :
  forall (attempt : Z) (lastError : option Error) (st : State (Remote V)),
    let run := retryLoop minIntervalMs config (invoke c m) operationName
                 n attempt lastError st in
    exists k : nat,
      sent (snd run) = sent st ++ repeat c k /\
      (forall v, fst run = inr v -> (1 <= k)%nat).
Proof.
  induction n as [|n IH]; intros attempt lastError st; cbv zeta.
  - exists 0%nat. cbn. rewrite app_nil_r. split; [reflexivity | discriminate].
  - cbn [retryLoop].
    pose proof (waitForSlot_outbound operationName st) as Hw.
    set (st1 := waitForSlot minIntervalMs operationName st) in *.
    unfold invoke at 1 3.
    destruct (m _) as [[error|v] w'].
    + match goal with
      | |- context [retryLoop _ _ _ _ n (attempt + 1) (Some error) ?s3] =>
          set (st3 := s3)
      end.
      assert (H3 : sent st3 = sent st ++ [c]).
      { subst st3. rewrite <- Hw.
        destruct (attempt <? maxRetries config); [reflexivity|].
        destruct (isRateLimit error); reflexivity. }
      destruct (IH (attempt + 1) (Some error) st3) as (k & Hk & Hok).
      exists (Datatypes.S k). split.
      * rewrite Hk, H3, <- app_assoc. reflexivity.
      * intros _ _. lia.
    + exists 1%nat. cbn [fst snd emit world remote outbound]. rewrite <- Hw.
      split; [reflexivity | intros; lia].
Qed.

Lemma executeWithRetry_invoke (st : State (Remote V)) :
  let run := executeWithRetry minIntervalMs config (invoke c m) operationName st in
  exists k : nat,
    sent (snd run) = sent st ++ repeat c k /\
    (forall v, fst run = inr v -> (1 <= k)%nat).
Proof. apply retryLoop_invoke. Qed.

End Retry.

End VenueFacts.


(** ** The trading loops *)

Module BotFacts.

Import Num RateLimiter Venue NumFacts RateLimiterFacts VenueFacts.
Local Open Scope Q_scope.

(** *** The gates of the opportunity check *)

Lemma basic_cooldown {V : Type} `{Client V} (cfg : BasicBot.Config) (b : BasicBot.Bot V) :
  (BasicBot.dateNow b - BasicBot.lastTradeTime b < BasicBot.tradeCooldown cfg)%Z ->
  BasicBot.checkTradeOpportunity cfg b = (inr None, b).
Proof.
  intros Hcool. unfold BasicBot.checkTradeOpportunity.
  destruct (0 <? _)%Z eqn:E; [reflexivity|].
  apply Z.ltb_ge in E. lia.
Qed.

Lemma enhanced_cooldown {V : Type} `{Client V} (cfg : Bot.Config) (b : Bot.Bot V) :
  (Bot.dateNow b - Bot.lastTradeTime b < Bot.tradeCooldown cfg)%Z ->
  Bot.checkTradeOpportunity cfg b = (inr None, b).
Proof.
  intros Hcool. unfold Bot.checkTradeOpportunity.
  destruct (0 <? _)%Z eqn:E; [reflexivity|].
  apply Z.ltb_ge in E. lia.
Qed.

(** The first loop has two gates before the instrument loop, the cooldown
    and the balance; it keeps no time stamp of the oracle prices.  Once the
    cooldown has elapsed and the balance request resolves with enough USDC,
    the answer is that of the instrument loop. *)
Lemma basic_gates {V : Type} `{Client V} (cfg : BasicBot.Config) (b : BasicBot.Bot V)
    (balances : BalanceInfo) (b' : BasicBot.Bot V) :
  (BasicBot.tradeCooldown cfg <= BasicBot.dateNow b - BasicBot.lastTradeTime b)%Z ->
  BasicBot.withRetry cfg (invoke CallBalances checkBalances) "balance-check" b
    = (inr balances, b') ->
  BasicBot.minimumBalance cfg <= usdc balances ->
  BasicBot.checkTradeOpportunity cfg b
    = (inr (BasicBot.scan cfg b' [TokenUP; TokenDOWN]), b').
Proof.
  intros Hcool Hbal Hmin. unfold BasicBot.checkTradeOpportunity.
  destruct (0 <? _)%Z eqn:E; [apply Z.ltb_lt in E; lia|].
  unfold Eff.bind. rewrite Hbal.
  case_cmp; [lra | reflexivity].
Qed.

(** C9, amended.  The opportunity check of the enhanced loop rejects a
    stale oracle before anything else that depends on an instrument: when
    the age of the oracle prices exceeds [priceStaleMs] it returns no
    opportunity and leaves the whole state as it was, so no balance request
    is sent and no order book, market price or liquidity is looked at.  The
    first loop keeps no time of its oracle prices and has no such gate. *)
Theorem stale_oracle_rejected :
  forall (V : Type) (C : Client V) (cfg : Bot.Config) (b : Bot.Bot V),
    (Bot.priceStaleMs cfg < Bot.dateNow b - Bot.lastUpdate (Bot.softwarePrices b))%Z ->
    Bot.checkTradeOpportunity cfg b = (inr None, b) /\
    Bot.outboundOf (snd (Bot.checkTradeOpportunity cfg b)) = Bot.outboundOf b.
Proof.
  intros V C cfg b Hstale.
  assert (Hres : Bot.checkTradeOpportunity cfg b = (inr None, b)).
  { unfold Bot.checkTradeOpportunity.
    destruct (0 <? _)%Z; [reflexivity|].
    destruct (Bot.priceStaleMs cfg <? _)%Z eqn:E; [reflexivity|].
    apply Z.ltb_ge in E. lia. }
  split; [exact Hres | now rewrite Hres].
Qed.

Lemma stale_oracle_rejected_witness :
  (Bot.priceStaleMs Bot.defaultConfig
   < Bot.dateNow Bot.staleBot - Bot.lastUpdate (Bot.softwarePrices Bot.staleBot))%Z /\
  Bot.checkTradeOpportunity (H := paperClient) Bot.defaultConfig Bot.staleBot
    = (inr None, Bot.staleBot).
Proof.
  split; [vm_compute; reflexivity|].
  apply (stale_oracle_rejected Paper paperClient Bot.defaultConfig Bot.staleBot).
  vm_compute. reflexivity.
Defined.

(** The opportunity check of the first loop does not look at the age of the
    oracle prices: one hour after the last oracle message, far beyond the
    10 seconds that the enhanced loop allows, it still returns the
    opportunity that the old prices show. *)
Lemma basic_accepts_stale_oracle :
  let b0 := BasicBot.onSoftwareMessage 75 25 (BasicBot.scenarioBot 1700000000000 0) in
  let b1 := snd (BasicBot.pause 3600000 b0) in
  (BasicBot.dateNow b1 - BasicBot.dateNow b0 = 3600000)%Z /\
  (Bot.priceStaleMs Bot.defaultConfig < BasicBot.dateNow b1 - BasicBot.dateNow b0)%Z /\
  exists opp,
    fst (BasicBot.checkTradeOpportunity (H := paperClient) BasicBot.defaultConfig b1)
    = inr (Some opp) /\
    BasicBot.oTokenType opp = TokenUP /\
    BasicBot.softwarePrice opp == 0.75 /\ BasicBot.polymarketPrice opp == 0.7.
Proof.
  cbv zeta. split; [reflexivity | split; [reflexivity|]].
  eexists. split; [vm_compute; reflexivity|].
  split; [reflexivity | split; reflexivity].
Qed.

(** *** Closing a trade *)

Lemma close_closed {V : Type} (b : Bot.Bot V) (ref : nat) (trade : Bot.Trade)
    (reason : PnL.ExitReason) :
  Bot.trades b !! ref = Some trade ->
  Bot.status trade = Bot.closed ->
  Bot.recordTradeClose ref reason b = b.
Proof.
  intros Hlook Hclosed. unfold Bot.recordTradeClose.
  rewrite Hlook, Hclosed. reflexivity.
Qed.

(** After [recordTradeClose] the trade, if there is one, is closed. *)
Lemma close_status {V : Type} (b : Bot.Bot V) (ref : nat) (reason : PnL.ExitReason) :
  match Bot.trades (Bot.recordTradeClose ref reason b) !! ref with
  | Some trade => Bot.status trade = Bot.closed
  | None => Bot.trades b !! ref = None
  end.
Proof.
  unfold Bot.recordTradeClose.
  destruct (Bot.trades b !! ref) as [trade|] eqn:Hlook.
  - destruct (Bot.isClosed (Bot.status trade)) eqn:Hst.
    + rewrite Hlook. destruct (Bot.status trade); (reflexivity || discriminate).
    + cbn [Bot.setTrades Bot.setPnlTracker Bot.trades].
      rewrite list_lookup_insert_eq; [reflexivity|].
      now apply lookup_lt_Some in Hlook.
  - now rewrite Hlook.
Qed.

(** C6.  Closing the same trade twice records it once: after
    [recordTradeClose] a second [recordTradeClose] of the same [Trade]
    object, for whatever exit reason, leaves the whole state unchanged, in
    particular the list of recorded results and the running P&L of the
    ledger; the first close records at most one result; a closed trade stays
    closed in any later state, and the order monitor skips it. *)
Theorem close_twice_idempotent :
  forall (V : Type) (C : Client V) (cfg : Bot.Config) (b : Bot.Bot V) (ref : nat)
         (first second : PnL.ExitReason),
    let b1 := Bot.recordTradeClose ref first b in
    let b2 := Bot.recordTradeClose ref second b1 in
    b2 = b1 /\
    PnL.trades (Bot.pnlTracker b2) = PnL.trades (Bot.pnlTracker b1) /\
    PnL.runningPnL (Bot.pnlTracker b2) = PnL.runningPnL (Bot.pnlTracker b1) /\
    (PnL.trades (Bot.pnlTracker b1) = PnL.trades (Bot.pnlTracker b) \/
     exists result, PnL.trades (Bot.pnlTracker b1)
                    = PnL.trades (Bot.pnlTracker b) ++ [result]) /\
    (forall (later : Bot.Bot V) (reason : PnL.ExitReason),
        Bot.trades later !! ref = Bot.trades b1 !! ref ->
        PnL.trades (Bot.pnlTracker (Bot.recordTradeClose ref reason later))
          = PnL.trades (Bot.pnlTracker later) /\
        PnL.runningPnL (Bot.pnlTracker (Bot.recordTradeClose ref reason later))
          = PnL.runningPnL (Bot.pnlTracker later)) /\
    Bot.monitorTrade cfg ref b1 = (inr tt, b1).
Proof.
  intros V C cfg b ref first second b1 b2.
  pose proof (close_status b ref first) as Hst. fold b1 in Hst.
  assert (Hnoop : forall (later : Bot.Bot V) (reason : PnL.ExitReason),
             Bot.trades later !! ref = Bot.trades b1 !! ref ->
             Bot.recordTradeClose ref reason later = later).
  { intros later reason Hsame.
    destruct (Bot.trades b1 !! ref) as [trade|] eqn:Hlook.
    - now apply (close_closed later ref trade).
    - unfold Bot.recordTradeClose. now rewrite Hsame. }
  assert (H12 : b2 = b1) by (subst b2; now apply Hnoop).
  splits.
  - exact H12.
  - now rewrite H12.
  - now rewrite H12.
  - subst b1. unfold Bot.recordTradeClose.
    destruct (Bot.trades b !! ref) as [trade|]; [|now left].
    destruct (Bot.isClosed (Bot.status trade)); [now left|].
    right. eexists. reflexivity.
  - intros later reason Hsame. now rewrite (Hnoop later reason Hsame).
  - unfold Bot.monitorTrade.
    destruct (Bot.trades b1 !! ref) as [trade|]; [|reflexivity].
    rewrite Hst. reflexivity.
Qed.

Lemma close_twice_idempotent_witness :
  Bot.trades (Bot.later 5000 (Bot.recordTradeClose 0 PnL.take_profit Bot.tradedBot)) !! 0%nat
    = Bot.trades (Bot.recordTradeClose 0 PnL.take_profit Bot.tradedBot) !! 0%nat /\
  length (PnL.trades (Bot.pnlTracker
            (Bot.recordTradeClose 0 PnL.take_profit Bot.tradedBot))) = 1%nat /\
  PnL.trades (Bot.pnlTracker
    (Bot.recordTradeClose 0 PnL.stop_loss
       (Bot.later 5000 (Bot.recordTradeClose 0 PnL.take_profit Bot.tradedBot))))
  = PnL.trades (Bot.pnlTracker
      (Bot.later 5000 (Bot.recordTradeClose 0 PnL.take_profit Bot.tradedBot))).
Proof.
  assert (Hsame :
    Bot.trades (Bot.later 5000 (Bot.recordTradeClose 0 PnL.take_profit Bot.tradedBot)) !! 0%nat
    = Bot.trades (Bot.recordTradeClose 0 PnL.take_profit Bot.tradedBot) !! 0%nat)
    by reflexivity.
  split; [exact Hsame|]. split; [vm_compute; reflexivity|].
  apply (close_twice_idempotent Paper paperClient Bot.defaultConfig Bot.tradedBot 0%nat
           PnL.take_profit PnL.stop_loss). exact Hsame.
Defined.

(** The ledger itself has no such guard: recording the same result twice
    counts it twice. *)
Lemma recordTrade_twice (r : PnL.TradeResult) (t : PnL.PnLTracker) :
  PnL.trades (PnL.recordTrade r (PnL.recordTrade r t)) = PnL.trades t ++ [r; r].
Proof. cbn. now rewrite <- app_assoc. Qed.

(** *** The cooldown scenario *)

(** Decide the conditions of the candidate gates that pass. *)
Ltac pass_gates :=
  repeat match goal with
         | |- context [if ?c then None else _] =>
             replace c with false by (vm_compute; reflexivity)
         end.

Lemma basic_scenario_scan t0 (l : State (Remote Paper)) :
  exists opp,
    BasicBot.scan BasicBot.defaultConfig
      (BasicBot.mkBot l (Some "up") (Some "down")
         {| BasicBot.UP := 0.75; BasicBot.DOWN := 0.25 |} {["up" := 0.7]} [] t0)
      [TokenUP; TokenDOWN] = Some opp /\
    BasicBot.oTokenType opp = TokenUP /\ BasicBot.difference opp == 0.05.
Proof.
  cbn [BasicBot.scan]. unfold BasicBot.candidate.
  cbn [BasicBot.tokenIdUp BasicBot.softwarePrices BasicBot.UP
       BasicBot.polymarketPrices truthy].
  replace (geb _ _ && _ && _) with true by (vm_compute; reflexivity).
  eexists. split; [reflexivity|].
  cbn [BasicBot.oTokenType BasicBot.difference].
  split; vm_compute; reflexivity.
Qed.

Lemma basic_scenario_31 t0 :
  exists opp,
    fst (BasicBot.checkTradeOpportunity (H := paperClient) BasicBot.defaultConfig
           (BasicBot.scenarioBot t0 31000)) = inr (Some opp) /\
    BasicBot.oTokenType opp = TokenUP /\ BasicBot.difference opp == 0.05.
Proof.
  unfold BasicBot.checkTradeOpportunity.
  replace (0 <? _)%Z with false by (symmetry; apply Z.ltb_ge; cbn; lia).
  unfold Eff.bind, BasicBot.withRetry.
  erewrite retry_first_success.
  2:{ cbn. lia. }
  2:{ erewrite waitForSlot_no_wait.
      2:{ cbn [BasicBot.scenarioBot BasicBot.limiter lastCallTime].
          apply lookup_singleton_eq. }
      2:{ cbn. lia. }
      reflexivity. }
  cbn [usdc paperBalances remote world venue BasicBot.scenarioBot BasicBot.limiter
       invoke checkBalances paperClient].
  replace (ltb 1000 (BasicBot.minimumBalance BasicBot.defaultConfig))
    with false by reflexivity.
  unfold Eff.gets.
  cbn [BasicBot.scenarioBot BasicBot.tokenIdUp BasicBot.tokenIdDown
       BasicBot.softwarePrices BasicBot.polymarketPrices BasicBot.activeTrades
       BasicBot.lastTradeTime].
  match goal with
  | |- context [BasicBot.scan _ (BasicBot.mkBot ?l _ _ _ _ _ _) _] =>
      destruct (basic_scenario_scan t0 l) as (opp & Hscan & Hty & Hdiff)
  end.
  rewrite Hscan. exists opp. splits; [reflexivity | assumption | assumption].
Qed.

Lemma enhanced_scenario_scan t0 (l : State (Remote Paper)) (age : Z) (bal : Q) :
  now (world l) = (t0 + 31000)%Z ->
  exists opp,
    Bot.scan Bot.defaultConfig (Bot.setLimiter l (Bot.scenarioBot t0 31000)) age bal
      [TokenUP; TokenDOWN] = Some opp /\
    Bot.oTokenType opp = TokenUP /\ Bot.difference opp == 0.05.
Proof.
  intros Hnow. cbn [Bot.scan]. unfold Bot.candidate.
  cbn [Bot.setLimiter Bot.scenarioBot Bot.tokenIdUp Bot.softwarePrices Bot.UP
       Bot.orderBookTracker Bot.polymarketPrices truthy].
  unfold Bot.dateNow. cbn [Bot.limiter Bot.setLimiter]. rewrite Hnow.
  erewrite OrderBookFacts.isStale_fresh.
  2:{ unfold OrderBook.updateOrderBook. cbn [OrderBook.orderBooks].
      apply lookup_insert_eq. }
  2:{ cbn. lia. }
  pass_gates.
  eexists. split; [reflexivity|].
  cbn [Bot.oTokenType Bot.difference].
  split; vm_compute; reflexivity.
Qed.

Lemma enhanced_scenario_31 t0 :
  exists opp,
    fst (Bot.checkTradeOpportunity (H := paperClient) Bot.defaultConfig
           (Bot.scenarioBot t0 31000)) = inr (Some opp) /\
    Bot.oTokenType opp = TokenUP /\ Bot.difference opp == 0.05.
Proof.
  unfold Bot.checkTradeOpportunity.
  replace (0 <? _)%Z with false by (symmetry; apply Z.ltb_ge; cbn; lia).
  replace (Bot.priceStaleMs Bot.defaultConfig <? _)%Z with false
    by (symmetry; apply Z.ltb_ge; cbn; lia).
  unfold Eff.bind, Bot.withRetry.
  erewrite retry_first_success.
  2:{ cbn. lia. }
  2:{ erewrite waitForSlot_no_wait.
      2:{ cbn [Bot.scenarioBot Bot.limiter lastCallTime]. apply lookup_singleton_eq. }
      2:{ cbn. lia. }
      reflexivity. }
  cbn [usdc paperBalances remote world venue Bot.scenarioBot Bot.limiter
       invoke checkBalances paperClient].
  replace (ltb 1000 (Bot.minimumBalance Bot.defaultConfig)) with false by reflexivity.
  unfold Eff.gets.
  match goal with
  | |- context [Bot.scan _ (Bot.setLimiter ?l _) ?age ?bal _] =>
      destruct (enhanced_scenario_scan t0 l age bal) as (opp & Hscan & Hty & Hdiff);
      [reflexivity|]
  end.
  fold (Bot.scenarioBot t0 31000).
  rewrite Hscan. exists opp. splits; [reflexivity | assumption | assumption].
Qed.

(** C8.  While the cooldown since the last trade has not elapsed, that is
    while [now - lastTradeTime < tradeCooldown], the opportunity check of
    either loop returns no opportunity and leaves the state untouched.  With
    a cooldown of 30 seconds and the last trade at [t0], a check at
    [t0 + 29 s] returns none even in a state whose other gates all pass, and
    in that same state the check at [t0 + 31 s] returns the UP opportunity
    with an edge of 0.05. *)
Theorem cooldown_gate :
  (forall (V : Type) (C : Client V) (cfg : BasicBot.Config) (b : BasicBot.Bot V),
      (BasicBot.dateNow b - BasicBot.lastTradeTime b < BasicBot.tradeCooldown cfg)%Z ->
      BasicBot.checkTradeOpportunity cfg b = (inr None, b)) /\
  (forall (V : Type) (C : Client V) (cfg : Bot.Config) (b : Bot.Bot V),
      (Bot.dateNow b - Bot.lastTradeTime b < Bot.tradeCooldown cfg)%Z ->
      Bot.checkTradeOpportunity cfg b = (inr None, b)) /\
  (forall t0 : Z,
      Bot.tradeCooldown Bot.defaultConfig = 30000%Z /\
      Bot.lastTradeTime (Bot.scenarioBot t0 29000) = t0 /\
      Bot.dateNow (Bot.scenarioBot t0 29000) = (t0 + 29000)%Z /\
      Bot.lastTradeTime (Bot.scenarioBot t0 31000) = t0 /\
      Bot.dateNow (Bot.scenarioBot t0 31000) = (t0 + 31000)%Z /\
      fst (Bot.checkTradeOpportunity (H := paperClient) Bot.defaultConfig
             (Bot.scenarioBot t0 29000)) = inr None /\
      (exists opp,
          fst (Bot.checkTradeOpportunity (H := paperClient) Bot.defaultConfig
                 (Bot.scenarioBot t0 31000)) = inr (Some opp) /\
          Bot.oTokenType opp = TokenUP /\ Bot.difference opp == 0.05) /\
      fst (BasicBot.checkTradeOpportunity (H := paperClient) BasicBot.defaultConfig
             (BasicBot.scenarioBot t0 29000)) = inr None /\
      (exists opp,
          fst (BasicBot.checkTradeOpportunity (H := paperClient) BasicBot.defaultConfig
                 (BasicBot.scenarioBot t0 31000)) = inr (Some opp) /\
          BasicBot.oTokenType opp = TokenUP /\ BasicBot.difference opp == 0.05)).
Proof.
  split; [|split].
  - intros V C cfg b. apply basic_cooldown.
  - intros V C cfg b. apply enhanced_cooldown.
  - intros t0. splits; try reflexivity.
    + rewrite enhanced_cooldown; [reflexivity|].
      unfold Bot.dateNow. cbn. lia.
    + apply enhanced_scenario_31.
    + rewrite basic_cooldown; [reflexivity|].
      unfold BasicBot.dateNow. cbn. lia.
    + apply basic_scenario_31.
Qed.

Lemma cooldown_gate_witness :
  (Bot.dateNow (Bot.scenarioBot 1700000000000 29000)
   - Bot.lastTradeTime (Bot.scenarioBot 1700000000000 29000)
   < Bot.tradeCooldown Bot.defaultConfig)%Z /\
  Bot.checkTradeOpportunity (H := paperClient) Bot.defaultConfig
    (Bot.scenarioBot 1700000000000 29000)
  = (inr None, Bot.scenarioBot 1700000000000 29000).
Proof.
  split; [vm_compute; reflexivity|].
  apply (proj1 (proj2 cooldown_gate) Paper paperClient Bot.defaultConfig
           (Bot.scenarioBot 1700000000000 29000)).
  vm_compute. reflexivity.
Defined.

(** *** Placing the entry and its exits *)

Section Basic.
Context {V : Type} `{Client V}.
Variable cfg : BasicBot.Config.

Lemma basic_withRetry_sent {T} (c : Call) (m : Thunk V T) op (b : BasicBot.Bot V) :
  exists k : nat,
    BasicBot.activeTrades (snd (BasicBot.withRetry cfg (invoke c m) op b))
      = BasicBot.activeTrades b /\
    BasicBot.outboundOf (snd (BasicBot.withRetry cfg (invoke c m) op b))
      = BasicBot.outboundOf b ++ repeat c k /\
    (forall v, fst (BasicBot.withRetry cfg (invoke c m) op b) = inr v -> (1 <= k)%nat).
Proof.
  unfold BasicBot.withRetry.
  destruct (executeWithRetry_invoke (BasicBot.apiMinIntervalMs cfg) (BasicBot.apiConfig cfg)
              c m op (BasicBot.limiter b)) as (k & Hk & Hok).
  destruct (executeWithRetry _ _ _ _ _) as [r l].
  exists k. cbn [fst snd] in *. splits; [reflexivity | exact Hk | exact Hok].
Qed.

Lemma basic_executeTrade (opp : BasicBot.TradeOpportunity) (b : BasicBot.Bot V) :
  let p := BasicBot.polymarketPrice opp in
  let n := BasicBot.tradeAmount cfg in
  let entry := {| tokenID := BasicBot.oTokenId opp; price := p * 1.01;
                  size := n / p; side := BUY |} in
  let takeProfit := {| tokenID := BasicBot.oTokenId opp;
                       price := Qmin (p + BasicBot.takeProfitAmount cfg) 0.99;
                       size := n / p; side := SELL |} in
  let stopLoss := {| tokenID := BasicBot.oTokenId opp;
                     price := Qmax (p - BasicBot.stopLossAmount cfg) 0.01;
                     size := n / p; side := SELL |} in
  let b' := snd (BasicBot.executeTrade cfg opp b) in
  exists i j k : nat,
    posts (BasicBot.outboundOf b')
      = posts (BasicBot.outboundOf b)
        ++ repeat entry i ++ repeat takeProfit j ++ repeat stopLoss k /\
    (BasicBot.activeTrades b' = BasicBot.activeTrades b \/
     (1 <= i)%nat /\ (1 <= j)%nat /\ (1 <= k)%nat /\
     exists t, BasicBot.activeTrades b' = BasicBot.activeTrades b ++ [t] /\
               BasicBot.buyPrice t = p /\
               BasicBot.targetPrice t = price takeProfit /\
               BasicBot.stopPrice t = price stopLoss /\
               BasicBot.amount t = n).
Proof.
  intros p n entry takeProfit stopLoss b'. subst b'.
  unfold BasicBot.executeTrade, Eff.bind, Eff.tryCatch, BasicBot.setLastTradeTime,
    BasicBot.pushTrade, BasicBot.pause, Eff.modify, Eff.ret, postOrder.
  fold p n. fold entry. fold takeProfit. fold stopLoss.
  match goal with
  | |- context [BasicBot.withRetry cfg (invoke (CallPost entry) _) "buy-order" ?b0] =>
      set (s0 := b0)
  end.
  destruct (basic_withRetry_sent (CallPost entry) (createAndPostOrder entry)
              "buy-order" s0) as (i & Ha1 & Hs1 & Hok1).
  destruct (BasicBot.withRetry cfg (invoke (CallPost entry) _) "buy-order" s0)
    as [[e1|id1] s1]; cbn [fst snd] in *.
  { exists i, 0%nat, 0%nat. cbn [repeat]. rewrite !app_nil_r.
    split; [|left; exact Ha1].
    rewrite Hs1, posts_app, posts_repeat_post. reflexivity. }
  match goal with
  | |- context [BasicBot.withRetry cfg (invoke (CallPost takeProfit) _) _ ?b0] =>
      set (s1p := b0)
  end.
  destruct (basic_withRetry_sent (CallPost takeProfit) (createAndPostOrder takeProfit)
              "take-profit-order" s1p) as (j & Ha2 & Hs2 & Hok2).
  destruct (BasicBot.withRetry cfg (invoke (CallPost takeProfit) _) _ s1p)
    as [[e2|id2] s2]; cbn [fst snd] in *.
  { exists i, j, 0%nat. cbn [repeat]. rewrite !app_nil_r.
    split; [|left; rewrite Ha2; exact Ha1].
    rewrite Hs2, posts_app, posts_repeat_post.
    change (BasicBot.outboundOf s1p) with (BasicBot.outboundOf s1).
    rewrite Hs1, posts_app, posts_repeat_post, <- app_assoc. reflexivity. }
  destruct (basic_withRetry_sent (CallPost stopLoss) (createAndPostOrder stopLoss)
              "stop-loss-order" s2) as (k & Ha3 & Hs3 & Hok3).
  destruct (BasicBot.withRetry cfg (invoke (CallPost stopLoss) _) _ s2)
    as [[e3|id3] s3]; cbn [fst snd] in *.
  { exists i, j, k.
    split; [|left; rewrite Ha3, Ha2; exact Ha1].
    rewrite Hs3, posts_app, posts_repeat_post, Hs2, posts_app, posts_repeat_post.
    change (BasicBot.outboundOf s1p) with (BasicBot.outboundOf s1).
    rewrite Hs1, posts_app, posts_repeat_post, <- !app_assoc. reflexivity. }
  exists i, j, k. split.
  - change (BasicBot.outboundOf (BasicBot.mkBot (BasicBot.limiter s3) _ _ _ _ _ _))
      with (BasicBot.outboundOf s3).
    rewrite Hs3, posts_app, posts_repeat_post, Hs2, posts_app, posts_repeat_post.
    change (BasicBot.outboundOf s1p) with (BasicBot.outboundOf s1).
    rewrite Hs1, posts_app, posts_repeat_post, <- !app_assoc. reflexivity.
  - right. splits; [now apply (Hok1 id1) | now apply (Hok2 id2) | now apply (Hok3 id3) |].
    eexists. cbn [BasicBot.activeTrades]. rewrite Ha3, Ha2.
    change (BasicBot.activeTrades s1p) with (BasicBot.activeTrades s1). rewrite Ha1.
    split; [reflexivity|]. splits; reflexivity.
Qed.
End Basic.

Section Enhanced.
Context {V : Type} `{Client V}.
Variable cfg : Bot.Config.

Lemma withRetry_sent {T} (c : Call) (m : Thunk V T) op (b : Bot.Bot V) :
  exists k : nat,
    Bot.trades (snd (Bot.withRetry cfg (invoke c m) op b)) = Bot.trades b /\
    Bot.activeTrades (snd (Bot.withRetry cfg (invoke c m) op b)) = Bot.activeTrades b /\
    Bot.outboundOf (snd (Bot.withRetry cfg (invoke c m) op b))
      = Bot.outboundOf b ++ repeat c k /\
    (forall v, fst (Bot.withRetry cfg (invoke c m) op b) = inr v -> (1 <= k)%nat).
Proof.
  unfold Bot.withRetry.
  destruct (executeWithRetry_invoke (Bot.apiMinIntervalMs cfg) (Bot.apiConfig cfg)
              c m op (Bot.limiter b)) as (k & Hk & Hok).
  destruct (executeWithRetry _ _ _ _ _) as [r l].
  exists k. cbn [fst snd] in *. splits; [reflexivity | reflexivity | exact Hk | exact Hok].
Qed.

Lemma checkOrderStatus_quiet (orderId : string) (b : Bot.Bot V) :
  Bot.trades (snd (Bot.checkOrderStatus cfg orderId b)) = Bot.trades b /\
  Bot.activeTrades (snd (Bot.checkOrderStatus cfg orderId b)) = Bot.activeTrades b /\
  posts (Bot.outboundOf (snd (Bot.checkOrderStatus cfg orderId b)))
    = posts (Bot.outboundOf b).
Proof.
  unfold Bot.checkOrderStatus, Eff.tryCatch, Eff.bind, Eff.ret.
  destruct (withRetry_sent CallOpenOrders getOpenOrders "get-orders" b)
    as (k & Ht & Ha & Hs & _).
  destruct (Bot.withRetry cfg (invoke CallOpenOrders getOpenOrders) "get-orders" b)
    as [[e|orders] b1]; cbn [fst snd] in *;
    (splits; [exact Ht | exact Ha |
              rewrite Hs, posts_app, posts_repeat_other, app_nil_r; reflexivity]).
Qed.

Lemma enhanced_executeTrade (opp : Bot.TradeOpportunity) (b : Bot.Bot V) :
  let p := Bot.polymarketPrice opp in
  let n := Bot.recommendedSize opp in
  let entry := {| tokenID := Bot.oTokenId opp; price := p * 1.01;
                  size := n / p; side := BUY |} in
  let takeProfit := {| tokenID := Bot.oTokenId opp;
                       price := Qmin (p + Bot.takeProfitAmount cfg) 0.99;
                       size := n / p; side := SELL |} in
  let stopLoss := {| tokenID := Bot.oTokenId opp;
                     price := Qmax (p - Bot.stopLossAmount cfg) 0.01;
                     size := n / p; side := SELL |} in
  let b' := snd (Bot.executeTrade cfg opp b) in
  exists i j k : nat,
    posts (Bot.outboundOf b')
      = posts (Bot.outboundOf b)
        ++ repeat entry i ++ repeat takeProfit j ++ repeat stopLoss k /\
    (Bot.trades b' = Bot.trades b /\ Bot.activeTrades b' = Bot.activeTrades b \/
     (1 <= i)%nat /\ (1 <= j)%nat /\ (1 <= k)%nat /\
     exists t, Bot.trades b' = Bot.trades b ++ [t] /\
               Bot.activeTrades b' = Bot.activeTrades b ++ [length (Bot.trades b)] /\
               Bot.buyPrice t = p /\
               Bot.targetPrice t = price takeProfit /\
               Bot.stopPrice t = price stopLoss /\
               Bot.shares t = n / p /\
               Bot.amount t = n /\
               Bot.status t = Bot.filled).
Proof.
  intros p n entry takeProfit stopLoss b'. subst b'.
  unfold Bot.executeTrade, Eff.bind, Eff.tryCatch, Eff.gets,
    Bot.pushTrade, Bot.pause, Eff.modify, Eff.ret, postOrder.
  fold p n. fold entry. fold takeProfit. fold stopLoss.
  match goal with
  | |- context [Bot.withRetry cfg (invoke (CallPost entry) _) "buy-order" ?b0] =>
      set (s0 := b0)
  end.
  destruct (withRetry_sent (CallPost entry) (createAndPostOrder entry)
              "buy-order" s0) as (i & Ht1 & Ha1 & Hs1 & Hok1).
  destruct (Bot.withRetry cfg (invoke (CallPost entry) _) "buy-order" s0)
    as [[e1|id1] s1]; cbn [fst snd] in *.
  { exists i, 0%nat, 0%nat. cbn [repeat]. rewrite !app_nil_r.
    split; [|left; split; [exact Ht1 | exact Ha1]].
    rewrite Hs1, posts_app, posts_repeat_post. reflexivity. }
  match goal with
  | |- context [Bot.checkOrderStatus cfg id1 ?b0] => set (s1p := b0)
  end.
  destruct (checkOrderStatus_quiet id1 s1p) as (Ht2 & Ha2 & Hs2).
  destruct (Bot.checkOrderStatus cfg id1 s1p) as [[e2|orderStatus] s2];
    cbn [fst snd] in *.
  { exists i, 0%nat, 0%nat. cbn [repeat]. rewrite !app_nil_r.
    split; [|left; split; [rewrite Ht2; exact Ht1 | rewrite Ha2; exact Ha1]].
    rewrite Hs2. change (Bot.outboundOf s1p) with (Bot.outboundOf s1).
    rewrite Hs1, posts_app, posts_repeat_post. reflexivity. }
  assert (Hposts2 : posts (Bot.outboundOf s2)
                    = posts (Bot.outboundOf b) ++ repeat entry i).
  { rewrite Hs2. change (Bot.outboundOf s1p) with (Bot.outboundOf s1).
    rewrite Hs1, posts_app, posts_repeat_post. reflexivity. }
  assert (Htr2 : Bot.trades s2 = Bot.trades b) by (rewrite Ht2; exact Ht1).
  assert (Hac2 : Bot.activeTrades s2 = Bot.activeTrades b) by (rewrite Ha2; exact Ha1).
  destruct (Bot.isAborted orderStatus).
  { exists i, 0%nat, 0%nat. cbn [repeat snd]. rewrite !app_nil_r.
    split; [exact Hposts2 | left; split; assumption]. }
  destruct (withRetry_sent (CallPost takeProfit) (createAndPostOrder takeProfit)
              "take-profit-order" s2) as (j & Ht3 & Ha3 & Hs3 & Hok3).
  destruct (Bot.withRetry cfg (invoke (CallPost takeProfit) _) _ s2)
    as [[e3|id3] s3]; cbn [fst snd] in *.
  { exists i, j, 0%nat. cbn [repeat]. rewrite !app_nil_r.
    split; [|left; split; [rewrite Ht3; exact Htr2 | rewrite Ha3; exact Hac2]].
    rewrite Hs3, posts_app, posts_repeat_post, Hposts2, <- app_assoc. reflexivity. }
  destruct (withRetry_sent (CallPost stopLoss) (createAndPostOrder stopLoss)
              "stop-loss-order" s3) as (k & Ht4 & Ha4 & Hs4 & Hok4).
  destruct (Bot.withRetry cfg (invoke (CallPost stopLoss) _) _ s3)
    as [[e4|id4] s4]; cbn [fst snd] in *.
  { exists i, j, k.
    split; [|left; split; [rewrite Ht4, Ht3; exact Htr2 | rewrite Ha4, Ha3; exact Hac2]].
    rewrite Hs4, posts_app, posts_repeat_post, Hs3, posts_app, posts_repeat_post,
      Hposts2, <- !app_assoc. reflexivity. }
  exists i, j, k. split.
  - change (posts (Bot.outboundOf s4) = posts (Bot.outboundOf b) ++
            repeat entry i ++ repeat takeProfit j ++ repeat stopLoss k).
    rewrite Hs4, posts_app, posts_repeat_post, Hs3, posts_app, posts_repeat_post,
      Hposts2, <- !app_assoc. reflexivity.
  - right. splits; [now apply (Hok1 id1) | now apply (Hok3 id3) | now apply (Hok4 id4) |].
    eexists.
    cbn [Bot.trades Bot.activeTrades Bot.setActiveTrades Bot.setTrades].
    unfold Bot.freshRef.
    rewrite Ht4, Ht3, Htr2, Ha4, Ha3, Hac2.
    split; [reflexivity|]. splits; reflexivity.
Qed.
End Enhanced.

(** Prices equal as numbers, position by position. *)
Local Abbreviation sameNumbers := (Forall2 Qeq).

(** C3.  [executeTrade] of either loop, for an opportunity at market price
    [p > 0] and a notional [N] (the configured trade amount in the first
    loop, the recommended size in the enhanced one), sends no other order
    than the entry [BUY] at [p * 1.01], the take-profit [SELL] at
    [min(p + takeProfitAmount, 0.99)] and the stop-loss [SELL] at
    [max(p - stopLossAmount, 0.01)], each for [N / p] shares and in this
    order (a retried order is sent again); when the trade is recorded all
    three were sent and the record holds [p], these two exit prices and the
    notional.  For [p = 0.70], [N = 5] and the default offsets 0.01 and
    0.005 the three orders are priced 0.707, 0.71 and 0.695. *)
Theorem executeTrade_prices :
  (forall (V : Type) (C : Client V) (cfg : BasicBot.Config)
          (opp : BasicBot.TradeOpportunity) (b : BasicBot.Bot V),
      0 < BasicBot.polymarketPrice opp ->
      let p := BasicBot.polymarketPrice opp in
      let n := BasicBot.tradeAmount cfg in
      let entry := {| tokenID := BasicBot.oTokenId opp; price := p * 1.01;
                      size := n / p; side := BUY |} in
      let takeProfit := {| tokenID := BasicBot.oTokenId opp;
                           price := Qmin (p + BasicBot.takeProfitAmount cfg) 0.99;
                           size := n / p; side := SELL |} in
      let stopLoss := {| tokenID := BasicBot.oTokenId opp;
                         price := Qmax (p - BasicBot.stopLossAmount cfg) 0.01;
                         size := n / p; side := SELL |} in
      let b' := snd (BasicBot.executeTrade cfg opp b) in
      exists i j k : nat,
        posts (BasicBot.outboundOf b')
          = posts (BasicBot.outboundOf b)
            ++ repeat entry i ++ repeat takeProfit j ++ repeat stopLoss k /\
        (BasicBot.activeTrades b' = BasicBot.activeTrades b \/
         (1 <= i)%nat /\ (1 <= j)%nat /\ (1 <= k)%nat /\
         exists t, BasicBot.activeTrades b' = BasicBot.activeTrades b ++ [t] /\
                   BasicBot.buyPrice t = p /\
                   BasicBot.targetPrice t = price takeProfit /\
                   BasicBot.stopPrice t = price stopLoss /\
                   BasicBot.amount t = n)) /\
  (forall (V : Type) (C : Client V) (cfg : Bot.Config)
          (opp : Bot.TradeOpportunity) (b : Bot.Bot V),
      0 < Bot.polymarketPrice opp ->
      let p := Bot.polymarketPrice opp in
      let n := Bot.recommendedSize opp in
      let entry := {| tokenID := Bot.oTokenId opp; price := p * 1.01;
                      size := n / p; side := BUY |} in
      let takeProfit := {| tokenID := Bot.oTokenId opp;
                           price := Qmin (p + Bot.takeProfitAmount cfg) 0.99;
                           size := n / p; side := SELL |} in
      let stopLoss := {| tokenID := Bot.oTokenId opp;
                         price := Qmax (p - Bot.stopLossAmount cfg) 0.01;
                         size := n / p; side := SELL |} in
      let b' := snd (Bot.executeTrade cfg opp b) in
      exists i j k : nat,
        posts (Bot.outboundOf b')
          = posts (Bot.outboundOf b)
            ++ repeat entry i ++ repeat takeProfit j ++ repeat stopLoss k /\
        (Bot.trades b' = Bot.trades b /\ Bot.activeTrades b' = Bot.activeTrades b \/
         (1 <= i)%nat /\ (1 <= j)%nat /\ (1 <= k)%nat /\
         exists t, Bot.trades b' = Bot.trades b ++ [t] /\
                   Bot.activeTrades b' = Bot.activeTrades b ++ [length (Bot.trades b)] /\
                   Bot.buyPrice t = p /\
                   Bot.targetPrice t = price takeProfit /\
                   Bot.stopPrice t = price stopLoss /\
                   Bot.shares t = n / p /\
                   Bot.amount t = n /\
                   Bot.status t = Bot.filled)) /\
  (let b' := snd (BasicBot.executeTrade (H := paperClient) BasicBot.defaultConfig
                    BasicBot.scenarioOpportunity
                    (BasicBot.scenarioBot 1700000000000 31000)) in
   sameNumbers (map price (posts (BasicBot.outboundOf b'))) [0.707; 0.71; 0.695] /\
   sameNumbers (map size (posts (BasicBot.outboundOf b'))) [5 / 0.7; 5 / 0.7; 5 / 0.7] /\
   map side (posts (BasicBot.outboundOf b')) = [BUY; SELL; SELL] /\
   sameNumbers (map BasicBot.targetPrice (BasicBot.activeTrades b')) [0.71] /\
   sameNumbers (map BasicBot.stopPrice (BasicBot.activeTrades b')) [0.695]) /\
  (let b' := snd (Bot.executeTrade (H := paperClient) Bot.defaultConfig
                    Bot.scenarioOpportunity
                    (Bot.scenarioBot 1700000000000 31000)) in
   sameNumbers (map price (posts (Bot.outboundOf b'))) [0.707; 0.71; 0.695] /\
   sameNumbers (map size (posts (Bot.outboundOf b'))) [5 / 0.7; 5 / 0.7; 5 / 0.7] /\
   map side (posts (Bot.outboundOf b')) = [BUY; SELL; SELL] /\
   sameNumbers (map Bot.targetPrice (Bot.trades b')) [0.71] /\
   sameNumbers (map Bot.stopPrice (Bot.trades b')) [0.695] /\
   Bot.activeTrades b' = [0%nat]).
Proof.
  split; [|split; [|split]].
  - intros V C cfg opp b _. apply basic_executeTrade.
  - intros V C cfg opp b _. apply enhanced_executeTrade.
  - vm_compute. splits; repeat constructor.
  - vm_compute. splits; repeat constructor.
Qed.

Lemma executeTrade_prices_witness :
  0 < Bot.polymarketPrice Bot.scenarioOpportunity /\
  exists i j k : nat,
    posts (Bot.outboundOf
             (snd (Bot.executeTrade (H := paperClient) Bot.defaultConfig
                     Bot.scenarioOpportunity (Bot.scenarioBot 1700000000000 31000))))
    = posts (Bot.outboundOf (Bot.scenarioBot 1700000000000 31000))
      ++ repeat {| tokenID := "up"; price := 0.7 * 1.01; size := 5 / 0.7; side := BUY |} i
      ++ repeat {| tokenID := "up"; price := Qmin (0.7 + 0.01) 0.99;
                   size := 5 / 0.7; side := SELL |} j
      ++ repeat {| tokenID := "up"; price := Qmax (0.7 - 0.005) 0.01;
                   size := 5 / 0.7; side := SELL |} k.
Proof.
  assert (Hp : 0 < Bot.polymarketPrice Bot.scenarioOpportunity) by reflexivity.
  split; [exact Hp|].
  destruct (proj1 (proj2 executeTrade_prices) Paper paperClient Bot.defaultConfig
              Bot.scenarioOpportunity (Bot.scenarioBot 1700000000000 31000) Hp)
    as (i & j & k & Hposts & _).
  exists i, j, k. exact Hposts.
Defined.

End BotFacts.


(* ===================================================================== *)
(** * Further properties *)
(* ===================================================================== *)

(** ** The ledger *)

Module LedgerFacts.

Import Num PnL NumFacts SumFacts.
Local Open Scope Q_scope.

Lemma ledgerOk_new : ledgerOk newTracker.
Proof. unfold ledgerOk, newTracker. cbn. splits; lra. Qed.

Lemma ledgerOk_record r t : ledgerOk t -> ledgerOk (recordTrade r t).
Proof.
  unfold ledgerOk, recordTrade. cbn [runningPnL peakPnL maxDrawdown].
  intros (H1 & H2 & H3 & H4). repeat case_cmp; splits; lra.
Qed.

Lemma ledgerOk_all rs t : ledgerOk t -> ledgerOk (recordAll rs t).
Proof.
  revert t. induction rs as [|r rs IH]; intros t Ht; [exact Ht|].
  cbn. apply IH, ledgerOk_record, Ht.
Qed.

Lemma recordAll_running rs t :
  runningPnL (recordAll rs t) == runningPnL t + sumQ (map pnl rs).
Proof.
  revert t. induction rs as [|r rs IH]; intros t.
  - unfold sumQ. cbn. ring.
  - change (recordAll (r :: rs) t) with (recordAll rs (recordTrade r t)).
    rewrite IH. cbn [map]. rewrite sumQ_cons. cbn [recordTrade runningPnL]. ring.
Qed.

(** The ledger after any sequence of results: the results in order, their
    sum as running P&L, a peak that is at least the running P&L and at least
    zero, and a maximum drawdown that is at least the present distance from
    the peak. *)
Theorem ledger_invariants :
  forall rs : list TradeResult,
    let t := recordAll rs newTracker in
    trades t = rs /\
    getTradeCount t = length rs /\
    getTotalPnL t == sumQ (map pnl rs) /\
    runningPnL t <= peakPnL t /\
    0 <= peakPnL t /\
    0 <= maxDrawdown t /\
    peakPnL t - runningPnL t <= maxDrawdown t.
Proof.
  intros rs t.
  assert (Htr : trades t = rs) by (subst t; apply PnLFacts.recordAll_trades).
  destruct (ledgerOk_all rs newTracker ledgerOk_new) as (H1 & H2 & H3 & H4).
  splits; try assumption.
  - unfold getTradeCount. now rewrite Htr.
  - unfold getTotalPnL. subst t. rewrite recordAll_running. cbn. ring.
Qed.

Lemma winning_streak rs t :
  Forall (fun r => 0 <= pnl r) rs ->
  peakPnL t == runningPnL t -> maxDrawdown t == 0 ->
  peakPnL (recordAll rs t) == runningPnL (recordAll rs t) /\
  maxDrawdown (recordAll rs t) == 0.
Proof.
  intros Hall. revert t. induction Hall as [|r rs Hr _ IH]; intros t Hp Hm.
  - split; assumption.
  - change (recordAll (r :: rs) t) with (recordAll rs (recordTrade r t)).
    apply IH; unfold recordTrade; cbn [runningPnL peakPnL maxDrawdown];
      (destruct (gtb (runningPnL t + pnl r) (peakPnL t)) eqn:E1;
       [apply gtb_true in E1 | apply gtb_false in E1]);
      repeat case_cmp; lra.
Qed.

(** A ledger that has only recorded wins (or break-even trades) has no
    drawdown and stands at its peak. *)
Theorem winning_ledger_no_drawdown :
  forall rs : list TradeResult,
    Forall (fun r => 0 <= pnl r) rs ->
    maxDrawdown (recordAll rs newTracker) == 0 /\
    peakPnL (recordAll rs newTracker) == runningPnL (recordAll rs newTracker).
Proof.
  intros rs Hall.
  destruct (winning_streak rs newTracker Hall) as [Hp Hm]; cbn; try reflexivity.
  split; assumption.
Qed.

Lemma winning_ledger_no_drawdown_witness :
  let rs := [sampleResult 2; sampleResult 0] in
  Forall (fun r => 0 <= pnl r) rs /\
  maxDrawdown (recordAll rs newTracker) == 0 /\
  peakPnL (recordAll rs newTracker) == runningPnL (recordAll rs newTracker).
Proof.
  cbv zeta.
  assert (H : Forall (fun r => 0 <= pnl r)
                [sampleResult 2; sampleResult 0]).
  { repeat constructor; cbn; lra. }
  split; [exact H | exact (winning_ledger_no_drawdown _ H)].
Defined.

(** *** Statistics *)

Lemma filter_partition (rs : list TradeResult) :
  (length (List.filter (fun r => gtb (pnl r) 0) rs)
   + length (List.filter (fun r => leb (pnl r) 0) rs))%nat = length rs.
Proof.
  induction rs as [|r rs IH]; [reflexivity|]. cbn [List.filter].
  unfold gtb, leb in *. destruct (Qle_bool (pnl r) 0); cbn [negb length]; lia.
Qed.

Lemma ofNat_le n m : (n <= m)%nat -> ofNat n <= ofNat m.
Proof. intros H. unfold ofNat. rewrite <- Zle_Qle. lia. Qed.

Lemma ofNat_nonneg n : 0 <= ofNat n.
Proof. apply (ofNat_le 0 n). lia. Qed.

Lemma ratio_percent w n :
  (w <= n)%nat -> (0 < n)%nat ->
  0 <= ofNat w / ofNat n * 100 /\ ofNat w / ofNat n * 100 <= 100.
Proof.
  intros Hwn Hn.
  pose proof (ofNat_pos n Hn) as Hpos.
  pose proof (ofNat_nonneg w) as Hw.
  pose proof (ofNat_le w n Hwn) as Hle.
  assert (H0 : 0 <= ofNat w / ofNat n).
  { apply Qle_shift_div_l; [exact Hpos | lra]. }
  assert (H1 : ofNat w / ofNat n <= 1).
  { apply Qle_shift_div_r; [exact Hpos | lra]. }
  split; lra.
Qed.

Lemma share_of_total (x n : Q) :
  1 <= n ->
  (0 <= x -> 0 <= x / n /\ x / n <= x) /\
  (x <= 0 -> x <= x / n /\ x / n <= 0).
Proof.
  intros Hn.
  assert (Hpos : 0 < n) by lra.
  split; intros Hx.
  - split.
    + apply Qle_shift_div_l; [exact Hpos | lra].
    + apply Qle_shift_div_r; [exact Hpos | nra].
  - split.
    + apply Qle_shift_div_l; [exact Hpos | nra].
    + apply Qle_shift_div_r; [exact Hpos | lra].
Qed.

Lemma winners_nonneg (rs : list TradeResult) :
  0 <= sumQ (map pnl (List.filter (fun r => gtb (pnl r) 0) rs)).
Proof.
  apply sumQ_nonneg. apply List.Forall_forall. intros x Hx.
  apply in_map_iff in Hx. destruct Hx as (r & <- & Hr).
  apply filter_In in Hr. destruct Hr as [_ Hr]. apply gtb_true in Hr. lra.
Qed.

(** The statistics of a ledger are consistent with what was recorded: the
    trades are the winners (P&L above zero) plus the losers, the win rate is
    a percentage, the total P&L is the running P&L of the ledger, the
    average P&L has the sign of the total and lies between zero and the
    total, and the average win and the average loss are reported as
    magnitudes, zero when there is no such trade.  This holds for the empty
    ledger as well. *)
Theorem getStats_counts_and_signs :
  forall rs : list TradeResult,
    let t := recordAll rs newTracker in
    let s := getStats t in
    totalTrades s = length rs /\
    winningTrades s = length (List.filter (fun r => gtb (pnl r) 0) rs) /\
    (winningTrades s + losingTrades s)%nat = totalTrades s /\
    (exists rate, winRate s = Fin rate /\ 0 <= rate /\ rate <= 100) /\
    (exists total average,
        totalPnL s = Fin total /\ averagePnL s = Fin average /\
        total == getTotalPnL t /\
        (0 <= total -> 0 <= average /\ average <= total) /\
        (total <= 0 -> total <= average /\ average <= 0)) /\
    (exists win loss,
        averageWin s = Fin win /\ averageLoss s = Fin loss /\
        0 <= win /\ 0 <= loss /\
        (winningTrades s = 0%nat -> win == 0) /\
        (losingTrades s = 0%nat -> loss == 0)).
Proof.
  intros rs t s.
  assert (Htr : trades t = rs) by (subst t; apply PnLFacts.recordAll_trades).
  subst s. unfold getStats. rewrite Htr.
  destruct rs as [|r rs'] eqn:Ers.
  - cbn [length Nat.eqb zeroStats totalTrades winningTrades losingTrades winRate
         totalPnL averagePnL averageWin averageLoss List.filter].
    splits; [reflexivity | reflexivity | reflexivity
             | exists 0; splits; [reflexivity | lra | lra] | |].
    + exists 0, 0. splits; try reflexivity; intros; split; lra.
    + exists 0, 0. splits; try reflexivity; lra.
  - rewrite <- Ers in *.
    assert (Hlen : (0 < length rs)%nat) by (rewrite Ers; cbn; lia).
    replace (length rs =? 0)%nat with false by (symmetry; apply Nat.eqb_neq; lia).
    unfold statsBody. rewrite Htr.
    cbn [totalTrades winningTrades losingTrades winRate totalPnL averagePnL
         averageWin averageLoss].
    pose proof (filter_partition rs) as Hpart.
    splits; [reflexivity | reflexivity | exact Hpart | | |].
    + rewrite div_finite by now apply ofNat_nonzero.
      cbn [scale]. eexists. split; [reflexivity|].
      apply ratio_percent; lia.
    + rewrite div_finite by now apply ofNat_nonzero.
      exists (runningPnL t), (runningPnL t / ofNat (length rs)).
      splits; [reflexivity | reflexivity | reflexivity | |];
        apply share_of_total; apply (ofNat_le 1 (length rs)); lia.
    + set (winning := List.filter (fun r => gtb (pnl r) 0) rs).
      set (losing := List.filter (fun r => leb (pnl r) 0) rs).
      pose proof (winners_nonneg rs) as Hw. fold winning in Hw.
      pose proof (Qabs_nonneg (sumQ (map pnl losing))) as Hl.
      destruct (length winning) as [|w] eqn:Ew;
        destruct (length losing) as [|l] eqn:El;
        cbn [Nat.ltb Nat.leb];
        rewrite ?div_finite by (apply ofNat_nonzero; lia);
        eexists; eexists;
        (split; [reflexivity | split; [reflexivity|]]);
        splits; try lra; try (intros; lra); try (intros; lia);
        try (intros _; reflexivity);
        apply Qle_shift_div_l; try (apply ofNat_pos; lia); lra.
Qed.

Lemma getStats_counts_and_signs_witness :
  let t := recordAll [sampleResult 2; sampleResult (-3)] newTracker in
  getTotalPnL t <= 0 /\
  exists average, averagePnL (getStats t) = Fin average /\ average <= 0.
Proof.
  cbv zeta.
  assert (H : getTotalPnL (recordAll [sampleResult 2; sampleResult (-3)] newTracker)
              <= 0) by (vm_compute; discriminate).
  pose proof (getStats_counts_and_signs [sampleResult 2; sampleResult (-3)]) as Hs.
  cbv zeta in Hs.
  destruct Hs as (_ & _ & _ & _ & (total & average & _ & Havg & Htot & _ & Hneg) & _).
  split; [exact H|].
  exists average. split; [exact Havg|].
  assert (Hle : total <= 0) by (rewrite Htot; exact H).
  exact (proj2 (Hneg Hle)).
Defined.

(** With at least one trade recorded, [bestTrade] and [worstTrade] are the
    largest and the smallest recorded P&L: both are finite, both are the P&L
    of a recorded trade, and every recorded P&L lies between them. *)
Theorem getStats_extrema :
  forall (r : TradeResult) (rs : list TradeResult),
    let s := getStats (recordAll (r :: rs) newTracker) in
    exists best worst,
      bestTrade s = Fin best /\ worstTrade s = Fin worst /\
      Forall (fun x => worst <= pnl x /\ pnl x <= best) (r :: rs) /\
      Exists (fun x => pnl x == best) (r :: rs) /\
      Exists (fun x => pnl x == worst) (r :: rs).
Proof.
  intros r rs s. subst s. unfold getStats.
  rewrite PnLFacts.recordAll_trades. cbn [newTracker trades app length Nat.eqb].
  unfold statsBody. rewrite PnLFacts.recordAll_trades.
  cbn [newTracker trades app bestTrade worstTrade map mathMax mathMin].
  destruct (fold_Qmax_bounds (map pnl rs) (pnl r)) as (Hx1 & Hx2 & Hx3).
  destruct (fold_Qmin_bounds (map pnl rs) (pnl r)) as (Hn1 & Hn2 & Hn3).
  eexists. eexists. splits; [reflexivity | reflexivity | | |].
  - constructor; [split; assumption|].
    apply List.Forall_forall. intros x Hx.
    rewrite List.Forall_forall in Hx2, Hn2.
    split; [apply Hn2 | apply Hx2]; now apply in_map.
  - change (pnl r :: map pnl rs) with (map pnl (r :: rs)) in Hx3.
    apply List.Exists_exists in Hx3. destruct Hx3 as (y & Hy & Hyeq).
    apply in_map_iff in Hy. destruct Hy as (x & <- & Hx).
    apply List.Exists_exists. exists x. split; assumption.
  - change (pnl r :: map pnl rs) with (map pnl (r :: rs)) in Hn3.
    apply List.Exists_exists in Hn3. destruct Hn3 as (y & Hy & Hyeq).
    apply in_map_iff in Hy. destruct Hy as (x & <- & Hx).
    apply List.Exists_exists. exists x. split; assumption.
Qed.

(** [getRecentTrades(count)] with a positive [count] returns the newest
    [count] results in order, or all of them when fewer are recorded; with
    [count = 0] it returns all results, not none. *)
Theorem getRecentTrades_newest :
  forall (count : positive) (t : PnLTracker),
    (exists older, trades t = older ++ getRecentTrades (Z.pos count) t) /\
    length (getRecentTrades (Z.pos count) t)
      = Nat.min (Pos.to_nat count) (length (trades t)) /\
    getRecentTrades 0 t = trades t.
Proof.
  intros count t. unfold getRecentTrades, slice.
  change (- Z.pos count <? 0)%Z with true. change (- 0 <? 0)%Z with false.
  cbv iota. splits.
  - eexists. symmetry. apply firstn_skipn.
  - rewrite length_skipn. lia.
  - rewrite Z.min_l by lia. reflexivity.
Qed.

End LedgerFacts.

(* ===================================================================== *)
(** ** The rate limiter's clock *)
(* ===================================================================== *)

Module LimiterFacts.

Import RateLimiter.
Local Open Scope Z_scope.

Lemma waitForSlot_stamp :
  forall (S : Type) (minIntervalMs : Z) (key : string) (st : State S),
    let st' := waitForSlot minIntervalMs key st in
    lastCallTime st' !! key = Some (now (world st')) /\
    (forall other, other <> key ->
                   lastCallTime st' !! other = lastCallTime st !! other) /\
    now (world st) <= now (world st') /\
    minIntervalMs <= now (world st') - default 0 (lastCallTime st !! key) /\
    remote (world st') = remote (world st).
Proof.
  intros S minIntervalMs key st st'. subst st'. unfold waitForSlot.
  set (lastCall := default 0 (lastCallTime st !! key)). cbv zeta.
  destruct (now (world st) - lastCall <? minIntervalMs) eqn:E;
    cbn [sleep emit world lastCallTime now remote].
  - apply Z.ltb_lt in E. splits.
    + apply lookup_insert_eq.
    + intros other Hne. now apply lookup_insert_ne.
    + lia.
    + lia.
    + reflexivity.
  - apply Z.ltb_ge in E. splits.
    + apply lookup_insert_eq.
    + intros other Hne. now apply lookup_insert_ne.
    + lia.
    + lia.
    + reflexivity.
Qed.


Section Clock.

Context {S T : Type}.
Variable minIntervalMs : Z.
Variable config : RateLimiterConfig.
Variable fn : Thunk S T.
Variable operationName : string.

Lemma stamped_loop (n : nat) :
  forall (attempt : Z) (lastError : option Error) (st : State (list Z * S)),
    exists ts : list Z,
      fst (remote (world (snd (retryLoop minIntervalMs config (stamped fn)
                                 operationName n attempt lastError st))))
      = fst (remote (world st)) ++ ts /\
      spacedFrom minIntervalMs (default 0 (lastCallTime st !! operationName)) ts /\
      (length ts <= n)%nat.
Proof.
  induction n as [|n IH]; intros attempt lastError st.
  - exists []. cbn. rewrite app_nil_r. splits; [reflexivity | exact I | lia].
  - cbn [retryLoop].
    destruct (waitForSlot_stamp _ minIntervalMs operationName st)
      as (Hkey & _ & _ & Hgap & Hrem).
    set (st1 := waitForSlot minIntervalMs operationName st) in *.
    unfold stamped at 1.
    destruct (fn (mkWorld (now (world st1)) (snd (remote (world st1)))))
      as [[error|v] w'].
    + match goal with
      | |- context [retryLoop _ _ _ _ n (attempt + 1) (Some error) ?s3] =>
          set (st3 := s3)
      end.
      assert (Hlog : fst (remote (world st3))
                     = fst (remote (world st)) ++ [now (world st1)]).
      { subst st3. rewrite <- Hrem.
        destruct (attempt <? maxRetries config); [reflexivity|].
        destruct (isRateLimit error); reflexivity. }
      assert (Hlast : lastCallTime st3 = lastCallTime st1).
      { subst st3. destruct (attempt <? maxRetries config); [reflexivity|].
        destruct (isRateLimit error); reflexivity. }
      destruct (IH (attempt + 1) (Some error) st3) as (ts & Hts & Hsp & Hlen).
      exists (now (world st1) :: ts). splits.
      * rewrite Hts, Hlog, <- app_assoc. reflexivity.
      * cbn [spacedFrom]. split; [exact Hgap|].
        rewrite Hlast, Hkey in Hsp. exact Hsp.
      * cbn [length]. lia.
    + exists [now (world st1)]. cbn [snd emit world remote fst]. splits.
      * now rewrite Hrem.
      * cbn [spacedFrom]. split; [exact Hgap | exact I].
      * cbn. lia.
Qed.

Lemma waitForSlot_clock key (st : State S) :
  default 0 (lastCallTime st !! key) <= now (world st) ->
  now (world (waitForSlot minIntervalMs key st))
  <= now (world st) + Z.max 0 minIntervalMs.
Proof.
  intros Hpast. unfold waitForSlot. cbv zeta.
  destruct (_ <? _) eqn:E; cbn [sleep emit world now]; [apply Z.ltb_lt in E|]; lia.
Qed.

Variable d : Z.
Hypothesis fn_duration : forall w, now w <= now (snd (fn w)) <= now w + d.

Lemma loop_duration (n : nat) :
  forall (attempt : Z) (lastError : option Error) (st : State S),
    attempt + Z.of_nat n = maxRetries config + 1 ->
    default 0 (lastCallTime st !! operationName) <= now (world st) ->
    let st' := snd (retryLoop minIntervalMs config fn operationName
                      n attempt lastError st) in
    now (world st) <= now (world st') /\
    now (world st') <= now (world st)
                       + Z.of_nat n * (Z.max 0 minIntervalMs + d)
                       + Z.of_nat (n - 1) * Z.max 0 (maxDelayMs config).
Proof.
  induction n as [|n IH]; intros attempt lastError st Hn Hpast; cbv zeta.
  - cbn. lia.
  - cbn [retryLoop].
    destruct (waitForSlot_stamp _ minIntervalMs operationName st)
      as (Hkey & _ & Hfwd & _ & _).
    pose proof (waitForSlot_clock operationName st Hpast) as Hup.
    set (st1 := waitForSlot minIntervalMs operationName st) in *.
    pose proof (fn_duration (world st1)) as Hfn.
    destruct (fn (world st1)) as [[error|v] w]; cbn [snd] in Hfn.
    + match goal with
      | |- context [retryLoop _ _ _ _ n (attempt + 1) (Some error) ?s3] =>
          set (st3 := s3)
      end.
      assert (Hlast : lastCallTime st3 = lastCallTime st1).
      { subst st3. destruct (attempt <? maxRetries config); [reflexivity|].
        destruct (isRateLimit error); reflexivity. }
      assert (Hnow : now w <= now (world st3) /\
                     now (world st3)
                     <= now w + (if (0 <? Z.of_nat n) then Z.max 0 (maxDelayMs config) else 0)).
      { subst st3. destruct (attempt <? maxRetries config) eqn:E.
        - apply Z.ltb_lt in E.
          replace (0 <? Z.of_nat n) with true by (symmetry; apply Z.ltb_lt; lia).
          cbn [sleep emit world now]. unfold backoffDelay. lia.
        - apply Z.ltb_ge in E.
          replace (0 <? Z.of_nat n) with false by (symmetry; apply Z.ltb_ge; lia).
          destruct (isRateLimit error); cbn [emit world now]; lia. }
      destruct (IH (attempt + 1) (Some error) st3) as [Hlo Hhi]; [lia | |].
      { rewrite Hlast, Hkey. change (default 0 (Some ?x)) with x. lia. }
      destruct (0 <? Z.of_nat n) eqn:En;
        [apply Z.ltb_lt in En | apply Z.ltb_ge in En].
      * replace (Z.of_nat (Datatypes.S n - 1)) with (Z.of_nat (n - 1) + 1) by lia.
        split; [lia|]. nia.
      * assert (n = 0%nat) by lia. subst n. cbn in *. lia.
    + cbn [snd emit world now]. split; [lia|]. nia.
Qed.

End Clock.

(** The attempts of one [executeWithRetry] are spaced: a thunk that notes
    the time of each of its calls is called at most [maxRetries + 1] times,
    the first call no earlier than [minIntervalMs] after the previous use of
    the operation name, and every later call no earlier than
    [minIntervalMs] after the call before it. *)
Theorem attempts_spaced :
  forall (S T : Type) (minIntervalMs : Z) (config : RateLimiterConfig)
         (fn : Thunk S T) (operationName : string) (st : State (list Z * S)),
    let run := executeWithRetry minIntervalMs config (stamped fn) operationName st in
    exists ts : list Z,
      fst (remote (world (snd run))) = fst (remote (world st)) ++ ts /\
      spacedFrom minIntervalMs (default 0 (lastCallTime st !! operationName)) ts /\
      Z.of_nat (length ts) <= Z.max 0 (maxRetries config + 1).
Proof.
  intros S T minIntervalMs config fn operationName st run. subst run.
  unfold executeWithRetry.
  destruct (stamped_loop minIntervalMs config fn operationName
              (Z.to_nat (maxRetries config + 1)) 0 None st) as (ts & H1 & H2 & H3).
  exists ts. splits; [exact H1 | exact H2 | lia].
Qed.

(** How long [executeWithRetry] can take.  If the operation name was not
    last used in the future, the clock never runs backwards during a call
    of the thunk and a call takes at most [d] milliseconds, the whole
    operation ends within [(maxRetries + 1) * (minIntervalMs + d)
    + maxRetries * maxDelayMs] milliseconds (negative settings counting as
    0), whatever the thunk answers.  Timers are taken to fire exactly after
    their delay, as [sleep] has it. *)
Theorem executeWithRetry_duration :
  forall (S T : Type) (minIntervalMs : Z) (config : RateLimiterConfig)
         (fn : Thunk S T) (operationName : string) (st : State S) (d : Z),
    0 <= maxRetries config ->
    default 0 (lastCallTime st !! operationName) <= now (world st) ->
    (forall w, now w <= now (snd (fn w)) <= now w + d) ->
    let st' := snd (executeWithRetry minIntervalMs config fn operationName st) in
    now (world st) <= now (world st') /\
    now (world st') <= now (world st)
                       + (maxRetries config + 1) * (Z.max 0 minIntervalMs + d)
                       + maxRetries config * Z.max 0 (maxDelayMs config).
Proof.
  intros S T minIntervalMs config fn operationName st d Hretries Hpast Hfn.
  unfold executeWithRetry.
  pose proof (loop_duration minIntervalMs config fn operationName d Hfn
                (Z.to_nat (maxRetries config + 1)) 0 None st ltac:(lia) Hpast) as H.
  cbv zeta in *.
  replace (Z.of_nat (Z.to_nat (maxRetries config + 1))) with (maxRetries config + 1)
    in H by lia.
  replace (Z.of_nat (Z.to_nat (maxRetries config + 1) - 1)) with (maxRetries config)
    in H by lia.
  exact H.
Qed.

Lemma executeWithRetry_duration_witness :
  let st := initialState 1700000000000 0%nat in
  let st' := snd (executeWithRetry 100 DEFAULT_CONFIG (failingThunk 9) "API call" st) in
  now (world st) <= now (world st') /\
  now (world st') <= now (world st) + (4 + 1) * (Z.max 0 100 + 0) + 4 * Z.max 0 16000.
Proof.
  apply (executeWithRetry_duration nat nat 100 DEFAULT_CONFIG (failingThunk 9)
           "API call" (initialState 1700000000000 0%nat) 0).
  - cbn. lia.
  - vm_compute. discriminate.
  - intros w. unfold failingThunk. destruct (_ <=? _)%nat; cbn; lia.
Defined.

(** With a negative [maxRetries] the thunk is never called: the operation
    rejects at once with the generic "failed after ... attempts" error and
    changes nothing.  With any other setting the thunk is called at least
    once. *)
Theorem thunk_called_unless_negative :
  forall (S T : Type) (minIntervalMs : Z) (config : RateLimiterConfig)
         (fn : Thunk S T) (operationName : string) (st : State S),
    let run := executeWithRetry minIntervalMs config fn operationName st in
    (maxRetries config < 0 ->
     run = (inl (exhaustedError config operationName), st)) /\
    (0 <= maxRetries config ->
     exists evs, trace (snd run) = trace st ++ evs /\ attempts evs <> []).
Proof.
  intros S T minIntervalMs config fn operationName st run. subst run. split.
  - intros Hneg. unfold executeWithRetry.
    replace (Z.to_nat (maxRetries config + 1)) with 0%nat by lia. reflexivity.
  - intros Hpos.
    destruct (RateLimiterFacts.retryLoop_shape minIntervalMs config fn operationName
                (Z.to_nat (maxRetries config + 1)) 0 None st ltac:(lia))
      as (evs & Htr & errs & Hshape).
    fold (executeWithRetry minIntervalMs config fn operationName st) in Htr, Hshape.
    exists evs. split; [exact Htr|].
    destruct (fst (executeWithRetry minIntervalMs config fn operationName st)).
    + destruct Hshape as (Hatt & Hlen & _). rewrite Hatt.
      destruct errs; [cbn in Hlen; lia | discriminate].
    + destruct Hshape as (Hatt & _). rewrite Hatt.
      destruct (map Some errs); discriminate.
Qed.

Lemma thunk_called_unless_negative_witness :
  let off := {| maxRetries := -1; baseDelayMs := 1000; maxDelayMs := 16000 |} in
  let st := initialState 1700000000000 0%nat in
  executeWithRetry 100 off (failingThunk 0) "API call" st
  = (inl (exhaustedError off "API call"), st) /\
  exists evs,
    trace (snd (executeWithRetry 100 DEFAULT_CONFIG (failingThunk 0) "API call" st))
    = trace st ++ evs /\ attempts evs <> [].
Proof.
  cbv zeta. split.
  - apply (proj1 (thunk_called_unless_negative nat nat 100
                    {| maxRetries := -1; baseDelayMs := 1000; maxDelayMs := 16000 |}
                    (failingThunk 0) "API call" (initialState 1700000000000 0%nat))).
    cbn. lia.
  - apply (proj2 (thunk_called_unless_negative nat nat 100 DEFAULT_CONFIG
                    (failingThunk 0) "API call" (initialState 1700000000000 0%nat))).
    cbn. lia.
Defined.

End LimiterFacts.

(* ===================================================================== *)
(** ** The oracle's history, sources and probabilities *)
(* ===================================================================== *)

Module FeedFacts.

Import Num BitcoinOracle NumFacts.
Local Open Scope Q_scope.

(** The two ways a cycle ends. *)
Lemma fetchPrices_step answer ts (o : Oracle) :
  let prices := successfulPrices answer (exchanges o) in
  let point := {| price := medianOf prices; timestamp := ts; source := "median" |} in
  let o' := fetchPrices answer ts o in
  exchanges o' = exchanges o /\
  activeSources o' = snd (fetchAll answer (exchanges o) (activeSources o)) /\
  ((prices = [] /\ priceHistory o' = priceHistory o /\ currentPrice o' = currentPrice o) \/
   (prices <> [] /\ currentPrice o' = medianOf prices /\
    priceHistory o'
    = if (maxHistorySize <? length (priceHistory o ++ [point]))%nat
      then sliceLast maxHistorySize (priceHistory o ++ [point])
      else priceHistory o ++ [point])).
Proof.
  cbv zeta.
  pose proof (OracleFacts.fetchAll_prices answer ts (exchanges o) (activeSources o))
    as Hprices.
  unfold fetchPrices.
  destruct (fetchAll answer (exchanges o) (activeSources o)) as [results active].
  cbn [fst snd] in *.
  destruct (length (collect ts results) =? 0)%nat eqn:Elen.
  - apply Nat.eqb_eq in Elen. cbn [exchanges activeSources priceHistory currentPrice].
    splits; [reflexivity | reflexivity |]. left.
    splits; [|reflexivity|reflexivity].
    rewrite <- Hprices. destruct (collect ts results); [reflexivity | discriminate].
  - apply Nat.eqb_neq in Elen. cbn [exchanges activeSources priceHistory currentPrice].
    splits; [reflexivity | reflexivity |]. right. rewrite Hprices.
    splits; [|reflexivity|reflexivity].
    rewrite <- Hprices. destruct (collect ts results); [contradiction | discriminate].
Qed.

Lemma historyOk_step answer ts (o : Oracle) :
  historyOk o -> historyOk (fetchPrices answer ts o).
Proof.
  intros (Hall & Hlen & Hlast).
  destruct (fetchPrices_step answer ts o) as (_ & _ & [(_ & Hh & Hc)|(Hne & Hc & Hh)]).
  - unfold historyOk. rewrite Hh, Hc. splits; assumption.
  - set (prices := successfulPrices answer (exchanges o)) in *.
    set (point := {| price := medianOf prices; timestamp := ts; source := "median" |}) in *.
    assert (Hpoint : 0 < price point /\ source point = "median").
    { split; [|reflexivity]. cbn [point price].
      pose proof (OracleFacts.successfulPrices_positive answer (exchanges o)) as Hpos.
      rewrite List.Forall_forall in Hpos. apply Hpos.
      now apply OracleFacts.medianOf_in. }
    assert (Hall' : Forall (fun p => 0 < price p /\ source p = "median")
                      (priceHistory o ++ [point])).
    { apply Forall_app. split; [exact Hall | now constructor]. }
    pose proof OracleFacts.maxHistorySize_pos as Hpos.
    unfold historyOk. rewrite Hh, Hc.
    destruct (maxHistorySize <? length (priceHistory o ++ [point]))%nat eqn:E.
    + splits.
      * destruct (OracleFacts.sliceLast_suffix maxHistorySize (priceHistory o ++ [point]))
          as [Hsplit _].
        rewrite <- Hsplit in Hall'. apply Forall_app in Hall'. apply Hall'.
      * rewrite (proj2 (OracleFacts.sliceLast_suffix _ _)). lia.
      * now rewrite OracleFacts.sliceLast_snoc.
    + apply Nat.ltb_ge in E. splits; [exact Hall' | exact E |].
      now rewrite last_snoc.
Qed.

(** Whatever the exchanges answer over any number of cycles, the history of
    an oracle holds only positive median prices, never more than 1000 of
    them and never more than one per cycle, and [currentPrice] is the price
    of its newest point (0 while there is none). *)
Theorem history_invariants :
  forall (momentumWindow volatilityWindow : Z)
         (cycles : list ((string -> option Q) * Z)),
    let o := fetchCycles cycles (newOracle momentumWindow volatilityWindow) in
    Forall (fun p => 0 < price p /\ source p = "median") (priceHistory o) /\
    (length (priceHistory o) <= maxHistorySize)%nat /\
    (length (priceHistory o) <= length cycles)%nat /\
    match last (priceHistory o) with
    | Some p => currentPrice o = price p
    | None => currentPrice o = 0
    end.
Proof.
  intros mw vw cycles o. subst o.
  assert (Hgen : forall o0,
             historyOk o0 ->
             historyOk (fetchCycles cycles o0) /\
             (length (priceHistory (fetchCycles cycles o0))
              <= length (priceHistory o0) + length cycles)%nat).
  { induction cycles as [|[answer ts] rest IH]; intros o0 Hok.
    - cbn. split; [exact Hok | lia].
    - cbn [fetchCycles fold_left fst snd length].
      destruct (IH (fetchPrices answer ts o0) (historyOk_step answer ts o0 Hok))
        as [Hok' Hlen'].
      split; [exact Hok'|].
      unfold fetchCycles in Hlen'.
      assert (length (priceHistory (fetchPrices answer ts o0))
              <= length (priceHistory o0) + 1)%nat; [|lia].
      destruct (fetchPrices_step answer ts o0) as (_ & _ & [(_ & Hh & _)|(_ & _ & Hh)]);
        rewrite Hh; [lia|].
      destruct (maxHistorySize <? _)%nat eqn:E.
      + rewrite (proj2 (OracleFacts.sliceLast_suffix _ _)), length_app. cbn. lia.
      + rewrite length_app. cbn. lia. }
  destruct (Hgen (newOracle mw vw)) as [(H1 & H2 & H3) H4].
  { unfold historyOk. cbn. splits; [constructor | pose proof OracleFacts.maxHistorySize_pos; lia | reflexivity]. }
  cbn [newOracle priceHistory length] in H4.
  splits; [exact H1 | exact H2 | lia | exact H3].
Qed.

(** *** Active sources *)

Lemma elem_of_setAdd x y (l : list string) : x ∈ setAdd y l <-> x = y \/ x ∈ l.
Proof.
  unfold setAdd. destruct (bool_decide (y ∈ l)) eqn:E.
  - apply bool_decide_eq_true in E. split; [now right|].
    intros [->|H]; assumption.
  - rewrite elem_of_app, list_elem_of_singleton. tauto.
Qed.

Lemma elem_of_setDelete x y (l : list string) : x ∈ setDelete y l <-> x ∈ l /\ x <> y.
Proof.
  unfold setDelete. rewrite !list_elem_of_In, filter_In.
  rewrite negb_true_iff, bool_decide_eq_false. tauto.
Qed.

Lemma NoDup_setAdd y (l : list string) : NoDup l -> NoDup (setAdd y l).
Proof.
  intros Hl. unfold setAdd. destruct (bool_decide (y ∈ l)) eqn:E; [exact Hl|].
  apply bool_decide_eq_false in E.
  apply NoDup_app. splits; [exact Hl | | apply NoDup_singleton].
  intros x Hx Hy. apply list_elem_of_singleton in Hy. now subst.
Qed.

Lemma NoDup_setDelete y (l : list string) : NoDup l -> NoDup (setDelete y l).
Proof.
  intros Hl. unfold setDelete. apply NoDup_ListNoDup.
  apply List.NoDup_filter. now apply NoDup_ListNoDup.
Qed.

Lemma fetchAll_active answer (names : list string) :
  forall active : list string,
    (NoDup active -> NoDup (snd (fetchAll answer names active))) /\
    forall x, x ∈ snd (fetchAll answer names active) <->
              (x ∈ names /\ exists p, answer x = Some p /\ 0 < p) \/
              (x ∈ active /\ x ∉ names).
Proof.
  induction names as [|name rest IH]; intros active.
  - cbn. split; [auto|]. intros x. split.
    + intros H. right. split; [exact H | apply not_elem_of_nil].
    + intros [[H _]|[H _]]; [now apply elem_of_nil in H | exact H].
  - cbn [fetchAll].
    destruct (fetchOne answer name active) as [r active1] eqn:Eone.
    destruct (IH active1) as [IHnd IHin].
    destruct (fetchAll answer rest active1) as [rs active2]. cbn [snd] in *.
    assert (Hone : (NoDup active -> NoDup active1) /\
                   forall x, x ∈ active1 <->
                             (x = name /\ exists p, answer x = Some p /\ 0 < p) \/
                             (x ∈ active /\ x <> name)).
    { unfold fetchOne in Eone.
      destruct (answer name) as [p|] eqn:Ea.
      - destruct (gtb p 0) eqn:Eg; inversion Eone; subst.
        + apply gtb_true in Eg. split; [apply NoDup_setAdd|].
          intros x. rewrite elem_of_setAdd.
          destruct (decide (x = name)) as [->|Hne].
          * split; [|now left]. intros _. left. split; [reflexivity|]. now exists p.
          * split; [intros [?|?]; [contradiction | right; now split] | intros [[? _]|[? _]]; [contradiction | now right]].
        + apply gtb_false in Eg. split; [apply NoDup_setDelete|].
          intros x. rewrite elem_of_setDelete.
          split; [intros H; now right | intros [[-> (q & Hq & Hpos)]|H]; [|exact H]].
          rewrite Ea in Hq. inversion Hq; subst. lra.
      - inversion Eone; subst. split; [apply NoDup_setDelete|].
        intros x. rewrite elem_of_setDelete.
        split; [intros H; now right | intros [[-> (q & Hq & _)]|H]; [|exact H]].
        rewrite Ea in Hq. discriminate. }
    destruct Hone as [Hnd1 Hin1].
    split; [intros Hnd; apply IHnd, Hnd1, Hnd|].
    intros x. rewrite IHin, Hin1, !elem_of_cons.
    destruct (decide (x = name)) as [Heq|Hne]; destruct (decide (x ∈ rest)); tauto.
Qed.

(** After a fetch cycle the active sources are exactly the configured
    exchanges that answered with a positive price in this cycle, each listed
    once: an exchange that fails is dropped at once, one that recovers is
    back at once. *)
Theorem activeSources_exact :
  forall (answer : string -> option Q) (ts : Z) (o : Oracle),
    NoDup (activeSources o) ->
    activeSources o ⊆ exchanges o ->
    let o' := fetchPrices answer ts o in
    NoDup (activeSources o') /\
    activeSources o' ⊆ exchanges o' /\
    forall name, name ∈ activeSources o' <->
                 name ∈ exchanges o /\ exists p, answer name = Some p /\ 0 < p.
Proof.
  intros answer ts o Hnd Hsub o'. subst o'.
  destruct (fetchPrices_step answer ts o) as (Hex & Hact & _).
  destruct (fetchAll_active answer (exchanges o) (activeSources o)) as [Hnd' Hin].
  rewrite Hact, Hex.
  assert (Hiff : forall name,
             name ∈ snd (fetchAll answer (exchanges o) (activeSources o)) <->
             name ∈ exchanges o /\ exists p, answer name = Some p /\ 0 < p).
  { intros name. rewrite Hin. split; [|now left].
    intros [H|[H1 H2]]; [exact H|]. exfalso. apply H2, Hsub, H1. }
  splits; [now apply Hnd' | | exact Hiff].
  intros name Hname. now apply Hiff in Hname.
Qed.

Lemma activeSources_exact_witness :
  let o := newOracle 60 300 in
  NoDup (activeSources o) /\ activeSources o ⊆ exchanges o /\
  NoDup (activeSources (fetchPrices outlierAnswers 1700000000000 o)).
Proof.
  cbv zeta.
  assert (H1 : NoDup (activeSources (newOracle 60 300))) by (simpl; constructor).
  assert (H2 : activeSources (newOracle 60 300) ⊆ exchanges (newOracle 60 300)).
  { simpl. intros x Hx. inversion Hx. }
  split; [exact H1 | split; [exact H2|]].
  exact (proj1 (activeSources_exact outlierAnswers 1700000000000%Z _ H1 H2)).
Defined.

(** *** Looking up a past price *)

Lemma closestPoint_snoc (h : list PricePoint) (x : PricePoint) (t : Z) :
  closestPoint (h ++ [x]) t
  = match closestPoint h t with
    | None => Some (x, Z.abs (timestamp x - t))
    | Some (p, minDiff) =>
        if (Z.abs (timestamp x - t) <? minDiff)%Z
        then Some (x, Z.abs (timestamp x - t)) else Some (p, minDiff)
    end.
Proof.
  unfold closestPoint. rewrite fold_left_app. cbn [fold_left].
  destruct (fold_left _ h None) as [[p minDiff]|]; reflexivity.
Qed.

Lemma closestPoint_spec (h : list PricePoint) (t : Z) :
  match closestPoint h t with
  | None => h = []
  | Some (p, minDiff) =>
      In p h /\ minDiff = Z.abs (timestamp p - t) /\
      Forall (fun q => (minDiff <= Z.abs (timestamp q - t))%Z) h
  end.
Proof.
  induction h as [|x h IH] using rev_ind; [reflexivity|].
  rewrite closestPoint_snoc.
  destruct (closestPoint h t) as [[p minDiff]|].
  - destruct IH as (Hin & Hd & Hall).
    destruct (Z.abs (timestamp x - t) <? minDiff)%Z eqn:E.
    + apply Z.ltb_lt in E. splits; [apply in_or_app; right; now left | reflexivity |].
      apply Forall_app. split; [|constructor; [lia | constructor]].
      eapply Forall_impl; [exact Hall|]. cbv beta. intros q Hq. lia.
    + apply Z.ltb_ge in E. splits; [apply in_or_app; now left | exact Hd |].
      apply Forall_app. split; [exact Hall | constructor; [lia | constructor]].
  - subst h. splits; [now left | reflexivity | constructor; [lia | constructor]].
Qed.

(** [getPriceAtTime(targetTime)] answers with the price of a history point
    that is nearest in time to the target and less than 30 seconds away from
    it; when every point is 30 seconds or more away (or there is none) it
    answers 0. *)
Theorem getPriceAtTime_closest :
  forall (o : Oracle) (targetTime : Z),
    (getPriceAtTime o targetTime = 0 /\
     Forall (fun q => (30000 <= Z.abs (timestamp q - targetTime))%Z) (priceHistory o)) \/
    (exists p,
        In p (priceHistory o) /\ getPriceAtTime o targetTime = price p /\
        (Z.abs (timestamp p - targetTime) < 30000)%Z /\
        Forall (fun q => (Z.abs (timestamp p - targetTime)
                          <= Z.abs (timestamp q - targetTime))%Z) (priceHistory o)).
Proof.
  intros o t. unfold getPriceAtTime.
  pose proof (closestPoint_spec (priceHistory o) t) as Hspec.
  destruct (closestPoint (priceHistory o) t) as [[p minDiff]|].
  - destruct Hspec as (Hin & Hd & Hall).
    destruct (minDiff <? 30000)%Z eqn:E.
    + apply Z.ltb_lt in E. right. exists p. subst minDiff.
      splits; [exact Hin | reflexivity | exact E | exact Hall].
    + apply Z.ltb_ge in E. left. split; [reflexivity|].
      eapply Forall_impl; [exact Hall|]. cbv beta. intros q Hq. lia.
  - left. rewrite Hspec. split; [reflexivity | constructor].
Qed.

(** *** Probabilities *)

Lemma squash_cases (x : Q) :
  let y := if gtb x 0.8 then 0.8 + (x - 0.8) * 0.5 else x in
  let z := if ltb y 0.2 then 0.2 - (0.2 - y) * 0.5 else y in
  (0.8 < x /\ z == 0.8 + (x - 0.8) * 0.5) \/
  (x < 0.2 /\ z == 0.2 - (0.2 - x) * 0.5) \/
  (0.2 <= x /\ x <= 0.8 /\ z == x).
Proof.
  cbv zeta. destruct (gtb x 0.8) eqn:E1.
  - apply gtb_true in E1. left. split; [exact E1|].
    destruct (ltb _ 0.2) eqn:E2; [apply ltb_true in E2; lra | reflexivity].
  - apply gtb_false in E1. destruct (ltb x 0.2) eqn:E2.
    + apply ltb_true in E2. right. left. split; [exact E2 | reflexivity].
    + apply ltb_false in E2. right. right. splits; [exact E2 | exact E1 | reflexivity].
Qed.

Lemma clamp_cases (lo hi x : Q) :
  lo <= hi ->
  (x <= lo /\ Qmax lo (Qmin hi x) == lo) \/
  (hi <= x /\ Qmax lo (Qmin hi x) == hi) \/
  (lo <= x /\ x <= hi /\ Qmax lo (Qmin hi x) == x).
Proof.
  intros Hlh.
  destruct (Q.min_spec hi x) as [[H1 H2]|[H1 H2]];
    destruct (Q.max_spec lo (Qmin hi x)) as [[H3 H4]|[H3 H4]];
    rewrite H2 in *; rewrite H4.
  - right. left. split; [lra | reflexivity].
  - right. left. split; [lra|]. lra.
  - right. right. splits; [lra | lra | reflexivity].
  - left. split; [lra | reflexivity].
Qed.

Lemma volatilityFactor_range (v : Q) :
  0 <= Qmax 0 (1 - v / 10) /\ (0 <= v -> Qmax 0 (1 - v / 10) <= 1).
Proof.
  split; [apply Qmax_ge_l|]. intros Hv.
  apply Q.max_lub; [lra|].
  assert (0 <= v / 10) by (apply Qle_shift_div_l; lra). lra.
Qed.

Lemma pUp_shape (o : Oracle) (m v : Q) :
  let p := calculateProbabilities o m v in
  exists x z,
    x == 0.5 + m / 2 * Qmax 0 (1 - v / 10) /\
    ((0.8 < x /\ z == 0.8 + (x - 0.8) * 0.5) \/
     (x < 0.2 /\ z == 0.2 - (0.2 - x) * 0.5) \/
     (0.2 <= x /\ x <= 0.8 /\ z == x)) /\
    ((z <= 0.05 /\ pUp p == 0.05) \/
     (0.95 <= z /\ pUp p == 0.95) \/
     (0.05 <= z /\ z <= 0.95 /\ pUp p == z)) /\
    pDown p == 1 - pUp p.
Proof.
  cbv zeta. unfold calculateProbabilities. cbn [pUp pDown].
  eexists. eexists.
  split; [|split; [apply squash_cases | split; [apply clamp_cases; lra | reflexivity]]].
  field.
Qed.

Ltac shape_cases H :=
  let Hx := fresh "Hx" in
  let Hz := fresh "Hz" in
  let Hp := fresh "Hp" in
  let Hd := fresh "Hd" in
  destruct H as (? & ? & Hx & Hz & Hp & Hd);
  destruct Hz as [[? Hz]|[[? Hz]|(? & ? & Hz)]];
  destruct Hp as [[? Hp]|[[? Hp]|(? & ? & Hp)]].

(** The probabilities follow the direction of the momentum: a momentum that
    is not negative never gives [probUp] below one half nor [probDown] above
    it, a momentum that is not positive the reverse; without momentum, or at
    a volatility of 10 or more, both are exactly one half; and both always
    stay between 0.05 and 0.95. *)
Theorem probabilities_follow_momentum :
  forall (o : Oracle) (momentum volatility : Q),
    let p := calculateProbabilities o momentum volatility in
    (0 <= momentum -> 0.5 <= pUp p /\ pDown p <= 0.5) /\
    (momentum <= 0 -> pUp p <= 0.5 /\ 0.5 <= pDown p) /\
    (momentum == 0 \/ 10 <= volatility -> pUp p == 0.5 /\ pDown p == 0.5) /\
    0.05 <= pUp p /\ pUp p <= 0.95 /\ 0.05 <= pDown p /\ pDown p <= 0.95.
Proof.
  intros o m v p. subst p.
  pose proof (pUp_shape o m v) as H1. cbv zeta in H1.
  destruct (volatilityFactor_range v) as [Hf0 _].
  assert (Hm : m / 2 == m * (1#2)) by field.
  assert (Hup : 0 <= m -> 0 <= m / 2 * Qmax 0 (1 - v / 10)).
  { intros Hge. rewrite Hm. set (f := Qmax 0 (1 - v / 10)) in *. nra. }
  assert (Hdown : m <= 0 -> m / 2 * Qmax 0 (1 - v / 10) <= 0).
  { intros Hle. rewrite Hm. set (f := Qmax 0 (1 - v / 10)) in *. nra. }
  assert (Hflat : m == 0 \/ 10 <= v -> m / 2 * Qmax 0 (1 - v / 10) == 0).
  { intros [Hz | Hv].
    - rewrite Hz. field.
    - assert (Hf : Qmax 0 (1 - v / 10) == 0).
      { apply Q.max_l.
        assert (1 <= v / 10) by (apply Qle_shift_div_l; lra). lra. }
      rewrite Hf. ring. }
  set (k := m / 2 * Qmax 0 (1 - v / 10)) in *.
  splits.
  - intros Hge. specialize (Hup Hge). shape_cases H1; split; lra.
  - intros Hle. specialize (Hdown Hle). shape_cases H1; split; lra.
  - intros Hz. specialize (Hflat Hz). shape_cases H1; split; lra.
  - shape_cases H1; lra.
  - shape_cases H1; lra.
  - shape_cases H1; lra.
  - shape_cases H1; lra.
Qed.

Lemma probabilities_follow_momentum_witness :
  let p := calculateProbabilities (newOracle 60 300) (1#4) 2 in
  0 <= 1#4 /\ 0.5 <= pUp p /\ pDown p <= 0.5.
Proof.
  cbv zeta.
  assert (H : 0 <= 1#4) by lra.
  pose proof (probabilities_follow_momentum (newOracle 60 300) (1#4) 2) as Hp.
  cbv zeta in Hp. destruct Hp as [Hup _].
  split; [exact H | exact (Hup H)].
Defined.

(** A larger momentum never gives a smaller [probUp]. *)
Theorem probUp_monotone :
  forall (o : Oracle) (m1 m2 volatility : Q),
    m1 <= m2 ->
    pUp (calculateProbabilities o m1 volatility)
    <= pUp (calculateProbabilities o m2 volatility).
Proof.
  intros o m1 m2 v Hm.
  pose proof (pUp_shape o m1 v) as H1. pose proof (pUp_shape o m2 v) as H2.
  cbv zeta in *.
  assert (Hk : m1 / 2 * Qmax 0 (1 - v / 10) <= m2 / 2 * Qmax 0 (1 - v / 10)).
  { apply Qmult_le_compat_r; [|apply Qmax_ge_l].
    unfold Qdiv. apply Qmult_le_compat_r; [exact Hm | discriminate]. }
  set (k1 := m1 / 2 * Qmax 0 (1 - v / 10)) in *.
  set (k2 := m2 / 2 * Qmax 0 (1 - v / 10)) in *.
  shape_cases H1; shape_cases H2; lra.
Qed.

Lemma probUp_monotone_witness :
  -(1#2) <= 1#4 /\
  pUp (calculateProbabilities (newOracle 60 300) (-(1#2)) 2)
  <= pUp (calculateProbabilities (newOracle 60 300) (1#4) 2).
Proof.
  assert (H : -(1#2) <= 1#4) by lra.
  split; [exact H | exact (probUp_monotone (newOracle 60 300) _ _ 2 H)].
Defined.

(** For a momentum between -1 and 1 (as [calculateMomentum] returns it) and
    a volatility that is not negative, [probUp] stays between 0.1 and 0.9,
    so the final clamp to [0.05, 0.95] never applies, and the confidence is
    between 0 and 1. *)
Theorem probabilities_in_range :
  forall (o : Oracle) (momentum volatility : Q),
    -1 <= momentum -> momentum <= 1 -> 0 <= volatility ->
    let p := calculateProbabilities o momentum volatility in
    0.1 <= pUp p /\ pUp p <= 0.9 /\ 0 <= pConfidence p /\ pConfidence p <= 1.
Proof.
  intros o m v Hlo Hhi Hv p. subst p.
  pose proof (pUp_shape o m v) as H1. cbv zeta in H1.
  destruct (volatilityFactor_range v) as [Hf0 Hf1]. specialize (Hf1 Hv).
  assert (Hk : -(1#2) <= m / 2 * Qmax 0 (1 - v / 10) /\
               m / 2 * Qmax 0 (1 - v / 10) <= 1#2).
  { set (f := Qmax 0 (1 - v / 10)) in *.
    assert (Hm : m / 2 == m * (1#2)) by field. rewrite Hm. split; nra. }
  set (k := m / 2 * Qmax 0 (1 - v / 10)) in *.
  assert (Hup : 0.1 <= pUp (calculateProbabilities o m v) /\
                pUp (calculateProbabilities o m v) <= 0.9).
  { shape_cases H1; lra. }
  split; [apply Hup | split; [apply Hup|]].
  unfold calculateProbabilities. cbn [pConfidence].
  set (a := Qmin (ofNat (length (priceHistory o)) / 60) 1).
  set (b := Qmin (ofNat (length (activeSources o)) / 2) 1).
  set (c := Qmax 0.3 (1 - v / 20)).
  assert (Ha : 0 <= a /\ a <= 1).
  { subst a. split; [|apply Q.le_min_r].
    apply Q.min_glb; [|lra].
    apply Qle_shift_div_l; [lra|].
    pose proof (LedgerFacts.ofNat_nonneg (length (priceHistory o))). lra. }
  assert (Hb : 0 <= b /\ b <= 1).
  { subst b. split; [|apply Q.le_min_r].
    apply Q.min_glb; [|lra].
    apply Qle_shift_div_l; [lra|].
    pose proof (LedgerFacts.ofNat_nonneg (length (activeSources o))). lra. }
  assert (Hc : 0 <= c /\ c <= 1).
  { subst c. split.
    - eapply Qle_trans; [|apply Qmax_ge_l]. lra.
    - apply Q.max_lub; [lra|].
      assert (0 <= v / 20) by (apply Qle_shift_div_l; lra). lra. }
  assert (Hab : 0 <= a * b /\ a * b <= 1) by (split; nra).
  split; nra.
Qed.

Lemma probabilities_in_range_witness :
  -1 <= 1#4 /\ 1#4 <= 1 /\ 0 <= 2 /\
  0.1 <= pUp (calculateProbabilities (newOracle 60 300) (1#4) 2).
Proof.
  assert (H1 : -1 <= 1#4) by lra.
  assert (H2 : 1#4 <= 1) by lra.
  assert (H3 : 0 <= 2) by lra.
  split; [exact H1 | split; [exact H2 | split; [exact H3|]]].
  exact (proj1 (probabilities_in_range (newOracle 60 300) _ _ H1 H2 H3)).
Defined.

(** *** The regression of [calculateMomentum] *)

Lemma ofNat_S (n : nat) : ofNat (Datatypes.S n) == ofNat n + 1.
Proof.
  unfold ofNat. rewrite Nat2Z.inj_succ, <- Z.add_1_r, inject_Z_plus. reflexivity.
Qed.

Lemma regressionSums_snoc (xs : list PricePoint) (p : PricePoint) :
  forall (i : nat) (acc : Q * Q * Q * Q),
    regressionSums i (xs ++ [p]) acc
    = let '(sumX, sumY, sumXY, sumX2) := regressionSums i xs acc in
      let x := ofNat (i + length xs) in
      (sumX + x, sumY + price p, sumXY + x * price p, sumX2 + x * x).
Proof.
  induction xs as [|q xs IH]; intros i [[[a b] c] e].
  - cbn. rewrite Nat.add_0_r. reflexivity.
  - cbn [app regressionSums length]. rewrite IH.
    replace (Datatypes.S i + length xs)%nat with (i + Datatypes.S (length xs))%nat by lia.
    reflexivity.
Qed.

Lemma regressionSums_closed (pts : list PricePoint) :
  Forall (fun p => 0 < price p) pts ->
  exists sumX sumY sumXY sumX2,
    regressionSums 0 pts (0, 0, 0, 0) = (sumX, sumY, sumXY, sumX2) /\
    2 * sumX == ofNat (length pts) * (ofNat (length pts) - 1) /\
    6 * sumX2 == (ofNat (length pts) - 1) * ofNat (length pts)
                 * (2 * ofNat (length pts) - 1) /\
    0 <= sumY /\ (pts <> [] -> 0 < sumY).
Proof.
  induction pts as [|p pts IH] using rev_ind; intros Hpos.
  - exists 0, 0, 0, 0. cbn. splits; [reflexivity | reflexivity | reflexivity | lra | congruence].
  - apply Forall_app in Hpos. destruct Hpos as [Hpts Hp].
    apply Forall_inv in Hp.
    destruct (IH Hpts) as (sumX & sumY & sumXY & sumX2 & Heq & HX & HX2 & HY & _).
    rewrite regressionSums_snoc, Heq. cbv zeta. cbn [Nat.add].
    do 4 eexists. split; [reflexivity|].
    rewrite length_app. cbn [length]. rewrite Nat.add_1_r, ofNat_S.
    set (n := ofNat (length pts)) in *.
    splits; [lra | | lra | intros _; lra].
    transitivity (6 * sumX2 + 6 * (n * n)); [ring|]. rewrite HX2. ring.
Qed.

(** On a history of positive prices [calculateMomentum] never divides by
    zero: with two or more points in the window both the divisor of the
    regression slope and the average price are positive. *)
Theorem momentum_divisors_positive :
  forall (o : Oracle) (now : Z),
    Forall (fun p => 0 < price p) (priceHistory o) ->
    (2 <= length (recentPrices o now (momentumWindow o)))%nat ->
    let recent := recentPrices o now (momentumWindow o) in
    let n := ofNat (length recent) in
    let '(sumX, sumY, sumXY, sumX2) := regressionSums 0 recent (0, 0, 0, 0) in
    0 < n * sumX2 - sumX * sumX /\ 0 < sumY / n.
Proof.
  intros o now Hpos Hlen recent n.
  assert (Hrecent : Forall (fun p => 0 < price p) recent).
  { subst recent. unfold recentPrices. rewrite List.Forall_forall in *.
    intros p Hp. apply filter_In in Hp. now apply Hpos. }
  destruct (regressionSums_closed recent Hrecent)
    as (sumX & sumY & sumXY & sumX2 & Heq & HX & HX2 & _ & HY).
  rewrite Heq. fold n in HX, HX2.
  assert (Hn : 2 <= n).
  { subst n. change 2 with (ofNat 2). apply LedgerFacts.ofNat_le. exact Hlen. }
  split.
  - assert (H12 : 12 * (n * sumX2 - sumX * sumX)
                  == n * n * ((n - 1) * (n + 1))).
    { transitivity (2 * n * (6 * sumX2) - 3 * ((2 * sumX) * (2 * sumX))); [ring|].
      rewrite HX, HX2. ring. }
    assert (Hprod : 0 < n * n * ((n - 1) * (n + 1))).
    { apply Qmult_lt_0_compat; apply Qmult_lt_0_compat; lra. }
    lra.
  - apply Qlt_shift_div_l; [lra|].
    assert (0 < sumY); [|lra].
    apply HY. intros Hnil. subst recent. rewrite Hnil in Hlen. cbn in Hlen. lia.
Qed.

Lemma momentum_divisors_positive_witness :
  let o := fetchCycles [(outlierAnswers, 1700000000000%Z);
                        (outlierAnswers, 1700000001000%Z)] (newOracle 60 300) in
  Forall (fun p => 0 < price p) (priceHistory o) /\
  (2 <= length (recentPrices o 1700000002000 (momentumWindow o)))%nat /\
  let '(sumX, sumY, sumXY, sumX2) :=
    regressionSums 0 (recentPrices o 1700000002000 (momentumWindow o)) (0, 0, 0, 0) in
  0 < ofNat (length (recentPrices o 1700000002000 (momentumWindow o))) * sumX2
      - sumX * sumX.
Proof.
  cbv zeta.
  set (o := fetchCycles [(outlierAnswers, 1700000000000%Z);
                         (outlierAnswers, 1700000001000%Z)] (newOracle 60 300)).
  assert (H1 : Forall (fun p => 0 < price p) (priceHistory o)).
  { vm_compute. repeat constructor. }
  assert (H2 : (2 <= length (recentPrices o 1700000002000 (momentumWindow o)))%nat).
  { vm_compute. lia. }
  split; [exact H1 | split; [exact H2|]].
  pose proof (momentum_divisors_positive o 1700000002000%Z H1 H2) as H.
  cbv zeta in H.
  destruct (regressionSums 0 (recentPrices o 1700000002000 (momentumWindow o))
              (0, 0, 0, 0)) as [[[sumX sumY] sumXY] sumX2].
  exact (proj1 H).
Defined.

End FeedFacts.

(* ===================================================================== *)
(** ** The order book: updates, fills and sizes *)
(* ===================================================================== *)

Module BookFacts.

Import Num OrderBook NumFacts SumFacts.
Local Open Scope Q_scope.

(** What [updateOrderBook] stores can be read back: the book of the token
    holds the levels and the time of the update and is not stale for the
    next [maxStaleMs] milliseconds, the books of all other tokens are as
    before, the spread is the best ask minus the best bid, and with a
    positive best bid and best ask the mid price is their mean, positive and
    between the two, and the spread and the spread percentage have the same
    sign: not negative when the bid does not exceed the ask, not positive
    for a crossed book. *)
Theorem update_then_read :
  forall (t : OrderBookTracker) (id : string) (bids asks : list OrderLevel) (now : Z),
    let t' := updateOrderBook id bids asks now t in
    (exists book,
        getOrderBook id t' = Some book /\
        OrderBook.bids book = bids /\ OrderBook.asks book = asks /\
        lastUpdate book = now /\
        getMidPrice id t' = midPrice book /\
        getSpread id t' = (spread book, spreadPercent book) /\
        spread book = bestPriceOf asks - bestPriceOf bids /\
        (forall bid ask restBids restAsks,
            bids = bid :: restBids -> asks = ask :: restAsks ->
            0 < price bid -> 0 < price ask ->
            midPrice book == (price bid + price ask) / 2 /\
            0 < midPrice book /\
            Qmin (price bid) (price ask) <= midPrice book /\
            midPrice book <= Qmax (price bid) (price ask) /\
            (price bid <= price ask -> 0 <= spread book /\ 0 <= spreadPercent book) /\
            (price ask <= price bid -> spread book <= 0 /\ spreadPercent book <= 0))) /\
    (forall later, (now <= later <= now + maxStaleMs t)%Z -> isStale id later t' = false) /\
    (forall other, other <> id -> getOrderBook other t' = getOrderBook other t) /\
    (bids = [] \/ asks = [] -> getMidPrice id t' = 0).
Proof.
  intros t id bids asks now t'. subst t'.
  unfold getOrderBook, getMidPrice, getSpread, isStale, updateOrderBook.
  cbn [orderBooks maxStaleMs]. rewrite !lookup_insert_eq.
  splits.
  - eexists. splits; try reflexivity.
    intros bid ask restBids restAsks -> -> Hbid Hask.
    cbn [midPrice spreadPercent spread bestPriceOf].
    replace (gtb (price bid) 0) with true by (symmetry; now apply gtb_true).
    replace (gtb (price ask) 0) with true by (symmetry; now apply gtb_true).
    cbn [andb].
    assert (Hmid : 0 < (price bid + price ask) / 2).
    { apply Qlt_shift_div_l; lra. }
    replace (gtb ((price bid + price ask) / 2) 0) with true
      by (symmetry; now apply gtb_true).
    set (mid := (price bid + price ask) / 2) in *.
    assert (Hdef : mid * 2 == price bid + price ask) by (subst mid; field).
    pose proof (Q.le_min_l (price bid) (price ask)) as Hmin1.
    pose proof (Q.le_min_r (price bid) (price ask)) as Hmin2.
    pose proof (Q.le_max_l (price bid) (price ask)) as Hmax1.
    pose proof (Q.le_max_r (price bid) (price ask)) as Hmax2.
    splits; [reflexivity | exact Hmid | lra | lra | |].
    + intros Hle. split; [lra|].
      assert (0 <= (price ask - price bid) / mid)
        by (apply Qle_shift_div_l; [exact Hmid | lra]).
      lra.
    + intros Hge. split; [lra|].
      assert ((price ask - price bid) / mid <= 0)
        by (apply Qle_shift_div_r; [exact Hmid | lra]).
      lra.
  - intros later Hlater. cbn [lastUpdate]. apply Z.ltb_ge. lia.
  - intros other Hne. now apply lookup_insert_ne.
  - intros [-> | ->]; cbn [midPrice bestPriceOf].
    + replace (gtb 0 0) with false by reflexivity. reflexivity.
    + replace (gtb 0 0) with false by reflexivity. now rewrite andb_false_r.
Qed.

Lemma update_then_read_witness :
  let t := updateOrderBook "up" [{| price := 0.48; size := 100 |}]
             [{| price := 0.52; size := 100 |}] 1700000000000
             (newTracker 10000 2 5) in
  isStale "up" 1700000005000 t = false /\ getOrderBook "down" t = None.
Proof.
  cbv zeta.
  pose proof (update_then_read (newTracker 10000 2 5) "up"
                [{| price := 0.48; size := 100 |}]
                [{| price := 0.52; size := 100 |}] 1700000000000%Z) as H.
  cbv zeta in H. destruct H as (_ & Hfresh & Hother & _).
  split.
  - apply Hfresh. simpl. lia.
  - rewrite Hother; [reflexivity | discriminate].
Defined.

(** *** Sizing an order *)

Lemma optimal_stopped (best maxAmount maxSlippage : Q) (levels : list OrderLevel) :
  forall acc, stopped acc = true ->
              fold_left (optimalLevel best maxAmount maxSlippage) levels acc = acc.
Proof.
  induction levels as [|l levels IH]; intros acc Hs; [reflexivity|].
  cbn [fold_left]. unfold optimalLevel at 2. rewrite Hs. now apply IH.
Qed.

Lemma optimal_prefix (best maxAmount maxSlippage : Q) (levels : list OrderLevel) :
  wellFormed levels ->
  forall acc,
    0 <= optimalAmount acc -> optimalAmount acc <= maxAmount ->
    let acc' := fold_left (optimalLevel best maxAmount maxSlippage) levels acc in
    optimalAmount acc' <= maxAmount /\
    exists k, (k <= length levels)%nat /\
              optimalAmount acc' == optimalAmount acc + walkable (firstn k levels).
Proof.
  induction levels as [|l levels IH]; intros Hwf acc H0 Hmax; cbv zeta.
  - cbn. split; [exact Hmax|]. exists 0%nat. split; [lia|].
    unfold walkable, sumQ. cbn. ring.
  - apply Forall_cons in Hwf. destruct Hwf as [[Hp Hs] Hwf].
    assert (Hlv : 0 <= price l * size l) by (apply Qmult_le_0_compat; lra).
    cbn [fold_left].
    assert (Hzero : walkable (firstn 0 (l :: levels)) == 0)
      by (unfold walkable, sumQ; cbn; reflexivity).
    destruct (stopped acc) eqn:Es.
    + assert (Hstep : optimalLevel best maxAmount maxSlippage acc l = acc)
        by (unfold optimalLevel; now rewrite Es).
      rewrite Hstep, optimal_stopped by exact Es.
      split; [exact Hmax|]. exists 0%nat. split; [lia|]. rewrite Hzero. ring.
    + assert (Hstep :
                optimalLevel best maxAmount maxSlippage acc l
                = {| optimalAmount := optimalAmount acc;
                     optimalWeightedSum := optimalWeightedSum acc;
                     stopped := true |} \/
                (optimalAmount acc + price l * size l <= maxAmount /\
                 optimalLevel best maxAmount maxSlippage acc l
                 = {| optimalAmount := optimalAmount acc + price l * size l;
                      optimalWeightedSum :=
                        optimalWeightedSum acc + price l * (price l * size l);
                      stopped := false |})).
      { unfold optimalLevel. rewrite Es.
        destruct (_ || _) eqn:Ebreak; [left; reflexivity | right].
        apply orb_false_iff in Ebreak. destruct Ebreak as [_ Hle].
        apply gtb_false in Hle. split; [exact Hle | reflexivity]. }
      destruct Hstep as [-> | [Hle ->]].
      * rewrite optimal_stopped by reflexivity. cbn [optimalAmount].
        split; [exact Hmax|]. exists 0%nat. split; [lia|]. rewrite Hzero. ring.
      * match goal with
        | |- context [fold_left _ levels ?a] => set (acc1 := a)
        end.
        destruct (IH Hwf acc1) as (Hmax' & k & Hk & Hsum);
          [cbn; lra | cbn; exact Hle |].
        split; [exact Hmax'|]. exists (Datatypes.S k). split; [cbn; lia|].
        cbn [firstn]. rewrite OrderBookFacts.walkable_cons, Hsum.
        cbn [acc1 optimalAmount]. ring.
Qed.

(** [calculateOptimalSize] only ever takes whole levels: for a limit that is
    not negative its answer is the value of the first [k] levels of the side
    for some [k], never more than [maxAmount]; when the best level alone is
    worth more than [maxAmount] the answer is 0, however deep the book. *)
Theorem calculateOptimalSize_whole_levels :
  forall (t : OrderBookTracker) (id : string) (side : Side) (maxAmount maxSlippage : Q)
         (book : OrderBookData),
    let levels := match side with BUY => asks book | SELL => bids book end in
    let r := calculateOptimalSize id side maxAmount maxSlippage t in
    orderBooks t !! id = Some book ->
    wellFormed levels ->
    0 <= maxAmount ->
    0 <= r /\ r <= maxAmount /\
    (exists k, (k <= length levels)%nat /\ r == walkable (firstn k levels)) /\
    (maxAmount < walkable (firstn 1 levels) -> r == 0).
Proof.
  intros t id side maxAmount maxSlippage book levels r Hbook Hwf Hmax.
  subst r. unfold calculateOptimalSize. rewrite Hbook. fold levels.
  destruct levels as [|first rest] eqn:Elevels.
  { splits; [lra | exact Hmax | exists 0%nat; split; [lia | reflexivity] | reflexivity]. }
  rewrite <- Elevels in *.
  set (acc0 := {| optimalAmount := 0; optimalWeightedSum := 0; stopped := false |}).
  destruct (optimal_prefix (price first) maxAmount maxSlippage levels Hwf acc0)
    as (Hle & k & Hk & Hsum); [cbn; lra | cbn; exact Hmax |].
  cbn [acc0 optimalAmount] in Hsum.
  set (acc := fold_left _ levels acc0) in *.
  assert (Hmin : Qmin (optimalAmount acc) maxAmount == optimalAmount acc)
    by (apply Q.min_l; exact Hle).
  assert (Hnonneg : 0 <= walkable (firstn k levels)).
  { apply OrderBookFacts.walkable_nonneg. unfold wellFormed in *.
    rewrite <- (firstn_skipn k levels) in Hwf. apply Forall_app in Hwf. apply Hwf. }
  splits.
  - rewrite Hmin, Hsum. lra.
  - rewrite Hmin. exact Hle.
  - exists k. split; [exact Hk|]. rewrite Hmin, Hsum. ring.
  - intros Hbig. rewrite Hmin. subst acc. rewrite Elevels in *.
    cbn [firstn] in Hbig. rewrite OrderBookFacts.walkable_cons in Hbig.
    assert (Hnil : walkable [] == 0) by reflexivity. rewrite Hnil in Hbig.
    cbn [fold_left]. unfold optimalLevel at 2. cbn [acc0 stopped optimalAmount].
    replace (gtb (0 + price first * size first) maxAmount) with true
      by (symmetry; apply gtb_true; lra).
    rewrite orb_true_r. rewrite optimal_stopped by reflexivity. reflexivity.
Qed.

Lemma calculateOptimalSize_whole_levels_witness :
  let book := {| tokenId := "up"; bids := [];
                 asks := [{| price := 1; size := 10 |}; {| price := 1.02; size := 10 |}];
                 lastUpdate := 0; midPrice := 0; spread := 0; spreadPercent := 0 |} in
  let t := {| orderBooks := {[ "up" := book ]}; maxStaleMs := 10000;
              minLiquidityMultiplier := 2; maxSpreadPercent := 5 |} in
  orderBooks t !! "up" = Some book /\ wellFormed (asks book) /\ 0 <= 5 /\
  5 < walkable (firstn 1 (asks book)) /\
  calculateOptimalSize "up" BUY 5 0.01 t == 0.
Proof.
  cbv zeta.
  set (book := {| tokenId := "up"; bids := [];
                  asks := [{| price := 1; size := 10 |}; {| price := 1.02; size := 10 |}];
                  lastUpdate := 0; midPrice := 0; spread := 0; spreadPercent := 0 |}).
  set (t := {| orderBooks := {[ "up" := book ]}; maxStaleMs := 10000;
               minLiquidityMultiplier := 2; maxSpreadPercent := 5 |}).
  assert (H1 : orderBooks t !! "up" = Some book) by (vm_compute; reflexivity).
  assert (H2 : wellFormed (asks book)) by (repeat constructor; simpl; lra).
  assert (H3 : 0 <= 5) by lra.
  assert (H4 : 5 < walkable (firstn 1 (asks book))) by (vm_compute; reflexivity).
  splits; try assumption.
  exact (proj2 (proj2 (proj2 (calculateOptimalSize_whole_levels t "up" BUY 5 0.01 book
                                H1 H2 H3))) H4).
Defined.

End BookFacts.

(* ===================================================================== *)
(** ** The enhanced trading loop: opportunities, ticks and the monitor *)
(* ===================================================================== *)

Module LoopFacts.

Import Num RateLimiter Venue NumFacts VenueFacts.
Local Open Scope Q_scope.

Section Frames.

Context {V : Type} `{Client V}.
Variable cfg : Bot.Config.

(** The calls that go through the rate limiter change nothing of the bot
    but the limiter (clock, venue, request log). *)
Lemma withRetry_frame {T} (fn : Thunk (Remote V) T) op (b : Bot.Bot V) :
  snd (Bot.withRetry cfg fn op b)
  = Bot.setLimiter (Bot.limiter (snd (Bot.withRetry cfg fn op b))) b.
Proof.
  unfold Bot.withRetry. destruct (executeWithRetry _ _ _ _ _) as [r l]. reflexivity.
Qed.

Lemma candidate_sound (b : Bot.Bot V) (age : Z) (bal : Q) (tt : TokenType)
    (opp : Bot.TradeOpportunity) :
  Bot.candidate cfg b age bal tt = Some opp ->
  Bot.oTokenType opp = tt /\
  truthy (match tt with
          | TokenUP => Bot.tokenIdUp b
          | TokenDOWN => Bot.tokenIdDown b
          end) = Some (Bot.oTokenId opp) /\
  Bot.softwarePrice opp = match tt with
                          | TokenUP => Bot.UP (Bot.softwarePrices b)
                          | TokenDOWN => Bot.DOWN (Bot.softwarePrices b)
                          end /\
  Bot.polymarketPrices b !! Bot.oTokenId opp = Some (Bot.polymarketPrice opp) /\
  Bot.difference opp = Bot.softwarePrice opp - Bot.polymarketPrice opp /\
  Bot.priceThreshold cfg <= Bot.difference opp /\
  0 < Bot.softwarePrice opp /\ 0 < Bot.polymarketPrice opp /\
  OrderBook.isStale (Bot.oTokenId opp) (Bot.dateNow b) (Bot.orderBookTracker b) = false /\
  Bot.spread opp <= Bot.maxSpread cfg /\
  (let check := OrderBook.checkLiquidity (Bot.oTokenId opp) OrderBook.BUY
                  (Bot.tradeAmount cfg) (Bot.dateNow b) (Bot.orderBookTracker b) in
   OrderBook.sufficient check = true /\
   OrderBook.estimatedSlippage check <= Bot.maxSlippage cfg) /\
  Bot.recommendedSize opp <= Qmax (Bot.tradeAmount cfg) (Bot.tradeAmount cfg * 2).
Proof.
  unfold Bot.candidate.
  destruct (truthy _) as [tokenId|] eqn:Etok; [|discriminate].
  destruct (OrderBook.isStale tokenId _ _) eqn:Estale; [discriminate|].
  destruct (ltb _ _ || leb _ _ || leb _ _) eqn:Eedge; [discriminate|].
  apply orb_false_iff in Eedge. destruct Eedge as [Eedge Epoly].
  apply orb_false_iff in Eedge. destruct Eedge as [Ediff Esoft].
  apply ltb_false in Ediff. apply leb_false in Esoft. apply leb_false in Epoly.
  destruct (gtb _ (Bot.maxSpread cfg)) eqn:Espread; [discriminate|].
  apply gtb_false in Espread.
  destruct (negb _) eqn:Esuff; [discriminate|].
  apply negb_false_iff in Esuff.
  destruct (gtb _ (Bot.maxSlippage cfg)) eqn:Eslip; [discriminate|].
  apply gtb_false in Eslip.
  intros Hopp. inversion Hopp; subst opp; clear Hopp.
  cbn [Bot.oTokenType Bot.oTokenId Bot.softwarePrice Bot.polymarketPrice
       Bot.difference Bot.spread Bot.recommendedSize].
  splits; try reflexivity; try assumption.
  - destruct (Bot.polymarketPrices b !! tokenId) as [q|] eqn:El; [reflexivity|].
    exfalso. cbn in Epoly. lra.
  - destruct (Bot.enableDynamicSizing cfg).
    + unfold Bot.calculateDynamicSize.
      eapply Qle_trans; [apply Q.le_min_r | apply Q.le_max_r].
    + apply Q.le_max_l.
Qed.

Lemma withRetry_run {T} (fn : Thunk (Remote V) T) op (b : Bot.Bot V) :
  exists r l, Bot.withRetry cfg fn op b = (r, Bot.setLimiter l b).
Proof.
  unfold Bot.withRetry. destruct (executeWithRetry _ _ _ _ _) as [r l].
  now exists r, l.
Qed.

(** [checkOrderStatus] never rejects and never answers CANCELLED or
    EXPIRED. *)
Lemma checkOrderStatus_run (orderId : string) (b : Bot.Bot V) :
  exists s l, Bot.checkOrderStatus cfg orderId b = (inr s, Bot.setLimiter l b) /\
              Bot.isAborted s = false.
Proof.
  unfold Bot.checkOrderStatus, Eff.tryCatch, Eff.bind, Eff.ret.
  destruct (withRetry_run (invoke CallOpenOrders getOpenOrders) "get-orders" b)
    as (r & l & ->).
  destruct r as [e|orders].
  - exists Bot.UNKNOWN, l. split; reflexivity.
  - eexists. exists l. split; [reflexivity|].
    destruct (bool_decide _); reflexivity.
Qed.

Lemma executeTrade_run (opp : Bot.TradeOpportunity) (b : Bot.Bot V) :
  let b0 := Bot.setTradeCounter (Bot.tradeCounter b + 1)
              (Bot.setLastTradeTime (Bot.dateNow b) b) in
  exists l,
    Bot.executeTrade cfg opp b = (inr tt, Bot.setLimiter l b0) \/
    exists t,
      Bot.executeTrade cfg opp b
      = (inr tt, Bot.setActiveTrades (Bot.activeTrades b ++ [length (Bot.trades b)])
                   (Bot.setTrades (Bot.trades b ++ [t]) (Bot.setLimiter l b0))).
Proof.
  cbv zeta.
  unfold Bot.executeTrade, Eff.bind, Eff.tryCatch, Eff.gets,
    Bot.pushTrade, Bot.pause, Eff.modify, Eff.ret.
  match goal with
  | |- context [Bot.withRetry cfg ?fn "buy-order" ?b0] =>
      destruct (withRetry_run fn "buy-order" b0) as (r1 & l1 & ->)
  end.
  destruct r1 as [e1|id1]; [exists l1; left; reflexivity|].
  match goal with
  | |- context [Bot.checkOrderStatus cfg id1 ?b0] =>
      destruct (checkOrderStatus_run id1 b0) as (s2 & l2 & -> & Hs2)
  end.
  rewrite Hs2.
  match goal with
  | |- context [Bot.withRetry cfg ?fn "take-profit-order" ?b0] =>
      destruct (withRetry_run fn "take-profit-order" b0) as (r3 & l3 & ->)
  end.
  destruct r3 as [e3|id3]; [exists l3; left; reflexivity|].
  match goal with
  | |- context [Bot.withRetry cfg ?fn "stop-loss-order" ?b0] =>
      destruct (withRetry_run fn "stop-loss-order" b0) as (r4 & l4 & ->)
  end.
  destruct r4 as [e4|id4]; [exists l4; left; reflexivity|].
  exists l4. right. eexists. reflexivity.
Qed.

End Frames.

(** An opportunity that [checkTradeOpportunity] returns has passed every
    gate: the cooldown is over and the oracle prices are fresh at the start
    of the check; the balance was asked for; the token is configured and
    its book is fresh; the market price is the positive stored price, the
    oracle price is positive and exceeds the market price by at least the
    threshold; the spread, the liquidity for the trade amount and the
    estimated slippage are within their limits; and the recommended size is
    at most twice the trade amount. *)
Theorem opportunity_sound :
  forall (V : Type) (C : Client V) (cfg : Bot.Config) (b : Bot.Bot V)
         (opp : Bot.TradeOpportunity),
    fst (Bot.checkTradeOpportunity cfg b) = inr (Some opp) ->
    let b' := snd (Bot.checkTradeOpportunity cfg b) in
    (Bot.tradeCooldown cfg <= Bot.dateNow b - Bot.lastTradeTime b)%Z /\
    (Bot.dateNow b - Bot.lastUpdate (Bot.softwarePrices b) <= Bot.priceStaleMs cfg)%Z /\
    (exists k, (1 <= k)%nat /\
               Bot.outboundOf b' = Bot.outboundOf b ++ repeat CallBalances k) /\
    truthy (match Bot.oTokenType opp with
            | TokenUP => Bot.tokenIdUp b
            | TokenDOWN => Bot.tokenIdDown b
            end) = Some (Bot.oTokenId opp) /\
    Bot.softwarePrice opp = match Bot.oTokenType opp with
                            | TokenUP => Bot.UP (Bot.softwarePrices b)
                            | TokenDOWN => Bot.DOWN (Bot.softwarePrices b)
                            end /\
    Bot.polymarketPrices b !! Bot.oTokenId opp = Some (Bot.polymarketPrice opp) /\
    Bot.difference opp = Bot.softwarePrice opp - Bot.polymarketPrice opp /\
    Bot.priceThreshold cfg <= Bot.difference opp /\
    0 < Bot.softwarePrice opp /\ 0 < Bot.polymarketPrice opp /\
    OrderBook.isStale (Bot.oTokenId opp) (Bot.dateNow b') (Bot.orderBookTracker b) = false /\
    Bot.spread opp <= Bot.maxSpread cfg /\
    (let check := OrderBook.checkLiquidity (Bot.oTokenId opp) OrderBook.BUY
                    (Bot.tradeAmount cfg) (Bot.dateNow b') (Bot.orderBookTracker b) in
     OrderBook.sufficient check = true /\
     OrderBook.estimatedSlippage check <= Bot.maxSlippage cfg) /\
    Bot.recommendedSize opp <= Qmax (Bot.tradeAmount cfg) (Bot.tradeAmount cfg * 2).
Proof.
  intros V C cfg b opp. unfold Bot.checkTradeOpportunity. cbv zeta.
  destruct (0 <? _)%Z eqn:Ecool; [discriminate|]. apply Z.ltb_ge in Ecool.
  destruct (Bot.priceStaleMs cfg <? _)%Z eqn:Eage; [discriminate|].
  apply Z.ltb_ge in Eage.
  unfold Eff.bind.
  pose proof (withRetry_frame cfg (invoke CallBalances checkBalances)
                "balance-check" b) as Hframe.
  destruct (BotFacts.withRetry_sent cfg CallBalances checkBalances "balance-check" b)
    as (k & _ & _ & Hsent & Hok).
  destruct (Bot.withRetry cfg (invoke CallBalances checkBalances) "balance-check" b)
    as [[e|balances] b1]; [discriminate|].
  cbn [fst snd] in Hframe, Hsent, Hok.
  destruct (ltb (usdc balances) (Bot.minimumBalance cfg)); [discriminate|].
  unfold Eff.gets. cbn [fst snd]. intros Hscan.
  assert (Hcand : exists tt, Bot.candidate cfg b1 (Bot.dateNow b
                               - Bot.lastUpdate (Bot.softwarePrices b))
                               (usdc balances) tt = Some opp).
  { cbn [Bot.scan] in Hscan.
    destruct (Bot.candidate cfg b1 _ _ TokenUP) as [o|] eqn:Eup.
    - exists TokenUP. rewrite Eup. congruence.
    - destruct (Bot.candidate cfg b1 _ _ TokenDOWN) as [o|] eqn:Edown; [|discriminate].
      exists TokenDOWN. rewrite Edown. congruence. }
  destruct Hcand as [tt Hcand].
  apply candidate_sound in Hcand.
  destruct Hcand as (Htt & Htok & Hsoft & Hpoly & Hrest).
  rewrite Hframe in Htok, Hsoft, Hpoly, Hrest.
  cbn [Bot.setLimiter Bot.tokenIdUp Bot.tokenIdDown Bot.softwarePrices
       Bot.polymarketPrices Bot.orderBookTracker] in Htok, Hsoft, Hpoly, Hrest.
  rewrite <- Hframe in Hrest. rewrite Htt.
  splits; try lia; try tauto.
  exists k. split; [now apply (Hok balances) | exact Hsent].
Qed.

Lemma opportunity_sound_witness :
  exists opp,
    fst (Bot.checkTradeOpportunity (H := paperClient) Bot.defaultConfig
           (Bot.scenarioBot 1700000000000 31000)) = inr (Some opp) /\
    Bot.priceThreshold Bot.defaultConfig <= Bot.difference opp.
Proof.
  assert (Hrun : { opp | fst (Bot.checkTradeOpportunity (H := paperClient)
                                Bot.defaultConfig
                                (Bot.scenarioBot 1700000000000 31000))
                         = inr (Some opp) }).
  { eexists. vm_compute. reflexivity. }
  destruct Hrun as [opp Hrun]. exists opp.
  split; [exact Hrun|].
  pose proof (opportunity_sound Paper paperClient Bot.defaultConfig _ _ Hrun) as Hs.
  cbv zeta in Hs. tauto.
Defined.

(** [executeTrade] never rejects, whatever the venue answers, and always
    starts the cooldown: the last trade time is the time of the call and
    the trade counter grows by one even when no order is accepted.  The
    ledger, the books, the prices and the token ids are as before.  The
    status it reads after the entry order is never CANCELLED or EXPIRED, so
    it never backs out of a trade whose entry order was accepted. *)
Theorem executeTrade_starts_cooldown :
  forall (V : Type) (C : Client V) (cfg : Bot.Config)
         (opp : Bot.TradeOpportunity) (b : Bot.Bot V),
    let run := Bot.executeTrade cfg opp b in
    fst run = inr tt /\
    Bot.lastTradeTime (snd run) = Bot.dateNow b /\
    Bot.tradeCounter (snd run) = (Bot.tradeCounter b + 1)%Z /\
    Bot.pnlTracker (snd run) = Bot.pnlTracker b /\
    Bot.orderBookTracker (snd run) = Bot.orderBookTracker b /\
    Bot.softwarePrices (snd run) = Bot.softwarePrices b /\
    Bot.polymarketPrices (snd run) = Bot.polymarketPrices b /\
    Bot.tokenIdUp (snd run) = Bot.tokenIdUp b /\
    Bot.tokenIdDown (snd run) = Bot.tokenIdDown b /\
    (forall orderId s0, exists status,
        fst (Bot.checkOrderStatus cfg orderId s0) = inr status /\
        Bot.isAborted status = false).
Proof.
  intros V C cfg opp b run. subst run.
  destruct (executeTrade_run cfg opp b) as (l & [-> | (t & ->)]);
    cbn [fst snd]; (splits; try reflexivity);
    intros orderId s0;
    destruct (checkOrderStatus_run cfg orderId s0) as (s & l' & -> & Hs);
    now exists s.
Qed.

(** *** One round of the trading loop *)

Lemma retryLoop_forward {S T : Type} minIntervalMs config (fn : Thunk S T) op :
  (forall w, (now w <= now (snd (fn w)))%Z) ->
  forall (n : nat) (attempt : Z) (lastError : option Error) (st : State S),
    (now (world st)
     <= now (world (snd (retryLoop minIntervalMs config fn op n attempt lastError st))))%Z.
Proof.
  intros Hfn. induction n as [|n IH]; intros attempt lastError st; [cbn; lia|].
  cbn [retryLoop].
  destruct (LimiterFacts.waitForSlot_stamp _ minIntervalMs op st) as (_ & _ & Hfwd & _).
  set (st1 := waitForSlot minIntervalMs op st) in *.
  pose proof (Hfn (world st1)) as Hw.
  destruct (fn (world st1)) as [[error|v] w]; cbn [snd] in Hw.
  - match goal with
    | |- context [retryLoop _ _ _ _ n (attempt + 1)%Z (Some error) ?s3] =>
        set (st3 := s3)
    end.
    assert (Hst3 : (now w <= now (world st3))%Z).
    { subst st3. destruct (attempt <? maxRetries config)%Z;
        [|destruct (isRateLimit error)]; cbn [sleep emit world now]; lia. }
    specialize (IH (attempt + 1)%Z (Some error) st3). lia.
  - cbn [snd emit world now]. lia.
Qed.

Lemma check_outcome {V : Type} `{Client V} (cfg : Bot.Config) (b : Bot.Bot V) :
  (forall w, (now w <= now (snd (checkBalances w)))%Z) ->
  Bot.checkTradeOpportunity cfg b = (inr None, b) \/
  (Bot.tradeCooldown cfg <= Bot.dateNow b - Bot.lastTradeTime b)%Z /\
  exists r l (k : nat),
    Bot.checkTradeOpportunity cfg b = (r, Bot.setLimiter l b) /\
    outbound (remote (world l)) = Bot.outboundOf b ++ repeat CallBalances k /\
    (Bot.dateNow b <= now (world l))%Z.
Proof.
  intros Hclock. unfold Bot.checkTradeOpportunity. cbv zeta.
  destruct (0 <? _)%Z eqn:Ecool; [now left|]. apply Z.ltb_ge in Ecool.
  destruct (Bot.priceStaleMs cfg <? _)%Z; [now left|].
  right. split; [lia|]. unfold Eff.bind.
  destruct (BotFacts.withRetry_sent cfg CallBalances checkBalances "balance-check" b)
    as (k & _ & _ & Hsent & _).
  assert (Hfwd : (Bot.dateNow b
                  <= Bot.dateNow (snd (Bot.withRetry cfg (invoke CallBalances checkBalances)
                                         "balance-check" b)))%Z).
  { unfold Bot.withRetry, Bot.dateNow, executeWithRetry.
    pose proof (retryLoop_forward (Bot.apiMinIntervalMs cfg) (Bot.apiConfig cfg)
                  (invoke CallBalances checkBalances) "balance-check") as Hloop.
    specialize (Hloop ltac:(intros w; unfold invoke;
                            pose proof (Hclock (mkWorld (now w) (venue (remote w)))) as Hw;
                            destruct (checkBalances _) as [r w']; cbn in *; exact Hw)).
    specialize (Hloop (Z.to_nat (maxRetries (Bot.apiConfig cfg) + 1)) 0%Z None
                      (Bot.limiter b)).
    destruct (retryLoop _ _ _ _ _ _ _ _) as [r l]. exact Hloop. }
  destruct (withRetry_run cfg (invoke CallBalances checkBalances) "balance-check" b)
    as (r & l & Hrun).
  rewrite Hrun in *. cbn [snd] in Hsent, Hfwd.
  destruct r as [e|balances].
  - exists (inl e), l, k. splits; [reflexivity | exact Hsent | exact Hfwd].
  - destruct (ltb _ _).
    + exists (inr None), l, k. splits; [reflexivity | exact Hsent | exact Hfwd].
    + eexists. exists l, k. splits; [reflexivity | exact Hsent | exact Hfwd].
Qed.

(** One round of the trading loop never fails, and it respects the
    cooldown: either it places no order and leaves the last trade time and
    the trades alone, or it starts a trade no earlier than [tradeCooldown]
    milliseconds after the start of the previous one (the clock not running
    backwards while the balance is fetched). *)
Theorem tick_respects_cooldown :
  forall (V : Type) (C : Client V) (cfg : Bot.Config) (b : Bot.Bot V),
    (forall w, (now w <= now (snd (checkBalances w)))%Z) ->
    let run := Bot.tradingTick cfg b in
    fst run = inr tt /\
    ((Bot.lastTradeTime (snd run) = Bot.lastTradeTime b /\
      Bot.trades (snd run) = Bot.trades b /\
      posts (Bot.outboundOf (snd run)) = posts (Bot.outboundOf b)) \/
     (Bot.tradeCooldown cfg
      <= Bot.lastTradeTime (snd run) - Bot.lastTradeTime b)%Z).
Proof.
  intros V C cfg b Hclock run. subst run.
  unfold Bot.tradingTick, Eff.tryCatch, Eff.bind, Eff.ret.
  destruct (check_outcome cfg b Hclock) as [-> | (Hcool & r & l & k & -> & Hsent & Hfwd)].
  { cbn. split; [reflexivity | left; splits; reflexivity]. }
  assert (Hquiet : posts (Bot.outboundOf (Bot.setLimiter l b)) = posts (Bot.outboundOf b)).
  { unfold Bot.outboundOf. cbn [Bot.setLimiter Bot.limiter].
    fold (Bot.outboundOf b).
    rewrite Hsent, posts_app, posts_repeat_other, app_nil_r; reflexivity. }
  destruct r as [e|[opp|]]; cbn [fst snd];
    [split; [reflexivity | left; splits; [reflexivity | reflexivity | exact Hquiet]]
    | | split; [reflexivity | left; splits; [reflexivity | reflexivity | exact Hquiet]]].
  destruct (executeTrade_run cfg opp (Bot.setLimiter l b)) as (l' & [-> | (t & ->)]);
    cbn [fst snd Bot.lastTradeTime Bot.setLimiter Bot.setActiveTrades Bot.setTrades
         Bot.setTradeCounter Bot.setLastTradeTime];
    (split; [reflexivity | right]);
    unfold Bot.dateNow in *; cbn [Bot.limiter Bot.setLimiter] in *; lia.
Qed.

Lemma tick_respects_cooldown_witness :
  (forall w, (now w <= now (snd (checkBalances (Client := paperClient) w)))%Z) /\
  fst (Bot.tradingTick (H := paperClient) Bot.defaultConfig
         (Bot.scenarioBot 1700000000000 29000)) = inr tt.
Proof.
  assert (Hclock : forall w, (now w <= now (snd (checkBalances (Client := paperClient) w)))%Z).
  { intros w. simpl. lia. }
  split; [exact Hclock|].
  exact (proj1 (tick_respects_cooldown Paper paperClient Bot.defaultConfig
                  (Bot.scenarioBot 1700000000000 29000) Hclock)).
Defined.

(** *** The order monitor and the cleanup sweep *)

Section Monitor.

Context {V : Type} `{Client V}.
Variable cfg : Bot.Config.

Lemma setLimiter_same (b : Bot.Bot V) : Bot.setLimiter (Bot.limiter b) b = b.
Proof. destruct b. reflexivity. Qed.

Lemma quiet_run {T} (c : Call) (m : Thunk V T) op (b : Bot.Bot V) :
  posts [c] = [] ->
  exists r l, Bot.withRetry cfg (invoke c m) op b = (r, Bot.setLimiter l b) /\
              posts (outbound (remote (world l))) = posts (Bot.outboundOf b).
Proof.
  intros Hc.
  destruct (BotFacts.withRetry_sent cfg c m op b) as (k & _ & _ & Hsent & _).
  destruct (withRetry_run cfg (invoke c m) op b) as (r & l & Hrun).
  rewrite Hrun in Hsent. cbn [snd] in Hsent.
  exists r, l. split; [exact Hrun|].
  change (outbound (remote (world l))) with (Bot.outboundOf (Bot.setLimiter l b)).
  rewrite Hsent, posts_app, (posts_repeat_other c k Hc), app_nil_r. reflexivity.
Qed.

Lemma checkOrderStatus_quiet_run (orderId : string) (b : Bot.Bot V) :
  exists s l, Bot.checkOrderStatus cfg orderId b = (inr s, Bot.setLimiter l b) /\
              posts (outbound (remote (world l))) = posts (Bot.outboundOf b).
Proof.
  unfold Bot.checkOrderStatus, Eff.tryCatch, Eff.bind, Eff.ret.
  destruct (quiet_run CallOpenOrders getOpenOrders "get-orders" b eq_refl)
    as (r & l & -> & Hposts).
  destruct r as [e|orders]; eexists; exists l; (split; [reflexivity | exact Hposts]).
Qed.

Lemma isOrderOpen_quiet_run (orderId : string) (b : Bot.Bot V) :
  exists v l, Bot.isOrderOpen cfg orderId b = (inr v, Bot.setLimiter l b) /\
              posts (outbound (remote (world l))) = posts (Bot.outboundOf b).
Proof.
  unfold Bot.isOrderOpen, Eff.tryCatch, Eff.bind, Eff.ret.
  destruct (quiet_run CallOpenOrders getOpenOrders "check-open-orders" b eq_refl)
    as (r & l & -> & Hposts).
  destruct r as [e|orders]; eexists; exists l; (split; [reflexivity | exact Hposts]).
Qed.

Lemma cancelOpenOrder_quiet_run (orderId : string) (b : Bot.Bot V) :
  exists l, Bot.cancelOpenOrder cfg orderId b = (inr tt, Bot.setLimiter l b) /\
            posts (outbound (remote (world l))) = posts (Bot.outboundOf b).
Proof.
  unfold Bot.cancelOpenOrder, Eff.tryCatch, Eff.ret.
  destruct (quiet_run (CallCancel orderId) (cancelOrder orderId) "cancel-order" b eq_refl)
    as (r & l & -> & Hposts).
  destruct r as [e|[]]; exists l; (split; [reflexivity | exact Hposts]).
Qed.

(** What the monitor does with one trade: nothing but requests, or requests
    and then the closing of this trade, which was filled. *)
Lemma monitorTrade_run (ref : nat) (b : Bot.Bot V) :
  exists l,
    posts (outbound (remote (world l))) = posts (Bot.outboundOf b) /\
    (Bot.monitorTrade cfg ref b = (inr tt, Bot.setLimiter l b) \/
     exists reason trade,
       Bot.trades b !! ref = Some trade /\ Bot.status trade = Bot.filled /\
       Bot.monitorTrade cfg ref b
       = (inr tt, Bot.recordTradeClose ref reason (Bot.setLimiter l b))).
Proof.
  unfold Bot.monitorTrade.
  destruct (Bot.trades b !! ref) as [trade|] eqn:Eref;
    [|exists (Bot.limiter b); split; [reflexivity | left; now rewrite setLimiter_same]].
  destruct (Bot.isFilled (Bot.status trade)) eqn:Efilled; cbn [negb];
    [|exists (Bot.limiter b); split; [reflexivity | left; now rewrite setLimiter_same]].
  assert (Hfilled : Bot.status trade = Bot.filled)
    by (destruct (Bot.status trade); try discriminate; reflexivity).
  unfold Eff.tryCatch, Eff.bind, Eff.ret, Eff.modify.
  destruct (checkOrderStatus_quiet_run (Bot.takeProfitOrderId trade) b)
    as (tp & l1 & -> & Hp1).
  destruct (checkOrderStatus_quiet_run (Bot.stopLossOrderId trade) (Bot.setLimiter l1 b))
    as (sl & l2 & -> & Hp2).
  cbn [Bot.setLimiter] in *.
  change (Bot.setLimiter l2 (Bot.setLimiter l1 b)) with (Bot.setLimiter l2 b) in *.
  change (Bot.outboundOf (Bot.setLimiter l1 b)) with (outbound (remote (world l1))) in Hp2.
  assert (Hq2 : posts (outbound (remote (world l2))) = posts (Bot.outboundOf b))
    by congruence.
  destruct (Bot.isFilledOrCancelled tp).
  - destruct (isOrderOpen_quiet_run (Bot.stopLossOrderId trade) (Bot.setLimiter l2 b))
      as (open & l3 & -> & Hp3).
    change (Bot.setLimiter l3 (Bot.setLimiter l2 b)) with (Bot.setLimiter l3 b) in *.
    change (Bot.outboundOf (Bot.setLimiter l2 b)) with (outbound (remote (world l2))) in Hp3.
    assert (Hq3 : posts (outbound (remote (world l3))) = posts (Bot.outboundOf b))
      by congruence.
    destruct open.
    + destruct (cancelOpenOrder_quiet_run (Bot.stopLossOrderId trade)
                  (Bot.setLimiter l3 b)) as (l4 & -> & Hp4).
      change (Bot.setLimiter l4 (Bot.setLimiter l3 b)) with (Bot.setLimiter l4 b) in *.
      change (Bot.outboundOf (Bot.setLimiter l3 b))
        with (outbound (remote (world l3))) in Hp4.
      exists l4. split; [congruence|]. right.
      exists PnL.take_profit, trade. splits; [reflexivity | exact Hfilled | reflexivity].
    + cbn [negb andb]. destruct (Bot.isFilledOrCancelled sl).
      * exists l3. split; [exact Hq3|]. right.
        exists PnL.take_profit, trade. splits; [reflexivity | exact Hfilled | reflexivity].
      * exists l3. split; [exact Hq3 | now left].
  - destruct (Bot.isFilledOrCancelled sl); [|exists l2; split; [exact Hq2 | now left]].
    destruct (isOrderOpen_quiet_run (Bot.takeProfitOrderId trade) (Bot.setLimiter l2 b))
      as (open & l3 & -> & Hp3).
    change (Bot.setLimiter l3 (Bot.setLimiter l2 b)) with (Bot.setLimiter l3 b) in *.
    change (Bot.outboundOf (Bot.setLimiter l2 b)) with (outbound (remote (world l2))) in Hp3.
    assert (Hq3 : posts (outbound (remote (world l3))) = posts (Bot.outboundOf b))
      by congruence.
    destruct open; [|exists l3; split; [exact Hq3 | now left]].
    destruct (cancelOpenOrder_quiet_run (Bot.takeProfitOrderId trade)
                (Bot.setLimiter l3 b)) as (l4 & -> & Hp4).
    change (Bot.setLimiter l4 (Bot.setLimiter l3 b)) with (Bot.setLimiter l4 b) in *.
    change (Bot.outboundOf (Bot.setLimiter l3 b))
      with (outbound (remote (world l3))) in Hp4.
    exists l4. split; [congruence|]. right.
    exists PnL.stop_loss, trade. splits; [reflexivity | exact Hfilled | reflexivity].
Qed.

Lemma close_filled (b : Bot.Bot V) (ref : nat) (trade : Bot.Trade)
    (reason : PnL.ExitReason) :
  Bot.trades b !! ref = Some trade ->
  Bot.status trade = Bot.filled ->
  exists result,
    Bot.recordTradeClose ref reason b
    = Bot.setTrades (<[ref := Bot.closeTrade trade reason]> (Bot.trades b))
        (Bot.setPnlTracker (PnL.recordTrade result (Bot.pnlTracker b)) b) /\
    PnL.tradeId result = Bot.id trade /\
    PnL.exitReason result = reason /\
    PnL.exitPrice result = (if Bot.isTakeProfit reason
                            then Bot.targetPrice trade else Bot.stopPrice trade) /\
    PnL.pnl result = (PnL.exitPrice result - Bot.buyPrice trade) * Bot.shares trade.
Proof.
  intros Href Hfilled. unfold Bot.recordTradeClose. rewrite Href, Hfilled.
  cbn [Bot.isClosed]. eexists. split; [reflexivity|]. splits; reflexivity.
Qed.

(** The effect of the monitor on one trade. *)
Lemma monitorTrade_effect (ref : nat) (b : Bot.Bot V) :
  let b' := snd (Bot.monitorTrade cfg ref b) in
  fst (Bot.monitorTrade cfg ref b) = inr tt /\
  Bot.activeTrades b' = Bot.activeTrades b /\
  Bot.lastTradeTime b' = Bot.lastTradeTime b /\
  length (Bot.trades b') = length (Bot.trades b) /\
  posts (Bot.outboundOf b') = posts (Bot.outboundOf b) /\
  (forall r, r <> ref -> Bot.trades b' !! r = Bot.trades b !! r) /\
  (forall t, Bot.trades b !! ref = Some t -> Bot.status t <> Bot.filled ->
             Bot.trades b' !! ref = Some t) /\
  exists results,
    PnL.trades (Bot.pnlTracker b') = PnL.trades (Bot.pnlTracker b) ++ results /\
    (length results <= 1)%nat.
Proof.
  cbv zeta.
  destruct (monitorTrade_run ref b)
    as (l & Hposts & [-> | (reason & trade & Href & Hfilled & ->)]); cbn [fst snd].
  - splits; try reflexivity; try exact Hposts; try tauto.
    exists []. rewrite app_nil_r. split; [reflexivity | cbn; lia].
  - destruct (close_filled (Bot.setLimiter l b) ref trade reason Href Hfilled)
      as (result & -> & _).
    cbn [Bot.setTrades Bot.setPnlTracker Bot.setLimiter Bot.activeTrades
         Bot.lastTradeTime Bot.trades Bot.pnlTracker Bot.limiter].
    splits; try reflexivity.
    + apply length_insert.
    + exact Hposts.
    + intros r Hr. apply list_lookup_insert_ne. congruence.
    + intros t Ht Hnot. rewrite Href in Ht. congruence.
    + exists [result]. split; [reflexivity | cbn; lia].
Qed.

Lemma monitorTrades_effect (refs : list nat) :
  forall b : Bot.Bot V,
    let b' := snd (Bot.monitorTrades cfg refs b) in
    fst (Bot.monitorTrades cfg refs b) = inr tt /\
    Bot.activeTrades b' = Bot.activeTrades b /\
    Bot.lastTradeTime b' = Bot.lastTradeTime b /\
    length (Bot.trades b') = length (Bot.trades b) /\
    posts (Bot.outboundOf b') = posts (Bot.outboundOf b) /\
    (forall r, ~ In r refs -> Bot.trades b' !! r = Bot.trades b !! r) /\
    (forall r t, Bot.trades b !! r = Some t -> Bot.status t <> Bot.filled ->
                 Bot.trades b' !! r = Some t) /\
    exists results,
      PnL.trades (Bot.pnlTracker b') = PnL.trades (Bot.pnlTracker b) ++ results /\
      (length results <= length refs)%nat.
Proof.
  induction refs as [|ref refs IH]; intros b; cbv zeta.
  - cbn. splits; try reflexivity.
    + intros r t Ht _. exact Ht.
    + exists []. rewrite app_nil_r. split; [reflexivity | cbn; lia].
  - cbn [Bot.monitorTrades]. unfold Eff.bind.
    destruct (monitorTrade_effect ref b)
      as (Hok & Ha & Hl & Hlen & Hp & Hother & Hkeep & results1 & Hres1 & Hn1).
    destruct (Bot.monitorTrade cfg ref b) as [r1 b1]. cbn [fst snd] in *. subst r1.
    destruct (IH b1)
      as (Hok2 & Ha2 & Hl2 & Hlen2 & Hp2 & Hother2 & Hkeep2 & results2 & Hres2 & Hn2).
    splits; try congruence.
    + intros r Hr. rewrite Hother2 by (intros Hin; apply Hr; now right).
      apply Hother. intros ->. apply Hr. now left.
    + intros r t Ht Hnot. apply Hkeep2; [|exact Hnot].
      destruct (Nat.eq_dec r ref) as [->|Hne]; [now apply Hkeep|].
      now rewrite Hother.
    + exists (results1 ++ results2). rewrite Hres2, Hres1, <- app_assoc.
      split; [reflexivity|]. rewrite length_app. cbn [length]. lia.
Qed.

End Monitor.

(** One round of the order monitor never fails, posts no order and keeps
    the list of active trades and the cooldown as they are.  It changes no
    trade that is not active and no trade that is not in the filled state,
    and it adds at most one result per active trade to the ledger. *)
Theorem monitor_round_frame :
  forall (V : Type) (C : Client V) (cfg : Bot.Config) (b : Bot.Bot V),
    let run := Bot.orderMonitorTick cfg b in
    fst run = inr tt /\
    Bot.activeTrades (snd run) = Bot.activeTrades b /\
    Bot.lastTradeTime (snd run) = Bot.lastTradeTime b /\
    length (Bot.trades (snd run)) = length (Bot.trades b) /\
    posts (Bot.outboundOf (snd run)) = posts (Bot.outboundOf b) /\
    (forall ref, ~ In ref (Bot.activeTrades b) ->
                 Bot.trades (snd run) !! ref = Bot.trades b !! ref) /\
    (forall ref t, Bot.trades b !! ref = Some t -> Bot.status t <> Bot.filled ->
                   Bot.trades (snd run) !! ref = Some t) /\
    exists results,
      PnL.trades (Bot.pnlTracker (snd run))
      = PnL.trades (Bot.pnlTracker b) ++ results /\
      (length results <= length (Bot.activeTrades b))%nat.
Proof.
  intros V C cfg b run. subst run. unfold Bot.orderMonitorTick.
  exact (monitorTrades_effect cfg (Bot.activeTrades b) b).
Qed.

Section Sweep.

Context {V : Type} `{Client V}.
Variable cfg : Bot.Config.

Lemma blind_ret {A} (a : A) : Bot.sweepBlind (V := V) (Eff.ret a).
Proof. intros kept b. reflexivity. Qed.

Lemma blind_bind {A B} (m : Eff.M (Bot.Bot V) Error A)
    (k : A -> Eff.M (Bot.Bot V) Error B) :
  Bot.sweepBlind m -> (forall a, Bot.sweepBlind (k a)) ->
  Bot.sweepBlind (Eff.bind m k).
Proof.
  intros Hm Hk kept b. unfold Eff.bind. rewrite (Hm kept b).
  destruct (m b) as [[e|a] b']; cbn [fst snd]; [reflexivity | apply Hk].
Qed.

Lemma blind_tryCatch {A} (m : Eff.M (Bot.Bot V) Error A)
    (h : Error -> Eff.M (Bot.Bot V) Error A) :
  Bot.sweepBlind m -> (forall e, Bot.sweepBlind (h e)) ->
  Bot.sweepBlind (Eff.tryCatch m h).
Proof.
  intros Hm Hh kept b. unfold Eff.tryCatch. rewrite (Hm kept b).
  destruct (m b) as [[e|a] b']; cbn [fst snd]; [apply Hh | reflexivity].
Qed.

Lemma blind_withRetry {T} (fn : Thunk (Remote V) T) op :
  Bot.sweepBlind (Bot.withRetry cfg fn op).
Proof.
  intros kept b. unfold Bot.withRetry.
  cbn [Bot.setActiveTrades Bot.limiter].
  destruct (executeWithRetry _ _ _ _ _) as [r l]. reflexivity.
Qed.

Lemma blind_close (ref : nat) (reason : PnL.ExitReason) :
  Bot.sweepBlind (V := V) (Eff.modify (Bot.recordTradeClose ref reason)).
Proof.
  intros kept b. unfold Eff.modify, Bot.recordTradeClose.
  cbn [Bot.setActiveTrades Bot.trades fst snd].
  destruct (Bot.trades b !! ref) as [trade|]; [|reflexivity].
  destruct (Bot.isClosed (Bot.status trade)); reflexivity.
Qed.

Lemma blind_status (orderId : string) : Bot.sweepBlind (Bot.checkOrderStatus cfg orderId).
Proof.
  apply blind_tryCatch; [|intros e; apply blind_ret].
  apply blind_bind; [apply blind_withRetry | intros orders; apply blind_ret].
Qed.

Lemma blind_open (orderId : string) : Bot.sweepBlind (Bot.isOrderOpen cfg orderId).
Proof.
  apply blind_tryCatch; [|intros e; apply blind_ret].
  apply blind_bind; [apply blind_withRetry | intros orders; apply blind_ret].
Qed.

Lemma blind_cancel (orderId : string) : Bot.sweepBlind (Bot.cancelOpenOrder cfg orderId).
Proof.
  apply blind_tryCatch; [apply blind_withRetry | intros e; apply blind_ret].
Qed.

Lemma blind_monitorTrade (ref : nat) : Bot.sweepBlind (Bot.monitorTrade cfg ref).
Proof.
  intros kept b. unfold Bot.monitorTrade.
  cbn [Bot.setActiveTrades Bot.trades].
  destruct (Bot.trades b !! ref) as [trade|]; [|reflexivity].
  destruct (negb (Bot.isFilled (Bot.status trade))); [reflexivity|].
  revert kept b.
  change (Bot.sweepBlind
    (Eff.tryCatch
       (let! tpStatus := Bot.checkOrderStatus cfg (Bot.takeProfitOrderId trade) in
        let! slStatus := Bot.checkOrderStatus cfg (Bot.stopLossOrderId trade) in
        if Bot.isFilledOrCancelled tpStatus then
          let! slStillOpen := Bot.isOrderOpen cfg (Bot.stopLossOrderId trade) in
          if slStillOpen then
            do! Bot.cancelOpenOrder cfg (Bot.stopLossOrderId trade) in
            Eff.modify (Bot.recordTradeClose ref PnL.take_profit)
          else if negb slStillOpen && Bot.isFilledOrCancelled slStatus then
            Eff.modify (Bot.recordTradeClose ref PnL.take_profit)
          else Eff.ret tt
        else if Bot.isFilledOrCancelled slStatus then
          let! tpStillOpen := Bot.isOrderOpen cfg (Bot.takeProfitOrderId trade) in
          if tpStillOpen then
            do! Bot.cancelOpenOrder cfg (Bot.takeProfitOrderId trade) in
            Eff.modify (Bot.recordTradeClose ref PnL.stop_loss)
          else Eff.ret tt
        else Eff.ret tt)%eff
       (fun _ => Eff.ret tt))).
  apply blind_tryCatch; [|intros e; apply blind_ret].
  apply blind_bind; [apply blind_status | intros tpStatus].
  apply blind_bind; [apply blind_status | intros slStatus].
  destruct (Bot.isFilledOrCancelled tpStatus).
  - apply blind_bind; [apply blind_open | intros [|]; cbn [negb andb]].
    + apply blind_bind; [apply blind_cancel | intros _; apply blind_close].
    + destruct (Bot.isFilledOrCancelled slStatus); [apply blind_close | apply blind_ret].
  - destruct (Bot.isFilledOrCancelled slStatus); [|apply blind_ret].
    apply blind_bind; [apply blind_open | intros [|]; [|apply blind_ret]].
    apply blind_bind; [apply blind_cancel | intros _; apply blind_close].
Qed.

Lemma blind_monitorTrades (refs : list nat) : Bot.sweepBlind (Bot.monitorTrades cfg refs).
Proof.
  induction refs as [|ref refs IH]; cbn [Bot.monitorTrades]; [apply blind_ret|].
  apply blind_bind; [apply blind_monitorTrade | intros _; exact IH].
Qed.

End Sweep.

(** The cleanup sweep only forgets: it keeps exactly the active trades that
    are at most [maxTradeAge] old, and touches neither the trades themselves
    nor the ledger nor the venue.  A round of the order monitor that starts
    after the sweep leaves a dropped trade as it was.  A round that is
    already going over an array [refs] does not notice the sweep, whenever
    it comes: it treats the trades of [refs] exactly as without the sweep,
    so a trade dropped while still filled can yet be closed and recorded by
    such a round. *)
Theorem cleanup_forgets_but_monitor_goes_on :
  forall (V : Type) (C : Client V) (cfg : Bot.Config) (b : Bot.Bot V),
    let b1 := Bot.tradeCleanupTick cfg b in
    Bot.trades b1 = Bot.trades b /\
    Bot.pnlTracker b1 = Bot.pnlTracker b /\
    Bot.limiter b1 = Bot.limiter b /\
    (forall ref,
        In ref (Bot.activeTrades b1) <->
        In ref (Bot.activeTrades b) /\
        match Bot.trades b !! ref with
        | Some trade => (Bot.dateNow b - Bot.timestamp trade <= Bot.maxTradeAge cfg)%Z
        | None => True
        end) /\
    (forall ref,
        ~ In ref (Bot.activeTrades b1) ->
        Bot.trades (snd (Bot.orderMonitorTick cfg b1)) !! ref = Bot.trades b !! ref) /\
    (forall (refs : list nat) (b' : Bot.Bot V),
        let run := Bot.monitorTrades cfg refs b' in
        let swept := Bot.tradeCleanupTick cfg b' in
        Bot.monitorTrades cfg refs swept
        = (fst run, Bot.setActiveTrades (Bot.activeTrades swept) (snd run))).
Proof.
  intros V C cfg b b1. subst b1. splits; try reflexivity.
  - intros ref. unfold Bot.tradeCleanupTick. cbn [Bot.setActiveTrades Bot.activeTrades].
    rewrite filter_In.
    destruct (Bot.trades b !! ref) as [trade|]; [|tauto].
    rewrite negb_true_iff, Z.ltb_ge. tauto.
  - intros ref Hout. unfold Bot.orderMonitorTick.
    destruct (monitorTrades_effect cfg
                (Bot.activeTrades (Bot.tradeCleanupTick cfg b))
                (Bot.tradeCleanupTick cfg b)) as (_ & _ & _ & _ & _ & Hother & _).
    now rewrite (Hother ref Hout).
  - intros refs b' run swept. subst run swept.
    unfold Bot.tradeCleanupTick at 1.
    rewrite (blind_monitorTrades cfg refs _ b'). reflexivity.
Qed.

Lemma cleanup_forgets_but_monitor_goes_on_witness :
  let b := Bot.later 4000000 Bot.tradedBot in
  let b1 := Bot.tradeCleanupTick Bot.defaultConfig b in
  ~ In 0%nat (Bot.activeTrades b1) /\
  Bot.trades (snd (Bot.orderMonitorTick (H := paperClient) Bot.defaultConfig b1)) !! 0%nat
  = Bot.trades b !! 0%nat /\
  exists t,
    Bot.trades (snd (Bot.monitorTrades (H := paperClient) Bot.defaultConfig [0%nat] b1))
      !! 0%nat = Some t /\
    Bot.status t = Bot.closed.
Proof.
  cbv zeta.
  assert (H1 : ~ In 0%nat (Bot.activeTrades
                  (Bot.tradeCleanupTick Bot.defaultConfig
                     (Bot.later 4000000 Bot.tradedBot))))
    by (vm_compute; tauto).
  pose proof (cleanup_forgets_but_monitor_goes_on Paper paperClient Bot.defaultConfig
                (Bot.later 4000000 Bot.tradedBot)) as Hs.
  cbv zeta in Hs. destruct Hs as (_ & _ & _ & _ & Hafter & Hgoing).
  split; [exact H1 | split; [exact (Hafter 0%nat H1)|]].
  rewrite (Hgoing [0%nat] (Bot.later 4000000 Bot.tradedBot)).
  cbn [snd Bot.setActiveTrades Bot.trades].
  assert (Hrun : { t | Bot.trades (snd (Bot.monitorTrades (H := paperClient)
                                          Bot.defaultConfig [0%nat]
                                          (Bot.later 4000000 Bot.tradedBot))) !! 0%nat
                       = Some t /\ Bot.status t = Bot.closed }).
  { eexists. vm_compute. split; reflexivity. }
  destruct Hrun as (t & Ht & Hclosed).
  exists t. split; [exact Ht | exact Hclosed].
Defined.

(** *** One cancels the other *)

Section Oco.

Context {V : Type} `{Client V}.
Variable cfg : Bot.Config.
Hypothesis retries : (0 <= maxRetries (Bot.apiConfig cfg))%Z.



Variable orders : list string.
Hypothesis venue_quiet : forall w, getOpenOrders w = (inr orders, w).




End Oco.



(** *** Confidence and size *)

(** With positive settings, a price difference at or above the threshold, a
    spread and a liquidity that are not negative and an oracle age between 0
    and the staleness limit (the spread limit need not hold), the confidence
    is a number between 0 and 1.  The dynamic size computed from a
    confidence in that range never exceeds twice the trade amount, a third
    of the liquidity or a tenth of the balance, and it is at least half the
    trade amount unless liquidity or balance cap it lower. *)
Theorem confidence_and_size_bounds :
  forall (cfg : Bot.Config) (priceDiff spread liquidity balance : Q) (oracleAge : Z),
    0 < Bot.priceThreshold cfg -> 0 < Bot.maxSpread cfg ->
    0 < Bot.tradeAmount cfg -> (0 < Bot.priceStaleMs cfg)%Z ->
    Bot.priceThreshold cfg <= priceDiff ->
    0 <= spread -> 0 <= liquidity -> (0 <= oracleAge)%Z ->
    let c := Bot.calculateConfidence cfg priceDiff spread liquidity oracleAge in
    let size := Bot.calculateDynamicSize cfg c liquidity balance in
    0 <= c /\ c <= 1 /\
    size <= Bot.tradeAmount cfg * 2 /\
    size <= liquidity / 3 /\
    size <= balance * 0.1 /\
    Qmin (Qmin (Bot.tradeAmount cfg * 0.5) (liquidity / 3)) (balance * 0.1) <= size.
Proof.
  intros cfg priceDiff spread liquidity balance oracleAge
         Hthr Hmax Hamount Hstale Hdiff Hspread Hliq Hage c size.
  assert (Hc : 0 <= c /\ c <= 1).
  { subst c. unfold Bot.calculateConfidence.
    set (f1 := Qmin ((priceDiff - Bot.priceThreshold cfg) / Bot.priceThreshold cfg) 1).
    set (f2 := Qmax (1 - spread / Bot.maxSpread cfg) 0).
    set (f3 := Qmin (liquidity / (Bot.tradeAmount cfg * 5)) 1).
    set (f4 := Qmax (1 - inject_Z oracleAge / inject_Z (Bot.priceStaleMs cfg)) 0).
    assert (H1 : 0 <= f1 /\ f1 <= 1).
    { subst f1. split; [|apply Q.le_min_r].
      apply Q.min_glb; [|lra]. apply Qle_shift_div_l; lra. }
    assert (H2 : 0 <= f2 /\ f2 <= 1).
    { subst f2. split; [apply Q.le_max_r|].
      apply Q.max_lub; [|lra].
      assert (0 <= spread / Bot.maxSpread cfg) by (apply Qle_shift_div_l; lra). lra. }
    assert (H3 : 0 <= f3 /\ f3 <= 1).
    { subst f3. split; [|apply Q.le_min_r].
      apply Q.min_glb; [|lra]. apply Qle_shift_div_l; lra. }
    assert (H4 : 0 <= f4 /\ f4 <= 1).
    { subst f4. split; [apply Q.le_max_r|].
      apply Q.max_lub; [|lra].
      assert (Hs : 0 < inject_Z (Bot.priceStaleMs cfg)).
      { change 0 with (inject_Z 0). rewrite <- Zlt_Qlt. exact Hstale. }
      assert (Ha : 0 <= inject_Z oracleAge).
      { change 0 with (inject_Z 0). rewrite <- Zle_Qle. exact Hage. }
      assert (0 <= inject_Z oracleAge / inject_Z (Bot.priceStaleMs cfg))
        by (apply Qle_shift_div_l; lra).
      lra. }
    split; lra. }
  destruct Hc as [Hc0 Hc1]. split; [exact Hc0 | split; [exact Hc1|]].
  subst size. unfold Bot.calculateDynamicSize.
  set (a := Bot.tradeAmount cfg) in *.
  set (m := a * (0.5 + c * 1.5)).
  assert (Hm : a * 0.5 <= m /\ m <= a * 2) by (subst m; split; nra).
  splits.
  - apply Q.le_min_r.
  - eapply Qle_trans; [apply Q.le_min_l|].
    eapply Qle_trans; [apply Q.le_min_l|]. apply Q.le_min_r.
  - eapply Qle_trans; [apply Q.le_min_l|]. apply Q.le_min_r.
  - apply Q.min_glb.
    + apply Q.min_glb.
      * apply Q.min_glb.
        -- eapply Qle_trans; [apply Q.le_min_l|].
           eapply Qle_trans; [apply Q.le_min_l|]. tauto.
        -- eapply Qle_trans; [apply Q.le_min_l|]. apply Q.le_min_r.
      * apply Q.le_min_r.
    + eapply Qle_trans; [apply Q.le_min_l|].
      eapply Qle_trans; [apply Q.le_min_l|]. lra.
Qed.

Lemma confidence_and_size_bounds_witness :
  0 < Bot.priceThreshold Bot.defaultConfig /\ 0 < Bot.maxSpread Bot.defaultConfig /\
  0 < Bot.tradeAmount Bot.defaultConfig /\ (0 < Bot.priceStaleMs Bot.defaultConfig)%Z /\
  Bot.priceThreshold Bot.defaultConfig <= 0.05 /\
  0 <= 1 /\ 0 <= 70 /\ (0 <= 500)%Z /\
  Bot.calculateConfidence Bot.defaultConfig 0.05 1 70 500 <= 1.
Proof.
  assert (H1 : 0 < Bot.priceThreshold Bot.defaultConfig) by (simpl; lra).
  assert (H2 : 0 < Bot.maxSpread Bot.defaultConfig) by (simpl; lra).
  assert (H3 : 0 < Bot.tradeAmount Bot.defaultConfig) by (simpl; lra).
  assert (H4 : (0 < Bot.priceStaleMs Bot.defaultConfig)%Z) by (simpl; lia).
  assert (H5 : Bot.priceThreshold Bot.defaultConfig <= 0.05) by (simpl; lra).
  assert (H6 : 0 <= 1) by lra.
  assert (H7 : 0 <= 70) by lra.
  assert (H8 : (0 <= 500)%Z) by lia.
  pose proof (confidence_and_size_bounds Bot.defaultConfig 0.05 1 70 1000 500%Z
                H1 H2 H3 H4 H5 H6 H7 H8) as H.
  cbv zeta in H. destruct H as (_ & H & _).
  splits; [exact H1 | exact H2 | exact H3 | exact H4 | exact H5 | exact H6
          | exact H7 | exact H8 | exact H].
Defined.

(** *** The market feed *)

Lemma parseLevels_positive (raw : list Bot.RawLevel) :
  Forall (fun l => 0 < OrderBook.price l) (Bot.parseLevels raw).
Proof.
  induction raw as [|l raw IH]; [constructor|].
  cbn [Bot.parseLevels flat_map]. fold (Bot.parseLevels raw).
  destruct (Bot.rawPrice l) as [p|]; [|exact IH].
  destruct (gtb p 0) eqn:E; [|exact IH].
  apply gtb_true in E. cbn [app]. constructor; [exact E | exact IH].
Qed.

Lemma process_step {V : Type} (m : Bot.MarketMessage) (b : Bot.Bot V) :
  Bot.pricesPositive b -> Bot.booksPositive b ->
  let b' := Bot.processPolymarketMessage m b in
  Bot.pricesPositive b' /\ Bot.booksPositive b' /\
  Bot.limiter b' = Bot.limiter b /\ Bot.pnlTracker b' = Bot.pnlTracker b /\
  Bot.trades b' = Bot.trades b /\ Bot.activeTrades b' = Bot.activeTrades b /\
  Bot.lastTradeTime b' = Bot.lastTradeTime b /\
  Bot.softwarePrices b' = Bot.softwarePrices b.
Proof.
  intros Hprices Hbooks. cbv zeta. unfold Bot.processPolymarketMessage.
  destruct (negb _); [splits; first [assumption | reflexivity]|].
  set (b1 := match Bot.msgPrice m with
             | Some p => if gtb p 0 then Bot.setPolymarketPrice (Bot.assetId m) p b else b
             | None => b
             end).
  assert (H1 : Bot.pricesPositive b1 /\ Bot.booksPositive b1 /\
               Bot.limiter b1 = Bot.limiter b /\ Bot.pnlTracker b1 = Bot.pnlTracker b /\
               Bot.trades b1 = Bot.trades b /\ Bot.activeTrades b1 = Bot.activeTrades b /\
               Bot.lastTradeTime b1 = Bot.lastTradeTime b /\
               Bot.softwarePrices b1 = Bot.softwarePrices b).
  { subst b1. destruct (Bot.msgPrice m) as [p|];
      [|splits; first [assumption | reflexivity]].
    destruct (gtb p 0) eqn:E; [|splits; first [assumption | reflexivity]].
    apply gtb_true in E. splits; try reflexivity; [|exact Hbooks].
    unfold Bot.pricesPositive. cbn [Bot.setPolymarketPrice Bot.polymarketPrices].
    apply map_Forall_insert_2; assumption. }
  destruct H1 as (Hp1 & Hb1 & Hl1 & Hn1 & Ht1 & Ha1 & Hc1 & Hs1).
  set (bids := Bot.parseLevels (Bot.rawBids m)).
  set (asks := Bot.parseLevels (Bot.rawAsks m)).
  set (b2 := if (0 <? length bids)%nat || (0 <? length asks)%nat
             then Bot.setOrderBookTracker _ b1 else b1).
  assert (H2 : Bot.pricesPositive b2 /\ Bot.booksPositive b2 /\
               Bot.limiter b2 = Bot.limiter b /\ Bot.pnlTracker b2 = Bot.pnlTracker b /\
               Bot.trades b2 = Bot.trades b /\ Bot.activeTrades b2 = Bot.activeTrades b /\
               Bot.lastTradeTime b2 = Bot.lastTradeTime b /\
               Bot.softwarePrices b2 = Bot.softwarePrices b).
  { subst b2. destruct (_ || _); [|splits; assumption].
    splits; try assumption.
    unfold Bot.booksPositive, OrderBook.updateOrderBook.
    cbn [Bot.setOrderBookTracker Bot.orderBookTracker OrderBook.orderBooks].
    apply map_Forall_insert_2; [|exact Hb1].
    cbn [OrderBook.bids OrderBook.asks]. split; apply parseLevels_positive. }
  destruct H2 as (Hp2 & Hb2 & Hl2 & Hn2 & Ht2 & Ha2 & Hc2 & Hs2).
  destruct (_ && _); [|splits; assumption].
  destruct (gtb _ 0) eqn:E; [|splits; assumption].
  apply gtb_true in E. splits; try assumption.
  unfold Bot.pricesPositive. cbn [Bot.setPolymarketPrice Bot.polymarketPrices].
  apply map_Forall_insert_2; assumption.
Qed.

(** The market feed stores positive prices only.  Starting from a state
    whose stored market prices and book level prices are positive (such as
    no prices and no books at all), this remains so after any sequence of
    feed messages, and the feed changes nothing of the trades, the ledger,
    the cooldown, the oracle prices or the limiter.  A [clob_market] message
    with at least one valid bid and one valid ask sets the market price of
    its asset to the mean of the first valid bid and the first valid ask,
    whatever price the message itself carries. *)
Theorem feed_keeps_prices_positive :
  (forall (V : Type) (ms : list Bot.MarketMessage) (b : Bot.Bot V),
      Bot.pricesPositive b -> Bot.booksPositive b ->
      let b' := Bot.processAll ms b in
      Bot.pricesPositive b' /\ Bot.booksPositive b' /\
      Bot.limiter b' = Bot.limiter b /\ Bot.pnlTracker b' = Bot.pnlTracker b /\
      Bot.trades b' = Bot.trades b /\ Bot.activeTrades b' = Bot.activeTrades b /\
      Bot.lastTradeTime b' = Bot.lastTradeTime b /\
      Bot.softwarePrices b' = Bot.softwarePrices b) /\
  (forall (V : Type) (m : Bot.MarketMessage) (b : Bot.Bot V)
          (bid ask : OrderBook.OrderLevel) (bids asks : list OrderBook.OrderLevel),
      Bot.topic m = "clob_market" ->
      Bot.parseLevels (Bot.rawBids m) = bid :: bids ->
      Bot.parseLevels (Bot.rawAsks m) = ask :: asks ->
      exists mid,
        Bot.polymarketPrices (Bot.processPolymarketMessage m b) !! Bot.assetId m
        = Some mid /\
        mid == (OrderBook.price bid + OrderBook.price ask) / 2).
Proof.
  split.
  - intros V ms. induction ms as [|m ms IH]; intros b Hp Hb; cbv zeta.
    + cbn. splits; first [assumption | reflexivity].
    + cbn [Bot.processAll fold_left].
      destruct (process_step m b Hp Hb) as (Hp1 & Hb1 & Hl1 & Hn1 & Ht1 & Ha1 & Hc1 & Hs1).
      destruct (IH (Bot.processPolymarketMessage m b) Hp1 Hb1)
        as (Hp2 & Hb2 & Hl2 & Hn2 & Ht2 & Ha2 & Hc2 & Hs2).
      unfold Bot.processAll in *.
      splits; try assumption; congruence.
  - intros V m b bid ask bids asks Htopic Hbids Hasks.
    pose proof (parseLevels_positive (Bot.rawBids m)) as Hpb.
    pose proof (parseLevels_positive (Bot.rawAsks m)) as Hpa.
    rewrite Hbids in Hpb. rewrite Hasks in Hpa.
    apply Forall_inv in Hpb. apply Forall_inv in Hpa.
    unfold Bot.processPolymarketMessage. rewrite Htopic, Hbids, Hasks.
    cbn [String.eqb Ascii.eqb Bool.eqb negb length Nat.ltb Nat.leb orb andb].
    unfold OrderBook.getMidPrice, OrderBook.updateOrderBook.
    cbn [Bot.setOrderBookTracker Bot.orderBookTracker OrderBook.orderBooks].
    rewrite lookup_insert_eq.
    cbn [OrderBook.midPrice OrderBook.bestPriceOf].
    replace (gtb (OrderBook.price bid) 0) with true by (symmetry; now apply gtb_true).
    replace (gtb (OrderBook.price ask) 0) with true by (symmetry; now apply gtb_true).
    cbn [andb].
    assert (Hmid : 0 < (OrderBook.price bid + OrderBook.price ask) / 2)
      by (apply Qlt_shift_div_l; lra).
    replace (gtb ((OrderBook.price bid + OrderBook.price ask) / 2) 0) with true
      by (symmetry; now apply gtb_true).
    cbn [Bot.setPolymarketPrice Bot.polymarketPrices].
    rewrite lookup_insert_eq. eexists. split; reflexivity.
Qed.

Lemma feed_keeps_prices_positive_witness :
  let b := Bot.scenarioBot 1700000000000 31000 in
  let m := {| Bot.topic := "clob_market"; Bot.assetId := "up"; Bot.msgPrice := Some 0.7;
              Bot.rawBids := [{| Bot.rawPrice := Some 0.69; Bot.rawSize := 100 |}];
              Bot.rawAsks := [{| Bot.rawPrice := None; Bot.rawSize := 5 |};
                              {| Bot.rawPrice := Some 0.71; Bot.rawSize := 100 |}] |} in
  Bot.pricesPositive b /\ Bot.booksPositive b /\
  Bot.pricesPositive (Bot.processAll [m] b).
Proof.
  cbv zeta.
  assert (H1 : Bot.pricesPositive (Bot.scenarioBot 1700000000000 31000)).
  { unfold Bot.pricesPositive. cbn [Bot.scenarioBot Bot.polymarketPrices].
    apply map_Forall_singleton. reflexivity. }
  assert (H2 : Bot.booksPositive (Bot.scenarioBot 1700000000000 31000)).
  { unfold Bot.booksPositive, OrderBook.updateOrderBook.
    cbn [Bot.scenarioBot Bot.orderBookTracker OrderBook.orderBooks OrderBook.newTracker].
    apply map_Forall_insert_2; [|apply map_Forall_empty].
    cbn [OrderBook.bids OrderBook.asks]. split; repeat constructor. }
  split; [exact H1 | split; [exact H2|]].
  exact (proj1 (proj1 feed_keeps_prices_positive Paper _ _ H1 H2)).
Defined.

End LoopFacts.
